(** * Prompt-learning CLIP classifier (clip/clip.py): a shallow embedding

    The development follows [src/clip/clip.py]: the tokenizer adapter
    [tokenize], the prompt assembler [PromptLearner], the text encoder wrapper
    [TextEncoder] and the classifier [CLIP] with its constructor and its
    [forward] pass.

    Python exceptions are values of [exn] and a call that may raise returns a
    [result].  Tensors are a shape together with their entries in row-major
    order.  Entries of floating-point tensors are taken from a type of scalars
    with the operations the code uses; rounding is not modelled. *)

From Stdlib Require Import String Ascii DecimalString.
From Stdlib Require Import List ZArith Lia Bool Arith.
From Stdlib Require Import Reals Lra.
Import ListNotations.

Set Implicit Arguments.

(** ** Exceptions and fallible calls *)

Inductive exn : Type :=
| RuntimeError (msg : string)
| TypeError (msg : string)
| IndexError (msg : string)
| AttributeError (msg : string).

Inductive result (A : Type) : Type :=
| Ok (a : A)
| Raise (e : exn).

Arguments Ok {A} a.
Arguments Raise {A} e.

Definition bind {A B : Type} (c : result A) (k : A -> result B) : result B :=
  match c with
  | Ok a => k a
  | Raise e => Raise e
  end.

Notation "x <- c ;; k" := (bind c (fun x => k))
  (at level 61, c at next level, right associativity).

Definition raises {A : Type} (c : result A) : Prop :=
  exists e, c = Raise e.

(** [mapM f l]: a list comprehension [[f(x) for x in l]] whose body may raise. *)
Fixpoint mapM {A B : Type} (f : A -> result B) (l : list A) : result (list B) :=
  match l with
  | [] => Ok []
  | x :: rest =>
      y <- f x ;;
      ys <- mapM f rest ;;
      Ok (y :: ys)
  end.

(** ** Tensors *)

Record tensor (A : Type) : Type := mkTensor {
  shape : list nat;
  data : list A
}.

Definition numel (s : list nat) : nat := fold_right Nat.mul 1 s.

(** ** Python list helpers *)

(** [l[:n]] *)
Definition slice_to {A : Type} (l : list A) (n : Z) : list A :=
  if (n <? 0)%Z
  then firstn (length l - Z.to_nat (- n)) l
  else firstn (Z.to_nat n) l.

(** [l[-1] = x] *)
Definition set_last {A : Type} (l : list A) (x : A) : result (list A) :=
  match l with
  | [] => Raise (IndexError "list assignment index out of range")
  | _ :: _ => Ok (removelast l ++ [x])
  end.

(** [l[i] = x] for [i] in range *)
Fixpoint set_nth {A : Type} (i : nat) (x : A) (l : list A) : list A :=
  match l, i with
  | [], _ => []
  | _ :: rest, O => x :: rest
  | y :: rest, S j => y :: set_nth j x rest
  end.

Definition string_of_Z (z : Z) : string :=
  NilZero.string_of_int (Z.to_int z).

(** ** Tokenization *)

Inductive texts_arg : Type :=
| OneText (s : string)
| TextList (l : list string).

(** What [clip.py] uses of a [SimpleTokenizer]: its [encode] method and the
    two entries [encoder["<|startoftext|>"]] and [encoder["<|endoftext|>"]]. *)
Record Tokenizer : Type := mkTokenizer {
  encode : string -> list Z;
  sot_token : Z;
  eot_token : Z
}.

Section Tokenize.

(** The module-level [_tokenizer]. *)
Variable tokenizer : Tokenizer.

Definition wrapped (text : string) : list Z :=
  [sot_token tokenizer] ++ encode tokenizer text ++ [eot_token tokenizer].

(** The [if len(tokens) > context_length] statement of the loop body. *)
Definition fit_tokens (text : string) (tokens : list Z)
           (context_length : Z) (truncate : bool) : result (list Z) :=
  if (Z.of_nat (length tokens) >? context_length)%Z then
    if truncate then
      set_last (slice_to tokens context_length) (eot_token tokenizer)
    else
      Raise (RuntimeError
               ("Input " ++ text ++ " is too long for context length "
                         ++ string_of_Z context_length)%string)
  else Ok tokens.

(** [result[i, :len(tokens)] = torch.tensor(tokens)] on row [i]. *)
Definition assign_prefix (row tokens : list Z) : result (list Z) :=
  if length tokens <=? length row
  then Ok (tokens ++ skipn (length tokens) row)
  else Raise (RuntimeError "The expanded size of the tensor must match the existing size").

(** [for i, tokens in enumerate(all_tokens)], started at index [i] with the
    matrix [out] built so far. *)
Fixpoint tokenize_loop (texts : list string) (all_tokens : list (list Z))
         (i : nat) (context_length : Z) (truncate : bool)
         (out : list (list Z)) : result (list (list Z)) :=
  match all_tokens with
  | [] => Ok out
  | tokens :: rest =>
      tokens' <- fit_tokens (nth i texts EmptyString) tokens context_length truncate ;;
      row <- assign_prefix (nth i out []) tokens' ;;
      tokenize_loop texts rest (S i) context_length truncate (set_nth i row out)
  end.

Definition texts_list (texts : texts_arg) : list string :=
  match texts with
  | OneText s => [s]
  | TextList l => l
  end.

Definition tokenize (texts : texts_arg) (context_length : Z) (truncate : bool)
  : result (tensor Z) :=
  let texts := texts_list texts in
  let all_tokens := map wrapped texts in
  if (context_length <? 0)%Z then
    Raise (RuntimeError "Trying to create tensor with negative dimension")
  else
    let zeros := repeat (repeat 0%Z (Z.to_nat context_length)) (length all_tokens) in
    rows <- tokenize_loop texts all_tokens 0 context_length truncate zeros ;;
    Ok (mkTensor [length all_tokens; Z.to_nat context_length] (concat rows)).

(** The wrapped token sequence of [text] exceeds [context_length]. *)
Definition too_long (context_length : Z) (text : string) : Prop :=
  (Z.of_nat (length (wrapped text)) > context_length)%Z.

(** The row [tokenize] writes for a text: the (possibly truncated) wrapped
    tokens followed by the untouched zeros. *)
Definition padded_row (context_length : Z) (text : string) : list Z :=
  let tokens := wrapped text in
  let n := Z.to_nat context_length in
  if (Z.of_nat (length tokens) >? context_length)%Z
  then removelast (firstn n tokens) ++ [eot_token tokenizer]
  else tokens ++ repeat 0%Z (n - length tokens).

End Tokenize.

(** ** Shapes and indexing *)

Section TensorOps.

Variable A : Type.
Variable dflt : A.

(** Row-major position of the entry at multi-index [idx] in a tensor of shape [s]. *)
Fixpoint offset (s idx : list nat) : nat :=
  match s, idx with
  | _ :: s', i :: idx' => i * numel s' + offset s' idx'
  | _, _ => 0
  end.

(** All multi-indices of a shape, in row-major order. *)
Fixpoint indices (s : list nat) : list (list nat) :=
  match s with
  | [] => [[]]
  | d :: s' => flat_map (fun i => map (cons i) (indices s')) (seq 0 d)
  end.

Definition valid_index (s idx : list nat) : Prop := Forall2 lt idx s.

Definition get (t : tensor A) (idx : list nat) : A :=
  nth (offset (shape t) idx) (data t) dflt.

(** [t.shape[i]] *)
Definition shape_at (t : tensor A) (i : nat) : result nat :=
  match nth_error (shape t) i with
  | Some d => Ok d
  | None => Raise (IndexError "tuple index out of range")
  end.

(** Broadcasting of two shapes, aligned on their last dimensions. *)
Fixpoint broadcast_rev (a b : list nat) : option (list nat) :=
  match a, b with
  | [], _ => Some b
  | _, [] => Some a
  | x :: a', y :: b' =>
      match broadcast_rev a' b' with
      | None => None
      | Some r =>
          if x =? y then Some (x :: r)
          else if x =? 1 then Some (y :: r)
          else if y =? 1 then Some (x :: r)
          else None
      end
  end.

Definition broadcast_shapes (a b : list nat) : option (list nat) :=
  option_map (@rev nat) (broadcast_rev (rev a) (rev b)).

(** The index read in an operand of shape [s] for the entry [idx] of the
    broadcast result: leading dimensions are dropped and a dimension of
    size one is read at 0. *)
Definition bproj (s idx : list nat) : list nat :=
  map (fun di => if fst di =? 1 then 0 else snd di)
      (combine s (skipn (length idx - length s) idx)).

(** [t.view(dims...)], with at most one dimension given as -1.  The tensors
    [clip.py] views are contiguous, so only the sizes are checked. *)
Definition view (t : tensor A) (dims : list Z) : result (tensor A) :=
  let n := numel (shape t) in
  if existsb (fun d => (d <? -1)%Z) dims then
    Raise (RuntimeError "invalid shape dimension")
  else
    let known := numel (map Z.to_nat (filter (fun d => negb (d =? -1)%Z) dims)) in
    match length (filter (fun d => (d =? -1)%Z) dims) with
    | 0 =>
        if known =? n then Ok (mkTensor (map Z.to_nat dims) (data t))
        else Raise (RuntimeError "shape is invalid for input size")
    | 1 =>
        if known =? 0 then
          Raise (RuntimeError "cannot reshape tensor: the unspecified dimension size -1 is ambiguous")
        else if n mod known =? 0 then
          Ok (mkTensor (map (fun d => if (d =? -1)%Z then n / known else Z.to_nat d) dims)
                       (data t))
        else Raise (RuntimeError "shape is invalid for input size")
    | _ => Raise (RuntimeError "only one dimension can be inferred")
    end.

(** [t.unsqueeze(1)] *)
Definition unsqueeze1 (t : tensor A) : result (tensor A) :=
  match shape t with
  | [] => Raise (IndexError "Dimension out of range")
  | d :: s => Ok (mkTensor (d :: 1 :: s) (data t))
  end.

(** [t.t()] *)
Definition transpose (t : tensor A) : result (tensor A) :=
  match shape t with
  | [] | [_] => Ok t
  | [n; m] =>
      Ok (mkTensor [m; n]
            (flat_map (fun j => map (fun i => get t [i; j]) (seq 0 n)) (seq 0 m)))
  | _ => Raise (RuntimeError "t() expects a tensor with <= 2 dimensions")
  end.

(** [t.permute(1, 0, 2)] *)
Definition permute102 (t : tensor A) : result (tensor A) :=
  match shape t with
  | [a; b; c] =>
      Ok (mkTensor [b; a; c]
            (flat_map (fun j =>
               flat_map (fun i => map (fun k => get t [i; j; k]) (seq 0 c)) (seq 0 a))
               (seq 0 b)))
  | _ => Raise (RuntimeError "permute: number of dimensions does not match")
  end.

(** [torch.cat(ts, dim=0)] for tensors of rank at least one. *)
Definition cat0 (ts : list (tensor A)) : result (tensor A) :=
  match ts with
  | [] => Raise (RuntimeError "torch.cat(): expected a non-empty list of Tensors")
  | t0 :: _ =>
      match shape t0 with
      | [] => Raise (RuntimeError "zero-dimensional tensor cannot be concatenated")
      | _ :: rest =>
          if forallb (fun t => match shape t with
                               | [] => false
                               | _ :: r => if list_eq_dec Nat.eq_dec r rest then true else false
                               end) ts
          then Ok (mkTensor (list_sum (map (fun t => hd 0 (shape t)) ts) :: rest)
                            (concat (map (@data A) ts)))
          else Raise (RuntimeError "Sizes of tensors must match except in dimension 0")
      end
  end.

(** The sub-tensor [t[i]] as a list of entries. *)
Definition slice0 (t : tensor A) (i : nat) : list A :=
  let m := numel (tl (shape t)) in
  firstn m (skipn (i * m) (data t)).

(** [t[index]] for an integer index tensor: gathers along dimension 0. *)
Definition index0 (t : tensor A) (index : tensor nat) : result (tensor A) :=
  match shape t with
  | [] => Raise (IndexError "too many indices for tensor of dimension 0")
  | n :: rest =>
      rows <- mapM (fun i => if i <? n then Ok (slice0 t i)
                             else Raise (IndexError "index out of range in self"))
                   (data index) ;;
      Ok (mkTensor (shape index ++ rest) (concat rows))
  end.

(** [torch.chunk(t, n, dim=0)], the scatter step of [nn.DataParallel]. *)
Definition chunk0 (n : nat) (t : tensor A) : result (list (tensor A)) :=
  match shape t with
  | [] => Raise (RuntimeError "chunk expects at least a 1-dimensional tensor")
  | b :: rest =>
      let size := (b + n - 1) / n in
      if size =? 0 then Ok [t]
      else
        let m := numel rest in
        Ok (map (fun c =>
                   let rows := Nat.min size (b - c * size) in
                   mkTensor (rows :: rest)
                            (firstn (rows * m) (skipn (c * size * m) (data t))))
                (seq 0 ((b + size - 1) / size)))
  end.

(** [l[index]] for a Python list [l] and an integer tensor [index]: the
    tensor is converted with [__index__], which only a tensor of a single
    element supports. *)
Definition list_getitem (l : list A) (index : tensor nat) : result A :=
  match data index with
  | [i] =>
      match nth_error l i with
      | Some x => Ok x
      | None => Raise (IndexError "list index out of range")
      end
  | _ => Raise (TypeError "only integer tensors of a single element can be converted to an index")
  end.

(** Position of the first maximal entry of a list. *)
Fixpoint argmax_from (ltb : A -> A -> bool) (best_i : nat) (best : A)
         (i : nat) (l : list A) : nat :=
  match l with
  | [] => best_i
  | x :: rest =>
      if ltb best x then argmax_from ltb i x (S i) rest
      else argmax_from ltb best_i best (S i) rest
  end.

Definition argmax_list (ltb : A -> A -> bool) (l : list A) : option nat :=
  match l with
  | [] => None
  | x :: rest => Some (argmax_from ltb 0 x 1 rest)
  end.

(** The entries [t[idx, :]] along the last dimension. *)
Definition last_dim (s : list nat) : nat := last s 1.

Definition row_at (t : tensor A) (idx : list nat) : list A :=
  map (fun d => get t (idx ++ [d])) (seq 0 (last_dim (shape t))).

(** [t.argmax(dim=-1)] *)
Definition argmax_last (ltb : A -> A -> bool) (t : tensor A) : result (tensor nat) :=
  let lead := removelast (shape t) in
  rows <- mapM (fun idx => match argmax_list ltb (row_at t idx) with
                           | Some i => Ok i
                           | None => Raise (IndexError "argmax(): Expected reduction dim to have non-zero size")
                           end)
               (indices lead) ;;
  Ok (mkTensor lead rows).

End TensorOps.

(** [torch.arange(n)] *)
Definition arange (n : nat) : tensor nat := mkTensor [n] (seq 0 n).

(** [x[i, j]] for two integer index tensors, which are broadcast together and
    index the first two dimensions of [x]. *)
Definition index01 {A : Type} (x : tensor A) (i j : tensor nat) : result (tensor A) :=
  match shape x with
  | d0 :: d1 :: rest =>
      match broadcast_shapes (shape i) (shape j) with
      | None => Raise (IndexError "shape mismatch: indexing tensors could not be broadcast together")
      | Some bs =>
          let m := numel rest in
          rows <- mapM (fun idx =>
                          let a := get 0 i (bproj (shape i) idx) in
                          let b := get 0 j (bproj (shape j) idx) in
                          if (a <? d0) && (b <? d1)
                          then Ok (firstn m (skipn ((a * d1 + b) * m) (data x)))
                          else Raise (IndexError "index is out of bounds"))
                       (indices bs) ;;
          Ok (mkTensor (bs ++ rest) (concat rows))
      end
  | _ => Raise (IndexError "too many indices for tensor")
  end.

(** ** Floating-point tensors *)

(** The scalar operations [clip.py] applies to tensor entries. *)
Class Scalar (T : Type) : Type := {
  szero : T;
  sadd : T -> T -> T;
  smul : T -> T -> T;
  sdiv : T -> T -> T;
  ssqrt : T -> T;
  sexp : T -> T;
  sltb : T -> T -> bool
}.

Section FloatOps.

Context {T : Type} {S : Scalar T}.

Definition sum_list (l : list T) : T := fold_left sadd l szero.

(** An elementwise binary operator with broadcasting: [a + b], [a * b], [a / b]. *)
Definition broadcast2 (f : T -> T -> T) (a b : tensor T) : result (tensor T) :=
  match broadcast_shapes (shape a) (shape b) with
  | None => Raise (RuntimeError "The size of tensor a must match the size of tensor b")
  | Some s =>
      Ok (mkTensor s
            (map (fun idx => f (get szero a (bproj (shape a) idx))
                               (get szero b (bproj (shape b) idx)))
                 (indices s)))
  end.

(** The L2 norm of a list of entries. *)
Definition norm2 (row : list T) : T :=
  ssqrt (sum_list (map (fun x => smul x x) row)).

(** [t.norm(dim=-1, keepdim=True)] *)
Definition norm_keepdim (t : tensor T) : tensor T :=
  let lead := removelast (shape t) in
  mkTensor (match shape t with [] => [] | _ :: _ => lead ++ [1] end)
           (map (fun idx => norm2 (row_at szero t idx)) (indices lead)).

(** [t / t.norm(dim=-1, keepdim=True)] *)
Definition normalize (t : tensor T) : result (tensor T) :=
  broadcast2 sdiv t (norm_keepdim t).

(** [t.sum(-1)] *)
Definition sum_last (t : tensor T) : tensor T :=
  let lead := removelast (shape t) in
  mkTensor lead (map (fun idx => sum_list (row_at szero t idx)) (indices lead)).

(** [s * t] for a zero-dimensional [s] *)
Definition scale (s : T) (t : tensor T) : tensor T :=
  mkTensor (shape t) (map (smul s) (data t)).

(** [a @ b] for a matrix [b] and a left operand of rank at least two, the
    ranks at which [clip.py] multiplies. *)
Definition matmul (a b : tensor T) : result (tensor T) :=
  match shape b, rev (shape a) with
  | [k; m], k' :: _ :: _ =>
      if k' =? k then
        let lead := removelast (shape a) in
        Ok (mkTensor (lead ++ [m])
              (map (fun idx =>
                      sum_list (map (fun j => smul (get szero a (removelast idx ++ [j]))
                                                   (get szero b [j; last idx 0]))
                                    (seq 0 k)))
                   (indices (lead ++ [m]))))
      else Raise (RuntimeError "mat1 and mat2 shapes cannot be multiplied")
  | _, _ => Raise (RuntimeError "matmul: operand ranks outside the modelled ones")
  end.

End FloatOps.

(** ** The pretrained model handed to the constructors *)

Module ClipModel.

(** The attributes of [clip_model] that [clip.py] reads.  The networks are
    functions on tensors; [ln_final_weight_shape] is [ln_final.weight.shape]
    and [logit_scale] the zero-dimensional parameter of that name. *)
Record t (T : Type) : Type := mk {
  visual : tensor T -> result (tensor T);
  transformer : tensor T -> result (tensor T);
  ln_final : tensor T -> result (tensor T);
  ln_final_weight_shape : list nat;
  positional_embedding : tensor T;
  text_projection : tensor T;
  token_embedding : tensor Z -> result (tensor T);
  logit_scale : T
}.

End ClipModel.

(** The [args] namespace: only [args.text_prompt] is read. *)
Record Args : Type := mkArgs { text_prompt : Z }.

(** ** class PromptLearner *)

Module PromptLearner.

Record t (T : Type) : Type := mk {
  args : Args;
  prompt_pos : Z;
  entity_prompts : tensor T;
  n_cls : nat;
  n_ctx : Z;
  ctx_dim : nat
}.

Section Defs.

Context {T : Type} {S : Scalar T}.

(** [PromptLearner.__init__].  [entity_prompts] is the parameter object of
    the classifier itself, held here under a second name. *)
Definition init (args : Args) (class_names : list string)
           (clip_model : ClipModel.t T) (entity_prompts : tensor T)
           (n_ctx : Z) (prompt_pos : Z) : result (t T) :=
  match ClipModel.ln_final_weight_shape clip_model with
  | [] => Raise (IndexError "tuple index out of range")
  | ctx_dim :: _ =>
      Ok (mk args prompt_pos entity_prompts (length class_names) n_ctx ctx_dim)
  end.

(** [PromptLearner.forward] *)
Definition forward (self : t T) (indexs : tensor nat) : result (tensor T) :=
  batch <- shape_at indexs 0 ;;
  gathered <- index0 (entity_prompts self) indexs ;;
  ctx <- view gathered [Z.of_nat batch;
                        (n_ctx self * text_prompt (args self))%Z;
                        Z.of_nat (ctx_dim self)] ;;
  let prompt := ctx in
  Ok prompt.

End Defs.

End PromptLearner.

(** ** class TextEncoder *)

Module TextEncoder.

Record t (T : Type) : Type := mk {
  transformer : tensor T -> result (tensor T);
  positional_embedding : tensor T;
  ln_final : tensor T -> result (tensor T);
  text_projection : tensor T;
  token_embedding : tensor Z -> result (tensor T)
}.

Section Defs.

Context {T : Type} {S : Scalar T}.

(** [TextEncoder.__init__] *)
Definition init (clip_model : ClipModel.t T) : t T :=
  mk (ClipModel.transformer clip_model)
     (ClipModel.positional_embedding clip_model)
     (ClipModel.ln_final clip_model)
     (ClipModel.text_projection clip_model)
     (ClipModel.token_embedding clip_model).

(** [TextEncoder.forward] *)
Definition forward (self : t T) (x : tensor T) : result (tensor T) :=
  x <- broadcast2 sadd x (positional_embedding self) ;;
  x <- permute102 szero x ;;
  x <- transformer self x ;;
  x <- permute102 szero x ;;
  x <- ln_final self x ;;
  n <- shape_at x 0 ;;
  eot <- argmax_last szero sltb x ;;
  pooled <- index01 x (arange n) eot ;;
  matmul pooled (text_projection self).

(** [TextEncoder.encode_text] *)
Definition encode_text (self : t T) (texts : list (tensor Z))
  : result (list (tensor T)) :=
  mapM (fun text =>
          x <- token_embedding self text ;;
          x <- broadcast2 sadd x (positional_embedding self) ;;
          x <- permute102 szero x ;;
          x <- transformer self x ;;
          x <- permute102 szero x ;;
          x <- ln_final self x ;;
          n <- shape_at x 0 ;;
          eot <- argmax_last 0%Z Z.ltb text ;;
          pooled <- index01 x (arange n) eot ;;
          matmul pooled (text_projection self))
       texts.

End Defs.

End TextEncoder.

(** The text encoder as the classifier holds it: bare, or wrapped in
    [nn.DataParallel] over [devices] devices. *)
Inductive encoder_ref (T : Type) : Type :=
| Bare (module : TextEncoder.t T)
| DataParallel (module : TextEncoder.t T) (devices : nat).

Section EncoderRef.

Context {T : Type} {S : Scalar T}.

(** The attribute [.module], which only the wrapper has. *)
Definition module_of (e : encoder_ref T) : result (TextEncoder.t T) :=
  match e with
  | Bare _ => Raise (AttributeError "'TextEncoder' object has no attribute 'module'")
  | DataParallel m _ => Ok m
  end.

(** Calling the encoder.  The wrapper scatters the batch over its devices,
    runs the module on each chunk and concatenates the results. *)
Definition call_encoder (e : encoder_ref T) (x : tensor T) : result (tensor T) :=
  match e with
  | Bare m => TextEncoder.forward m x
  | DataParallel m devices =>
      chunks <- chunk0 devices x ;;
      match chunks with
      | [c] => TextEncoder.forward m c
      | _ =>
          outs <- mapM (TextEncoder.forward m) chunks ;;
          cat0 outs
      end
  end.

End EncoderRef.

(** ** class CLIP *)

Module CLIP.

Record t (T : Type) : Type := mk {
  n_class : nat;
  args : Args;
  text_encoder : encoder_ref T;
  entity_keys : list (tensor T);
  name_embeddings : list (tensor T);
  entity_prompts : tensor T;
  prompt_learner : PromptLearner.t T;
  image_encoder : tensor T -> result (tensor T);
  logit_scale : T
}.

Section Defs.

Context {T : Type} {S : Scalar T}.

(** The module-level [_tokenizer] behind [tokenize]. *)
Variable tokenizer : Tokenizer.

(** [torch.cuda.device_count()] *)
Variable device_count : nat.

(** The library routine behind [Tensor.topk] on one row: the positions of
    the [k] largest entries.  PyTorch documents that they are returned in
    descending order of value; it does not say which of several equal
    entries comes first. *)
Variable topk_row : list T -> nat -> list nat.

(** The samples [nn.init.normal_] draws, in order. *)
Variable normal_ : nat -> T.

(** [x.cuda()] *)
Definition cuda {A : Type} (x : tensor A) : result (tensor A) :=
  if device_count =? 0 then Raise (RuntimeError "No CUDA GPUs are available")
  else Ok x.

(** [[tokenize(p).cuda() for p in phrases]] *)
Definition tokenize_each (phrases : list string) : result (list (tensor Z)) :=
  mapM (fun p =>
          tokens <- tokenize tokenizer (OneText p) 77 false ;;
          cuda tokens)
       phrases.

(** [CLIP.__init__] *)
Definition init (args : Args) (class_names : list string)
           (clip_model : ClipModel.t T) (entities : list string)
           (text_prompt : Z) (n_ctx : Z) : result (t T) :=
  let n_class := length class_names in
  let text_encoder := Bare (TextEncoder.init clip_model) in
  let text_encoder :=
    if 1 <? device_count
    then DataParallel (TextEncoder.init clip_model) device_count
    else text_encoder in
  tokenized_keys <- tokenize_each entities ;;
  module <- module_of text_encoder ;;
  entity_embeddings <- TextEncoder.encode_text module tokenized_keys ;;
  entity_embeddings <- mapM normalize entity_embeddings ;;
  tokenize_names <- tokenize_each class_names ;;
  module <- module_of text_encoder ;;
  name_embeddings <- TextEncoder.encode_text module tokenize_names ;;
  name_embeddings <- mapM normalize name_embeddings ;;
  ctx_dim <- match ClipModel.ln_final_weight_shape clip_model with
             | [] => Raise (IndexError "tuple index out of range")
             | d :: _ => Ok d
             end ;;
  let prompt_shape := [length entities; 12; ctx_dim] in
  entity_prompt <- cuda (mkTensor prompt_shape (map normal_ (seq 0 (numel prompt_shape)))) ;;
  prompt_learner <- PromptLearner.init args class_names clip_model entity_prompt n_ctx 2 ;;
  Ok (mk n_class args text_encoder entity_embeddings name_embeddings
         entity_prompt prompt_learner
         (ClipModel.visual clip_model) (ClipModel.logit_scale clip_model)).

(** [Tensor.topk(k=k, dim=1, largest=True)] on a matrix; only the indices
    are kept by [forward]. *)
Definition topk_dim1 (x : tensor T) (k : Z) : result (tensor nat) :=
  match shape x with
  | [b; n] =>
      if (k <? 0)%Z || (Z.of_nat n <? k)%Z then
        Raise (RuntimeError "selected index k out of range")
      else
        Ok (mkTensor [b; Z.to_nat k]
              (flat_map (fun r => topk_row (row_at szero x [r]) (Z.to_nat k)) (seq 0 b)))
  | _ => Raise (RuntimeError "topk: input rank outside the modelled one")
  end.

(** [forward], step 1: the image is encoded and its embedding normalized. *)
Definition forward_image_features (self : t T) (image : tensor T)
  : result (tensor T) :=
  image_features <- image_encoder self image ;;
  normalize image_features.

(** [forward], step 3.1: the similarity of each image to each entity key. *)
Definition forward_probability (self : t T) (image_features : tensor T)
  : result (tensor T) :=
  keys <- cat0 (entity_keys self) ;;
  keys_t <- transpose szero keys ;;
  matmul image_features keys_t.

(** [forward], step 3.2: the indices of the top-k keys of each image. *)
Definition forward_select (self : t T) (image_features : tensor T)
  : result (tensor nat) :=
  probability <- forward_probability self image_features ;;
  n <- shape_at probability 1 ;;
  topk_dim1 probability (Z.min (text_prompt (args self)) (Z.of_nat n)).

(** [forward], steps 3.4 and 3.5: the prompts are assembled, encoded and
    normalized. *)
Definition forward_text_features (self : t T) (indexs : tensor nat)
  : result (tensor T) :=
  final_text_input <- PromptLearner.forward (prompt_learner self) indexs ;;
  text_features <- call_encoder (text_encoder self) final_text_input ;;
  normalize text_features.

(** [forward], the reshape of the text features and the logits. *)
Definition forward_logits (self : t T) (image_features text_features : tensor T)
  : result (tensor T * tensor T) :=
  batch <- shape_at image_features 0 ;;
  text_features <- view text_features [Z.of_nat batch; Z.of_nat (n_class self); (-1)%Z] ;;
  image_features <- unsqueeze1 image_features ;;
  let logit_scale := sexp (logit_scale self) in
  product <- broadcast2 smul image_features text_features ;;
  let logits := scale logit_scale (sum_last product) in
  Ok (logits, image_features).

(** [CLIP.forward] *)
Definition forward (self : t T) (image : tensor T)
  : result (tensor T * tensor T * tensor T) :=
  image_features <- forward_image_features self image ;;
  indexs <- forward_select self image_features ;;
  chosen_keys <- list_getitem (entity_keys self) indexs ;;
  text_features <- forward_text_features self indexs ;;
  out <- forward_logits self image_features text_features ;;
  Ok (fst out, snd out, chosen_keys).

End Defs.

End CLIP.

(** ** Real-valued scalars *)

Definition Rltb (x y : R) : bool := if Rlt_dec x y then true else false.

#[export] Instance R_scalar : Scalar R := {|
  szero := 0%R;
  sadd := Rplus;
  smul := Rmult;
  sdiv := Rdiv;
  ssqrt := sqrt;
  sexp := exp;
  sltb := Rltb
|}.

(** ** A selection routine for the runs *)

Section TopK.

Context {T : Type} {S : Scalar T}.

Definition score (row : list T) (i : nat) : T := nth i row szero.

Fixpoint insert_by (before : nat -> nat -> bool) (i : nat) (l : list nat) : list nat :=
  match l with
  | [] => [i]
  | j :: rest => if before i j then i :: l else j :: insert_by before i rest
  end.

Definition sort_by (before : nat -> nat -> bool) (l : list nat) : list nat :=
  fold_right (insert_by before) [] l.

(** Larger entries first; among equal entries [tie] says whether the first
    position may precede the second. *)
Definition before_by (row : list T) (tie : nat -> nat -> bool) (i j : nat) : bool :=
  sltb (score row j) (score row i)
  || (negb (sltb (score row i) (score row j)) && tie i j).

(** Among equal entries the lower position first. *)
Definition before_low (row : list T) : nat -> nat -> bool :=
  before_by row (fun i j => i <=? j).

(** The positions of the [k] largest entries of a row.  It takes the place
    of the library routine in the runs; what the library does with equal
    entries is not known from the code, and no statement below rests on the
    order this routine gives them. *)
Definition topk_low (row : list T) (k : nat) : list nat :=
  firstn k (sort_by (before_low row) (seq 0 (length row))).

End TopK.

(** ** A small tokenizer and a small pretrained model *)

(** One token per character, with the identifiers CLIP gives its two markers. *)
Definition char_encode (s : string) : list Z :=
  map (fun c => Z.of_nat (nat_of_ascii c)) (list_ascii_of_string s).

Definition sot : Z := 49406.
Definition eot : Z := 49407.

Definition char_tokenizer : Tokenizer := mkTokenizer char_encode sot eot.

(** As [char_encode], except that the text of the end marker is turned into
    the end token, the way CLIP's tokenizer treats its markers in its input. *)
Definition marker_encode (s : string) : list Z :=
  if String.eqb s "<|endoftext|>" then [eot] else char_encode s.

Definition marker_tokenizer : Tokenizer := mkTokenizer marker_encode sot eot.

Section Small.

Context {T : Type} {S : Scalar T}.

(** A pretrained model of width one and embedding dimension two: an
    embedding table with the row [e] throughout, one positional row [p], no
    transformer block, a final layer norm of width one (whose output is its
    bias [c]), the projection [[w1; w2]], and an image encoder that sends
    every image to [[a; b]]. *)
Definition small_model (e p c w1 w2 a b s : T) : ClipModel.t T :=
  ClipModel.mk
    (fun image => Ok (mkTensor [hd 0 (shape image); 2]
                               (concat (repeat [a; b] (hd 0 (shape image))))))
    (fun x => Ok x)
    (fun x => Ok (mkTensor (shape x) (map (fun _ => c) (data x))))
    [1]
    (mkTensor [1; 1] [p])
    (mkTensor [1; 2] [w1; w2])
    (fun text => Ok (mkTensor (shape text ++ [1]) (map (fun _ => e) (data text))))
    s.

(** A batch of [n] images of one pixel each. *)
Definition small_images (n : nat) (v : T) : tensor T :=
  mkTensor [n; 3; 1; 1] (repeat v (n * 3)).

End Small.

(** The class names ["a"], ["b"], ... *)
Definition class_names_of (n : nat) : list string :=
  map (fun i => String (ascii_of_nat (97 + i)) EmptyString) (seq 0 n).

(** The classifier built over [small_model] for the given entity phrases and
    [args.text_prompt = k]. *)
Definition small_clip_with {T : Type} {S : Scalar T} (e p c w1 w2 a b s : T)
           (normal_ : nat -> T) (devices : nat) (entities : list string) (k : Z)
           (n_classes : nat) (n_ctx : Z)
  : result (CLIP.t T) :=
  CLIP.init char_tokenizer devices normal_ (mkArgs k) (class_names_of n_classes)
            (small_model e p c w1 w2 a b s) entities k n_ctx.

(** One entity phrase and [args.text_prompt = 1]. *)
Definition small_clip {T : Type} {S : Scalar T} (e p c w1 w2 a b s : T)
           (normal_ : nat -> T) (devices n_classes : nat) (n_ctx : Z)
  : result (CLIP.t T) :=
  small_clip_with e p c w1 w2 a b s normal_ devices ["red"%string] 1 n_classes n_ctx.

(** The same over the reals: every token embeds to 1, the layer norm returns
    1, the projection is [[3; 4]] and every image is encoded as [[3; 4]]. *)
Definition small_clip_R (devices n_classes : nat) (n_ctx : Z) : result (CLIP.t R) :=
  small_clip 1%R 0%R 1%R 3%R 4%R 3%R 4%R 0%R INR devices n_classes n_ctx.

(** An entity phrase of eighty characters. *)
Definition long_phrase : string :=
  string_of_list_ascii (repeat "a"%char 80).

(** The number of [D]-dimensional embeddings per image in text features of
    shape [[batch; ...; D]]. *)
Definition embeddings_per_image {A : Type} (t : tensor A) : nat :=
  numel (removelast (tl (shape t))).

(** [t] is [raw / raw.norm(dim=-1, keepdim=True)], and every row of [t] along
    the last dimension has L2 norm one when the norm of that row of [raw] is
    not zero. *)
Definition normalized_from (raw t : tensor R) : Prop :=
  normalize raw = Ok t /\
  forall (sh : list nat) (D : nat) (idx : list nat),
    shape raw = sh ++ [D] ->
    valid_index sh idx ->
    norm2 (row_at 0%R raw idx) <> 0%R ->
    norm2 (row_at 0%R t idx) = 1%R.

(** The [k]-th embedding of dimension [D] held by [t], the embeddings being
    counted in row-major order. *)
Definition embedding {T : Type} {S : Scalar T} (t : tensor T) (D k : nat) : list T :=
  map (fun d => nth (k * D + d) (data t) szero) (seq 0 D).

(** [v] divided by its L2 norm. *)
Definition l2_normalized {T : Type} {S : Scalar T} (v : list T) : list T :=
  map (fun x => sdiv x (norm2 v)) v.

(** The sum over the positions of [u] of the products of the entries of [u]
    and [v]; for two vectors of L2 norm one, their cosine similarity. *)
Definition dot {T : Type} {S : Scalar T} (u v : list T) : T :=
  sum_list (map (fun d => smul (nth d u szero) (nth d v szero)) (seq 0 (length u))).

(** ** Proof steps *)

(** From [x <- c ;; k = Ok r]: [c] returned a value. *)
Ltac bind_inv H :=
  match type of H with
  | bind ?c _ = Ok _ =>
      let E := fresh "E" in
      destruct c eqn:E; cbn [bind] in H; [|discriminate H]
  end.

Ltac bind_inv_all :=
  repeat match goal with
         | H : bind ?c _ = Ok _ |- _ =>
             let E := fresh "E" in
             destruct c eqn:E; cbn [bind] in H; [|discriminate H]
         end.

(** ** Further notions used in the statements *)

(** [tokenize] can write a row for [text]: the wrapped tokens fit, or they
    are truncated and at least one position is left for the end token. *)
Definition accepted (tokenizer : Tokenizer) (context_length : Z) (truncate : bool)
           (text : string) : bool :=
  negb (Z.of_nat (length (wrapped tokenizer text)) >? context_length)%Z
  || (truncate && (0 <? context_length)%Z).

(** The text tower of [m] has the shapes the code comments give: a batch of
    token rows of length [L] embeds to [[batch; L; D]], the positional
    embedding broadcasts against that, the transformer (on [[L; batch; D]])
    and the final layer norm keep the shape, and the projection maps width
    [D] to [M]. *)
Definition text_tower_shapes {T : Type} (m : TextEncoder.t T) (L D M : nat) : Prop :=
  (forall (N : nat) (text : tensor Z), shape text = [N; L] ->
     exists x, TextEncoder.token_embedding m text = Ok x /\ shape x = [N; L; D]) /\
  (forall N : nat,
     broadcast_shapes [N; L; D] (shape (TextEncoder.positional_embedding m))
     = Some [N; L; D]) /\
  (forall (N : nat) (x : tensor T), shape x = [L; N; D] ->
     exists y, TextEncoder.transformer m x = Ok y /\ shape y = [L; N; D]) /\
  (forall (N : nat) (x : tensor T), shape x = [N; L; D] ->
     exists y, TextEncoder.ln_final m x = Ok y /\ shape y = [N; L; D]) /\
  shape (TextEncoder.text_projection m) = [D; M].

(** ** The version check at import *)

(** [s.split(sep)] for a separator of one character. *)
Fixpoint split (sep : ascii) (s : string) : list string :=
  match s with
  | EmptyString => [EmptyString]
  | String c rest =>
      if Ascii.eqb c sep then EmptyString :: split sep rest
      else match split sep rest with
           | [] => [String c EmptyString]
           | w :: ws => String c w :: ws
           end
  end.

(** [a < b] on lists of strings: the first pair of different elements
    decides, and a proper prefix is smaller. *)
Fixpoint list_ltb (a b : list string) : bool :=
  match a, b with
  | _, [] => false
  | [], _ :: _ => true
  | x :: a', y :: b' => if String.eqb x y then list_ltb a' b' else String.ltb x y
  end.

(** The test [torch.__version__.split(".") < ["1", "7", "1"]]: when it holds,
    importing the module warns that PyTorch 1.7.1 or higher is recommended. *)
Definition version_warns (version : string) : bool :=
  list_ltb (split "." version) ["1"; "7"; "1"]%string.

(** [sep] does not occur in [s]. *)
Fixpoint no_sep (sep : ascii) (s : string) : bool :=
  match s with
  | EmptyString => true
  | String c rest => negb (Ascii.eqb c sep) && no_sep sep rest
  end.

(** ** class TextEncoderZS *)

(** [torch.stack(ts)]: the tensors, all of one shape, along a new first
    dimension. *)
Definition stack {A : Type} (ts : list (tensor A)) : result (tensor A) :=
  match ts with
  | [] => Raise (RuntimeError "stack expects a non-empty TensorList")
  | t0 :: _ =>
      if forallb (fun t => if list_eq_dec Nat.eq_dec (shape t) (shape t0)
                           then true else false) ts
      then Ok (mkTensor (length ts :: shape t0) (concat (map (@data A) ts)))
      else Raise (RuntimeError "stack expects each tensor to be equal size")
  end.

(** [nn.Sequential]: the layers applied in turn. *)
Fixpoint sequential {T : Type} (layers : list (tensor T -> result (tensor T)))
         (x : tensor T) : result (tensor T) :=
  match layers with
  | [] => Ok x
  | layer :: rest => x <- layer x ;; sequential rest x
  end.

Module TextEncoderZS.

(** [transformer] holds the residual blocks [clip_model.transformer.resblocks]
    one by one. *)
Record t (T : Type) : Type := mk {
  transformer : list (tensor T -> result (tensor T));
  positional_embedding : tensor T;
  ln_final : tensor T -> result (tensor T);
  text_projection : tensor T;
  token_embedding : tensor Z -> result (tensor T)
}.

Section Defs.

Context {T : Type} {S : Scalar T}.

(** [TextEncoderZS.__init__]; [resblocks] is [clip_model.transformer.resblocks]
    and [cfg] is not read. *)
Definition init {C : Type} (cfg : C) (clip_model : ClipModel.t T)
           (resblocks : list (tensor T -> result (tensor T))) : t T :=
  mk resblocks
     (ClipModel.positional_embedding clip_model)
     (ClipModel.ln_final clip_model)
     (ClipModel.text_projection clip_model)
     (ClipModel.token_embedding clip_model).

(** The loop over the layers: each layer is applied and the row at the end
    token of every sequence is saved. *)
Fixpoint layers_loop (text : tensor Z) (layers : list (tensor T -> result (tensor T)))
         (x : tensor T) (feats : list (tensor T))
  : result (tensor T * list (tensor T)) :=
  match layers with
  | [] => Ok (x, feats)
  | layer :: rest =>
      x <- layer x ;;
      eot <- argmax_last 0%Z Z.ltb text ;;
      n <- shape_at x 1 ;;
      feat <- index01 x eot (arange n) ;;
      layers_loop text rest x (feats ++ [feat])
  end.

(** [TextEncoderZS.forward] *)
Definition forward (self : t T) (text : tensor Z) : result (tensor T * tensor T) :=
  x <- token_embedding self text ;;
  x <- broadcast2 sadd x (positional_embedding self) ;;
  x <- permute102 szero x ;;
  r <- layers_loop text (transformer self) x [] ;;
  let x := fst r in
  let feats := snd r in
  x <- permute102 szero x ;;
  x <- ln_final self x ;;
  n <- shape_at x 0 ;;
  eot <- argmax_last 0%Z Z.ltb text ;;
  pooled <- index01 x (arange n) eot ;;
  x <- matmul pooled (text_projection self) ;;
  txt_feats <- stack feats ;;
  Ok (x, txt_feats).

End Defs.

End TextEncoderZS.

(** The text encoder with the same parts as [zs], its transformer applying
    the residual blocks in turn. *)
Definition encoder_of_zs {T : Type} (zs : TextEncoderZS.t T) : TextEncoder.t T :=
  TextEncoder.mk (sequential (TextEncoderZS.transformer zs))
                 (TextEncoderZS.positional_embedding zs)
                 (TextEncoderZS.ln_final zs)
                 (TextEncoderZS.text_projection zs)
                 (TextEncoderZS.token_embedding zs).

(** The shapes of the text tower, block by block. *)
Definition zs_tower_shapes {T : Type} (zs : TextEncoderZS.t T) (L D M : nat) : Prop :=
  (forall (N : nat) (text : tensor Z), shape text = [N; L] ->
     exists x, TextEncoderZS.token_embedding zs text = Ok x /\ shape x = [N; L; D]) /\
  (forall N : nat,
     broadcast_shapes [N; L; D] (shape (TextEncoderZS.positional_embedding zs))
     = Some [N; L; D]) /\
  Forall (fun layer : tensor T -> result (tensor T) =>
            forall (N : nat) (x : tensor T), shape x = [L; N; D] ->
              exists y, layer x = Ok y /\ shape y = [L; N; D])
         (TextEncoderZS.transformer zs) /\
  (forall (N : nat) (x : tensor T), shape x = [N; L; D] ->
     exists y, TextEncoderZS.ln_final zs x = Ok y /\ shape y = [N; L; D]) /\
  shape (TextEncoderZS.text_projection zs) = [D; M].

(** The zero-shot encoder over [small_model] with [n] blocks, each the
    identity. *)
Definition small_zs {T : Type} (e p c w1 w2 a b s : T) (n : nat) : TextEncoderZS.t T :=
  TextEncoderZS.init tt (small_model e p c w1 w2 a b s)
                     (repeat (fun x => Ok x) n).

(** [small_model] with a positional embedding of [rows] rows, as a pretrained
    model of context length [rows] has it. *)
Definition small_model_context {T : Type} (rows : nat) (e p c w1 w2 a b s : T)
  : ClipModel.t T :=
  ClipModel.mk
    (ClipModel.visual (small_model e p c w1 w2 a b s))
    (ClipModel.transformer (small_model e p c w1 w2 a b s))
    (ClipModel.ln_final (small_model e p c w1 w2 a b s))
    [1]
    (mkTensor [rows; 1] (repeat p rows))
    (ClipModel.text_projection (small_model e p c w1 w2 a b s))
    (ClipModel.token_embedding (small_model e p c w1 w2 a b s))
    s.

(** ** Downloading a model file *)

Module Download.

(** The exceptions of the download path: those of [exn], and the errors of
    the operating system and of [int]. *)
Inductive error : Type :=
| Builtin (e : exn)
| OSError (msg : string)
| ValueError (msg : string).

Inductive outcome (A : Type) : Type :=
| Return (a : A)
| Throw (e : error).

Arguments Return {A} a.
Arguments Throw {A} e.

(** A computation over the state [W] of the file system and the network. *)
Definition io (W A : Type) : Type := W -> outcome A * W.

Definition bytes : Type := list Byte.byte.

(** What [urllib.request.urlopen] hands back: the [Content-Length] header if
    the server sent one, the buffers the successive calls of [source.read]
    return before the end of the stream, and the exception that ends the
    stream instead of an empty buffer, if any.  A buffer of length zero in
    [buffers] ends the loop like the end of the stream does. *)
Record response : Type := mkResponse {
  content_length : option string;
  buffers : list bytes;
  failure : option error
}.

(** The calls [_download] makes outside the module. *)
Record Os (W : Type) : Type := mkOs {
  makedirs : string -> io W unit;
  basename : string -> string;
  join : string -> string -> string;
  expanduser : string -> string;
  path_exists : string -> W -> bool;
  isfile : string -> W -> bool;
  read_binary : string -> W -> outcome bytes;
  sha256_hexdigest : bytes -> string;
  warn : string -> io W unit;
  urlopen : string -> io W response;
  close_source : io W unit;
  open_write : string -> io W unit;
  write_buffer : string -> bytes -> io W unit;
  close_write : string -> io W unit;
  int_of_str : string -> outcome Z
}.

Section Defs.

Context {W : Type}.

Definition ret {A : Type} (a : A) : io W A := fun w => (Return a, w).

Definition throw {A : Type} (e : error) : io W A := fun w => (Throw e, w).

Definition bind_io {A B : Type} (c : io W A) (k : A -> io W B) : io W B :=
  fun w =>
    match c w with
    | (Return a, w') => k a w'
    | (Throw e, w') => (Throw e, w')
    end.

Notation "x <~ c ;; k" := (bind_io c (fun x => k))
  (at level 61, c at next level, right associativity).

(** A read of the state that leaves it as it is. *)
Definition observe {A : Type} (f : W -> outcome A) : io W A := fun w => (f w, w).

Definition lift {A : Type} (r : result A) : io W A :=
  match r with
  | Ok a => ret a
  | Raise e => throw (Builtin e)
  end.

(** Leaving a [with] block: [cleanup] runs whether [body] raised or not, and
    an exception of [cleanup] replaces that of [body]. *)
Definition finally {A : Type} (body : io W A) (cleanup : io W unit) : io W A :=
  fun w =>
    match body w with
    | (r, w') =>
        match cleanup w' with
        | (Return _, w'') => (r, w'')
        | (Throw e, w'') => (Throw e, w'')
        end
    end.

(** [l[-2]] *)
Definition getitem_neg2 (l : list string) : result string :=
  match rev l with
  | _ :: x :: _ => Ok x
  | _ => Raise (IndexError "list index out of range")
  end.

Variable os : Os W.

(** [int(header)] for the value of [source.info().get("content-Length")]:
    [None] is no argument for [int]; on a string, [int] is the library's. *)
Definition int (header : option string) : io W Z :=
  match header with
  | None =>
      throw (Builtin (TypeError "int() argument must be a string, a bytes-like object or a real number, not 'NoneType'"))
  | Some s => observe (fun _ => int_of_str os s)
  end.

(** The loop [while True: buffer = source.read(8192) ...]; the progress bar
    it updates is not represented. *)
Fixpoint copy_loop (download_target : string) (reads : list bytes)
         (failure : option error) : io W unit :=
  match reads with
  | [] =>
      match failure with
      | Some e => throw e
      | None => ret tt
      end
  | buffer :: rest =>
      match buffer with
      | [] => ret tt
      | _ :: _ =>
          _ <~ write_buffer os download_target buffer ;;
          copy_loop download_target rest failure
      end
  end.

(** [hashlib.sha256(open(path, "rb").read()).hexdigest()] *)
Definition file_digest (path : string) : io W string :=
  content <~ observe (read_binary os path) ;;
  ret (sha256_hexdigest os content).

(** [_download] from the [with] statement on. *)
Definition fetch (url download_target expected_sha256 : string) : io W string :=
  _ <~ (source <~ urlopen os url ;;
        finally
          (_ <~ open_write os download_target ;;
           finally
             (total <~ int (content_length source) ;;
              copy_loop download_target (buffers source) (failure source))
             (close_write os download_target))
          (close_source os)) ;;
  digest <~ file_digest download_target ;;
  if negb (String.eqb digest expected_sha256) then
    throw (Builtin (RuntimeError "Model has been downloaded but the SHA256 checksum does not not match"))
  else ret download_target.

(** [_download] *)
Definition _download (url root : string) : io W string :=
  _ <~ makedirs os root ;;
  let filename := basename os url in
  expected_sha256 <~ lift (getitem_neg2 (split "/" url)) ;;
  let download_target := join os root filename in
  blocked <~ observe (fun w => Return (path_exists os download_target w
                                       && negb (isfile os download_target w))) ;;
  if blocked then
    throw (Builtin (RuntimeError (download_target ++ " exists and is not a regular file")%string))
  else
    is_file <~ observe (fun w => Return (isfile os download_target w)) ;;
    if is_file then
      digest <~ file_digest download_target ;;
      if String.eqb digest expected_sha256 then ret download_target
      else
        _ <~ warn os (download_target ++ " exists, but the SHA256 checksum does not match; re-downloading the file")%string ;;
        fetch url download_target expected_sha256
    else fetch url download_target expected_sha256.

End Defs.

(** A file system in memory, for the runs.  The state lists the paths
    that exist, without a final slash: a regular file with its content, a
    directory with [None].  Paths are joined as [posixpath.join] joins two
    of them, a path with a final slash names a directory only, and repeated
    slashes and the components [.] and [..] are not resolved.  The digest of
    a content is its length in decimal, and every URL answers with
    [served]. *)
Definition entry_at (path : string) (f : string * option bytes) : bool :=
  String.eqb (fst f) path.

Definition starts_with_slash (path : string) : bool :=
  match path with
  | String c _ => Ascii.eqb c "/"
  | EmptyString => false
  end.

Fixpoint ends_with_slash (path : string) : bool :=
  match path with
  | EmptyString => false
  | String c EmptyString => Ascii.eqb c "/"
  | String _ rest => ends_with_slash rest
  end.

(** [path] without its final slashes. *)
Fixpoint strip_slashes (path : string) : string :=
  match path with
  | EmptyString => EmptyString
  | String c rest =>
      match strip_slashes rest with
      | EmptyString => if Ascii.eqb c "/" then EmptyString else String c EmptyString
      | kept => String c kept
      end
  end.

(** [posixpath.join(a, b)] *)
Definition posix_join (a b : string) : string :=
  if starts_with_slash b then b
  else if String.eqb a EmptyString || ends_with_slash a then (a ++ b)%string
  else (a ++ "/" ++ b)%string.

(** What is found at [path]: nothing, a directory ([Some None]) or a regular
    file with its content. *)
Definition stat (path : string) (w : list (string * option bytes))
  : option (option bytes) :=
  match find (entry_at (strip_slashes path)) w with
  | Some (_, Some content) => if ends_with_slash path then None else Some (Some content)
  | Some (_, None) => Some None
  | None => None
  end.

Definition mem_os (served : response) : Os (list (string * option bytes)) :=
  mkOs
    (fun root w =>
       match find (entry_at (strip_slashes root)) w with
       | Some (_, Some _) => (Throw (OSError "File exists"), w)
       | Some (_, None) => (Return tt, w)
       | None => (Return tt, (strip_slashes root, None) :: w)
       end)
    (fun url => last (split "/" url) EmptyString)
    posix_join
    (fun path => path)
    (fun path w => match stat path w with Some _ => true | None => false end)
    (fun path w => match stat path w with Some (Some _) => true | _ => false end)
    (fun path w =>
       match stat path w with
       | Some (Some content) => Return content
       | Some None => Throw (OSError "Is a directory")
       | None => Throw (OSError "No such file or directory")
       end)
    (fun content => string_of_Z (Z.of_nat (length content)))
    (fun _ w => (Return tt, w))
    (fun _ w => (Return served, w))
    (fun w => (Return tt, w))
    (fun path w =>
       if ends_with_slash path then (Throw (OSError "Is a directory"), w)
       else
         match find (entry_at path) w with
         | Some (_, None) => (Throw (OSError "Is a directory"), w)
         | _ => (Return tt, (path, Some []) :: filter (fun f => negb (entry_at path f)) w)
         end)
    (fun path buffer w =>
       (Return tt,
        map (fun f => if entry_at path f
                      then (fst f, option_map (fun content => content ++ buffer) (snd f))
                      else f) w))
    (fun _ w => (Return tt, w))
    (fun s =>
       match NilZero.int_of_string s with
       | Some n => Return (Z.of_int n)
       | None =>
           Throw (ValueError ("invalid literal for int() with base 10: '" ++ s ++ "'")%string)
       end).

End Download.

(** ** The choice of the model file *)

Module Load.

Import Download.

Definition _MODELS : list (string * string) :=
  [
     ("RN50"%string,
      "https://openaipublic.azureedge.net/clip/models/afeb0e10f9e5a86da6080e35cf09123aca3b358a0c3e3b6c78a7b63bc04b6762/RN50.pt"%string);
     ("RN101"%string,
      "https://openaipublic.azureedge.net/clip/models/8fa8567bab74a42d41c5915025a8e4538c3bdbe8804a470a72f30b0d94fab599/RN101.pt"%string);
     ("RN50x4"%string,
      "https://openaipublic.azureedge.net/clip/models/7e526bd135e493cef0776de27d5f42653e6b4c8bf9e0f653bb11773263205fdd/RN50x4.pt"%string);
     ("RN50x16"%string,
      "https://openaipublic.azureedge.net/clip/models/52378b407f34354e150460fe41077663dd5b39c54cd0bfd2b27167a4a06ec9aa/RN50x16.pt"%string);
     ("RN50x64"%string,
      "https://openaipublic.azureedge.net/clip/models/be1cfb55d75a9666199fb2206c106743da0f6468c9d327f3e0d0a543a9919d9c/RN50x64.pt"%string);
     ("ViT-B/32"%string,
      "https://openaipublic.azureedge.net/clip/models/40d365715913c9da98579312b702a82c18be219cc2a73407c4526f58eba950af/ViT-B-32.pt"%string);
     ("ViT-B/16"%string,
      "https://openaipublic.azureedge.net/clip/models/5806e77cd80f8b59890b7e101eabd078d9fb84e6937f9e85e4ecb61988df416f/ViT-B-16.pt"%string);
     ("ViT-L/14"%string,
      "https://openaipublic.azureedge.net/clip/models/b8cca3fd41ae0c99ba7e8951adf17d267cdb84cd88be6f7c2e0eca1737a03836/ViT-L-14.pt"%string);
     ("ViT-L/14@336px"%string,
      "https://openaipublic.azureedge.net/clip/models/3035c92b350959924f9f00213499208652fc7ea050643e8b385c2dac08641f02/ViT-L-14-336px.pt"%string)
  ].

(** [available_models] *)
Definition available_models : list string := map fst _MODELS.

(** [_MODELS[name]], with [None] when [name] is not a key. *)
Definition lookup (name : string) (table : list (string * string)) : option string :=
  option_map snd (find (fun e => String.eqb (fst e) name) table).

(** The text of a list of names that hold no quote and no backslash, as
    an f-string prints it. *)
Definition repr_names (names : list string) : string :=
  ("[" ++ String.concat ", " (map (fun n => "'" ++ n ++ "'") names) ++ "]")%string.

Section Defs.

Context {W : Type}.
Variable os : Os W.

(** [load_and_build_clip], the choice of [model_path]: a listed model is
    downloaded, any other name has to be a file. *)
Definition model_path (name : string) (download_root : option string) : io W string :=
  match lookup name _MODELS with
  | Some url =>
      let root := match download_root with
                  | Some r => if String.eqb r EmptyString then expanduser os "~/.cache/clip" else r
                  | None => expanduser os "~/.cache/clip"
                  end in
      _download os url root
  | None =>
      bind_io (observe (fun w => Return (isfile os name w)))
        (fun is_file =>
           if is_file then ret name
           else throw (Builtin (RuntimeError
                  ("Model " ++ name ++ " not found; available models = "
                   ++ repr_names available_models)%string)))
  end.

End Defs.

End Load.

(** A server that answers with the three bytes ["abc"] in one buffer, and a
    URL whose digest component is the digest [mem_os] gives them. *)
Definition served_abc : Download.response :=
  Download.mkResponse (Some "3"%string) [[Byte.x61; Byte.x62; Byte.x63]] None.

Definition url_abc : string := "https://host/3/file.pt".

(** * Verification *)

(** ** Lists *)

Lemma nth_middle_app (A : Type) (l1 l2 : list A) (x d : A) :
  nth (length l1) (l1 ++ x :: l2) d = x.
Proof. induction l1; cbn; auto. Qed.

Lemma set_nth_middle (A : Type) (l1 l2 : list A) (x y : A) :
  set_nth (length l1) y (l1 ++ x :: l2) = l1 ++ y :: l2.
Proof. induction l1; cbn; [reflexivity | now rewrite IHl1]. Qed.

Lemma skipn_repeat (A : Type) (x : A) n k : skipn k (repeat x n) = repeat x (n - k).
Proof. revert k; induction n; intros [|k]; cbn; auto. Qed.

Lemma removelast_length (A : Type) (l : list A) : length (removelast l) = length l - 1.
Proof. induction l as [|a [|b l] IH]; cbn in *; lia. Qed.

Lemma nth_repeat_any (A : Type) (x : A) n j : nth j (repeat x n) x = x.
Proof. revert j; induction n; intros [|j]; cbn; auto. Qed.

Lemma count_occ_repeat_other (x y : Z) n :
  x <> y -> count_occ Z.eq_dec (repeat x n) y = 0.
Proof.
  intros Hxy. induction n; cbn; [reflexivity|].
  destruct (Z.eq_dec x y); [contradiction | assumption].
Qed.

(** A row of a matrix stored row by row. *)
Lemma concat_row (A : Type) (rows : list (list A)) (m i : nat) :
  Forall (fun r => length r = m) rows ->
  i < length rows ->
  firstn m (skipn (i * m) (concat rows)) = nth i rows [].
Proof.
  intros Hrows. revert i. induction Hrows as [|r rows Hr _ IH]; intros i Hi.
  - cbn in Hi. lia.
  - destruct i as [|i]; cbn [concat nth Nat.mul].
    + cbn [skipn]. rewrite firstn_app, Hr, Nat.sub_diag. cbn [firstn].
      rewrite app_nil_r. apply firstn_all2. lia.
    + rewrite skipn_app, Hr.
      rewrite (skipn_all2 r) by lia. cbn [app].
      replace (m + i * m - m) with (i * m) by lia.
      apply IH. cbn in Hi. lia.
Qed.

(** ** tokenize *)

Section TokenizeFacts.

Variable tokenizer : Tokenizer.

Lemma wrapped_length text :
  length (wrapped tokenizer text) = S (S (length (encode tokenizer text))).
Proof. unfold wrapped. cbn. rewrite length_app. cbn. lia. Qed.

Lemma padded_row_length cl text :
  (0 < cl)%Z -> length (padded_row tokenizer cl text) = Z.to_nat cl.
Proof.
  intros Hcl. unfold padded_row.
  pose proof (wrapped_length text) as Hw.
  destruct (Z.gtb_spec (Z.of_nat (length (wrapped tokenizer text))) cl) as [Hlong | Hfit].
  - rewrite length_app, removelast_length, length_firstn. cbn [length]. lia.
  - rewrite length_app, repeat_length. lia.
Qed.

(** One iteration of the loop body writes [padded_row] into a row of zeros. *)
Lemma loop_body_ok cl truncate text :
  (0 <= cl)%Z ->
  (truncate = true -> (0 < cl)%Z) ->
  (truncate = false -> ~ too_long tokenizer cl text) ->
  (tokens' <- fit_tokens tokenizer text (wrapped tokenizer text) cl truncate ;;
   assign_prefix (repeat 0%Z (Z.to_nat cl)) tokens')
  = Ok (padded_row tokenizer cl text).
Proof.
  intros Hcl Htr Hfit. unfold fit_tokens, padded_row, too_long in *.
  pose proof (wrapped_length text) as Hw.
  destruct (Z.gtb_spec (Z.of_nat (length (wrapped tokenizer text))) cl) as [Hlong | Hshort].
  - destruct truncate; [| exfalso; apply Hfit; [reflexivity | lia]].
    specialize (Htr eq_refl).
    unfold slice_to. destruct (Z.ltb_spec cl 0) as [|_]; [lia|].
    assert (Hn : length (firstn (Z.to_nat cl) (wrapped tokenizer text)) = Z.to_nat cl)
      by (rewrite length_firstn; lia).
    destruct (firstn (Z.to_nat cl) (wrapped tokenizer text)) as [|a l] eqn:Ef;
      [cbn in Hn; lia|].
    cbn [set_last bind]. unfold assign_prefix.
    rewrite length_app, removelast_length, repeat_length, Hn. cbn [length].
    replace (Z.to_nat cl - 1 + 1) with (Z.to_nat cl) by lia.
    rewrite Nat.leb_refl, skipn_repeat, Nat.sub_diag. cbn. now rewrite app_nil_r.
  - cbn [bind]. unfold assign_prefix. rewrite repeat_length.
    destruct (Nat.leb_spec (length (wrapped tokenizer text)) (Z.to_nat cl)); [|lia].
    now rewrite skipn_repeat.
Qed.

(** The loop, run over texts that are all accepted, fills one row per text
    and leaves the other rows as they were. *)
Lemma tokenize_loop_ok texts cl truncate :
  (0 <= cl)%Z ->
  (truncate = true -> (0 < cl)%Z) ->
  forall (suffix prefix tail : list string) (done rest : list (list Z)),
    texts = prefix ++ suffix ++ tail ->
    length done = length prefix ->
    (truncate = false -> Forall (fun text => ~ too_long tokenizer cl text) suffix) ->
    tokenize_loop tokenizer texts (map (wrapped tokenizer) suffix) (length done) cl truncate
                  (done ++ repeat (repeat 0%Z (Z.to_nat cl)) (length suffix) ++ rest)
    = Ok (done ++ map (padded_row tokenizer cl) suffix ++ rest).
Proof.
  intros Hcl Htr. induction suffix as [|text suffix IH];
    intros prefix tail done rest Ht Hlen Hfit.
  - reflexivity.
  - cbn [map tokenize_loop length repeat app] in *.
    rewrite Ht, Hlen, nth_middle_app, <- Hlen, nth_middle_app.
    pose proof (@loop_body_ok cl truncate text Hcl Htr) as Hbody.
    assert (Hf : truncate = false -> ~ too_long tokenizer cl text)
      by (intros E; specialize (Hfit E); now inversion Hfit).
    specialize (Hbody Hf).
    destruct (fit_tokens tokenizer text (wrapped tokenizer text) cl truncate) as [tokens'|e];
      cbn [bind] in *; [|discriminate].
    rewrite Hbody. cbn [bind]. rewrite set_nth_middle.
    specialize (IH (prefix ++ [text]) tail (done ++ [padded_row tokenizer cl text]) rest).
    rewrite !length_app in IH. cbn [length] in IH.
    rewrite Nat.add_1_r in IH. rewrite <- !app_assoc in IH. cbn [app] in IH.
    rewrite <- Ht. apply IH; [assumption | lia |].
    intros E. specialize (Hfit E). now inversion Hfit.
Qed.

Lemma tokenize_loop_app texts a b i cl truncate out :
  tokenize_loop tokenizer texts (a ++ b) i cl truncate out
  = (out' <- tokenize_loop tokenizer texts a i cl truncate out ;;
     tokenize_loop tokenizer texts b (i + length a) cl truncate out').
Proof.
  revert i out. induction a as [|x a IH]; intros i out; cbn [app tokenize_loop length bind].
  - now rewrite Nat.add_0_r.
  - destruct (fit_tokens tokenizer (nth i texts EmptyString) x cl truncate); cbn [bind]; auto.
    destruct (assign_prefix (nth i out []) a0); cbn [bind]; auto.
    rewrite IH. now replace (S i + length a) with (i + S (length a)) by lia.
Qed.

Lemma tokenize_ok texts cl truncate :
  (0 <= cl)%Z ->
  (truncate = true -> (0 < cl)%Z) ->
  (truncate = false ->
   Forall (fun text => ~ too_long tokenizer cl text) (texts_list texts)) ->
  tokenize tokenizer texts cl truncate
  = Ok (mkTensor [length (texts_list texts); Z.to_nat cl]
                 (concat (map (padded_row tokenizer cl) (texts_list texts)))).
Proof.
  intros Hcl Htr Hfit. unfold tokenize.
  destruct (Z.ltb_spec cl 0); [lia|].
  rewrite length_map.
  pose proof (@tokenize_loop_ok (texts_list texts) cl truncate Hcl Htr
                (texts_list texts) [] [] [] []) as H0.
  cbn [length app] in H0. rewrite !app_nil_r in H0. rewrite H0; auto.
Qed.

Lemma tokenize_raises_too_long texts pre post text cl :
  (0 <= cl)%Z ->
  texts_list texts = pre ++ text :: post ->
  Forall (fun t => ~ too_long tokenizer cl t) pre ->
  too_long tokenizer cl text ->
  tokenize tokenizer texts cl false
  = Raise (RuntimeError ("Input " ++ text ++ " is too long for context length "
                                  ++ string_of_Z cl)%string).
Proof.
  intros Hcl Ht Hpre Hlong. unfold tokenize.
  destruct (Z.ltb_spec cl 0); [lia|].
  rewrite Ht, map_app, length_app, length_map. cbn [map length].
  rewrite tokenize_loop_app, repeat_app.
  pose proof (@tokenize_loop_ok (pre ++ text :: post) cl false Hcl
                ltac:(discriminate) pre [] (text :: post) []
                (repeat (repeat 0%Z (Z.to_nat cl)) (length (map (wrapped tokenizer) post) + 1)))
    as H0.
  cbn [length app] in H0.
  rewrite length_map in *. replace (S (length post)) with (length post + 1) by lia.
  rewrite H0; auto. cbn [bind tokenize_loop]. rewrite length_map. cbn [Nat.add].
  rewrite nth_middle_app.
  unfold fit_tokens, too_long in *.
  destruct (Z.gtb_spec (Z.of_nat (length (wrapped tokenizer text))) cl); [reflexivity | lia].
Qed.

End TokenizeFacts.

(** C6 (as amended).  For an input string whose wrapped token sequence fits
    in [context_length] and whose encoded content holds no end token, with
    the end token different from the start token and from the padding zero,
    [tokenize] returns one row of exactly [context_length] integers: it
    starts with the start token, the end token stands immediately after the
    encoded content and nowhere else, and every later position is zero. *)
Theorem tokenize_fits_row (tokenizer : Tokenizer) (text : string)
        (context_length : Z) (truncate : bool) :
  ~ too_long tokenizer context_length text ->
  ~ In (eot_token tokenizer) (encode tokenizer text) ->
  eot_token tokenizer <> 0%Z ->
  sot_token tokenizer <> eot_token tokenizer ->
  exists row,
    tokenize tokenizer (OneText text) context_length truncate
    = Ok (mkTensor [1; Z.to_nat context_length] row) /\
    length row = Z.to_nat context_length /\
    nth 0 row 0%Z = sot_token tokenizer /\
    nth (S (length (encode tokenizer text))) row 0%Z = eot_token tokenizer /\
    count_occ Z.eq_dec row (eot_token tokenizer) = 1 /\
    (forall j, S (S (length (encode tokenizer text))) <= j -> nth j row 0%Z = 0%Z).
Proof.
  intros Hfit Hcontent Hzero Hsot.
  pose proof (wrapped_length tokenizer text) as Hw.
  assert (Hcl : (2 <= context_length)%Z) by (unfold too_long in Hfit; lia).
  exists (padded_row tokenizer context_length text).
  split.
  { rewrite tokenize_ok; try lia.
    - cbn [texts_list map concat length]. now rewrite app_nil_r.
    - intros _. cbn [texts_list]. now constructor. }
  split; [apply padded_row_length; lia|].
  unfold padded_row, too_long in *.
  destruct (Z.gtb_spec (Z.of_nat (length (wrapped tokenizer text))) context_length);
    [lia|].
  unfold wrapped in *. cbn [app] in *.
  repeat split.
  - cbn [nth]. rewrite app_nth1 by (rewrite length_app; cbn; lia).
    rewrite app_nth2 by lia. now rewrite Nat.sub_diag.
  - cbn [count_occ]. destruct (Z.eq_dec (sot_token tokenizer) (eot_token tokenizer));
      [contradiction|].
    rewrite !count_occ_app. cbn [count_occ].
    destruct (Z.eq_dec (eot_token tokenizer) (eot_token tokenizer)); [|contradiction].
    rewrite (proj1 (count_occ_not_In Z.eq_dec _ _) Hcontent).
    rewrite count_occ_repeat_other by congruence. reflexivity.
  - intros j Hj. destruct j as [|j]; [lia|]. cbn [nth].
    rewrite app_nth2 by (rewrite length_app; cbn; lia).
    apply nth_repeat_any.
Qed.

Lemma tokenize_fits_row_witness :
  exists row,
    tokenize char_tokenizer (OneText "hello") 77 false
    = Ok (mkTensor [1; Z.to_nat 77] row) /\
    length row = Z.to_nat 77 /\
    nth 0 row 0%Z = sot_token char_tokenizer /\
    nth (S (length (encode char_tokenizer "hello"))) row 0%Z = eot_token char_tokenizer /\
    count_occ Z.eq_dec row (eot_token char_tokenizer) = 1 /\
    (forall j, S (S (length (encode char_tokenizer "hello"))) <= j -> nth j row 0%Z = 0%Z).
Proof.
  apply (@tokenize_fits_row char_tokenizer "hello" 77 false).
  - unfold too_long. vm_compute. discriminate.
  - vm_compute. intuition discriminate.
  - vm_compute. discriminate.
  - vm_compute. discriminate.
Defined.

(** C6 as stated fails when the content itself encodes to the end token:
    with a tokenizer that maps the text of the end marker to the end token,
    the row for that text fits in 77 positions and holds the end token twice. *)
Lemma tokenize_end_token_twice :
  ~ too_long marker_tokenizer 77 "<|endoftext|>" /\
  exists row,
    tokenize marker_tokenizer (OneText "<|endoftext|>") 77 false
    = Ok (mkTensor [1; 77] row) /\
    count_occ Z.eq_dec row (eot_token marker_tokenizer) = 2.
Proof.
  split.
  - unfold too_long. vm_compute. discriminate.
  - eexists. split; [vm_compute; reflexivity | vm_compute; reflexivity].
Qed.

(** C7.  With [truncate=True] and a positive [context_length], [tokenize]
    returns a matrix with one row per input text, and the row of every text
    whose wrapped token sequence exceeds [context_length] has exactly
    [context_length] entries, the last of which is the end-of-text token. *)
Theorem tokenize_truncate_row (tokenizer : Tokenizer) (texts : texts_arg)
        (context_length : Z) (i : nat) (text : string) :
  (0 < context_length)%Z ->
  nth_error (texts_list texts) i = Some text ->
  too_long tokenizer context_length text ->
  exists t,
    tokenize tokenizer texts context_length true = Ok t /\
    shape t = [length (texts_list texts); Z.to_nat context_length] /\
    length (slice0 t i) = Z.to_nat context_length /\
    last (slice0 t i) 0%Z = eot_token tokenizer.
Proof.
  intros Hcl Hi Hlong.
  eexists. split; [apply tokenize_ok; [lia | auto | discriminate] |].
  split; [reflexivity|].
  unfold slice0. cbn [shape data tl numel fold_right]. rewrite Nat.mul_1_r.
  assert (Hlt : i < length (texts_list texts)) by (apply nth_error_Some; congruence).
  rewrite concat_row.
  - assert (Hrow : forall d, nth i (map (padded_row tokenizer context_length) (texts_list texts)) d
                             = padded_row tokenizer context_length text).
    { intros d. rewrite (nth_indep _ d (padded_row tokenizer context_length EmptyString))
        by (rewrite length_map; lia).
      rewrite map_nth. f_equal. now apply nth_error_nth. }
    rewrite !Hrow. split; [apply padded_row_length; lia|].
    unfold padded_row, too_long in *.
    destruct (Z.gtb_spec (Z.of_nat (length (wrapped tokenizer text))) context_length);
      [|lia].
    apply last_last.
  - apply Forall_forall. intros r Hr. apply in_map_iff in Hr as [s [<- _]].
    apply padded_row_length. lia.
  - now rewrite length_map.
Qed.

Lemma tokenize_truncate_row_witness :
  exists t,
    tokenize char_tokenizer (TextList ["a photo"%string; "a photo of a dog"%string]) 8 true = Ok t /\
    shape t = [length (texts_list (TextList ["a photo"%string; "a photo of a dog"%string])); Z.to_nat 8] /\
    length (slice0 t 1) = Z.to_nat 8 /\
    last (slice0 t 1) 0%Z = eot_token char_tokenizer.
Proof.
  apply (@tokenize_truncate_row char_tokenizer
           (TextList ["a photo"%string; "a photo of a dog"%string]) 8 1 "a photo of a dog").
  - lia.
  - reflexivity.
  - unfold too_long. vm_compute. reflexivity.
Defined.

(** C8.  With [truncate=False] and a non-negative [context_length], a text
    whose wrapped token sequence exceeds [context_length] (the first such
    text of the call) makes [tokenize] raise an error whose message quotes
    that text; no tensor is returned. *)
Theorem tokenize_too_long_raises (tokenizer : Tokenizer) (texts : texts_arg)
        (pre post : list string) (text : string) (context_length : Z) :
  (0 <= context_length)%Z ->
  texts_list texts = pre ++ text :: post ->
  Forall (fun t => ~ too_long tokenizer context_length t) pre ->
  too_long tokenizer context_length text ->
  tokenize tokenizer texts context_length false
  = Raise (RuntimeError ("Input " ++ text ++ " is too long for context length "
                                  ++ string_of_Z context_length)%string).
Proof. apply tokenize_raises_too_long. Qed.

Lemma tokenize_too_long_raises_witness :
  tokenize char_tokenizer (TextList ["a photo"%string; "a photo of a dog"%string]) 10 false
  = Raise (RuntimeError "Input a photo of a dog is too long for context length 10").
Proof.
  apply (@tokenize_too_long_raises char_tokenizer
           (TextList ["a photo"%string; "a photo of a dog"%string]) ["a photo"%string] [] "a photo of a dog" 10).
  - lia.
  - reflexivity.
  - constructor; [|constructor]. unfold too_long. vm_compute. discriminate.
  - unfold too_long. vm_compute. reflexivity.
Defined.

(** ** Fallible calls *)

Lemma mapM_ok (A B : Type) (f : A -> result B) (g : A -> B) (l : list A) :
  Forall (fun x => f x = Ok (g x)) l -> mapM f l = Ok (map g l).
Proof.
  induction 1 as [|x l Hx _ IH]; cbn [mapM map bind]; [reflexivity|].
  now rewrite Hx, IH.
Qed.

Lemma bind_raises (A B : Type) (c : result A) (k : A -> result B) :
  raises c -> raises (bind c k).
Proof. intros [e ->]. now exists e. Qed.

(** ** CLIP.__init__ *)

Section InitFacts.

Context {T : Type} {S : Scalar T}.
Variable tokenizer : Tokenizer.
Variable normal_ : nat -> T.

Lemma tokenize_each_single_device (phrases : list string) :
  Forall (fun p => ~ too_long tokenizer 77 p) phrases ->
  exists tokens, CLIP.tokenize_each tokenizer 1 phrases = Ok tokens.
Proof.
  intros Hfit. unfold CLIP.tokenize_each.
  eexists. apply mapM_ok with
    (g := fun p => mkTensor [1; Z.to_nat 77] (concat [padded_row tokenizer 77 p])).
  eapply Forall_impl; [|exact Hfit]. intros p Hp. cbn beta.
  rewrite tokenize_ok; try lia; [reflexivity|].
  intros _. cbn [texts_list]. now constructor.
Qed.

Lemma init_bare_raises (devices : nat) args class_names (clip_model : ClipModel.t T)
      entities text_prompt n_ctx :
  devices <= 1 ->
  raises (CLIP.init tokenizer devices normal_ args class_names clip_model
                    entities text_prompt n_ctx).
Proof.
  intros Hdev. unfold CLIP.init.
  destruct (Nat.ltb_spec 1 devices); [lia|].
  destruct (CLIP.tokenize_each tokenizer devices entities) as [tokens|e]; cbn [bind].
  - eexists. reflexivity.
  - now exists e.
Qed.

(** Whatever [n_ctx] is, the soft-prompt tensor has twelve rows per entity;
    [n_ctx] only reaches the assembler. *)
Lemma init_prompt_shape (devices : nat) args class_names (clip_model : ClipModel.t T)
      entities text_prompt n_ctx (m : CLIP.t T) :
  CLIP.init tokenizer devices normal_ args class_names clip_model
            entities text_prompt n_ctx = Ok m ->
  exists ctx_dim,
    nth_error (ClipModel.ln_final_weight_shape clip_model) 0 = Some ctx_dim /\
    shape (CLIP.entity_prompts m) = [length entities; 12; ctx_dim] /\
    PromptLearner.n_ctx (CLIP.prompt_learner m) = n_ctx /\
    PromptLearner.ctx_dim (CLIP.prompt_learner m) = ctx_dim.
Proof.
  unfold CLIP.init, PromptLearner.init, CLIP.cuda. intros H. cbv zeta in H.
  destruct (ClipModel.ln_final_weight_shape clip_model) as [|d rest].
  - repeat bind_inv H. discriminate H.
  - repeat bind_inv H. injection H as <-.
    cbn [CLIP.entity_prompts CLIP.prompt_learner PromptLearner.n_ctx PromptLearner.ctx_dim].
    destruct (devices =? 0); [discriminate|].
    match goal with E : Ok _ = Ok ?a |- context [shape ?a] => injection E as <- end.
    exists d. repeat split.
Qed.

End InitFacts.

(** C10 (as amended).  On a single device the constructor never returns a
    model.  It raises an attribute error at the first read of [.module] once
    every entity phrase has been tokenized, which is the case when none of
    them is too long for the context of 77 tokens. *)
Theorem init_single_device_fails (T : Type) (S : Scalar T) (tokenizer : Tokenizer)
        (device_count : nat) (normal_ : nat -> T) (args : Args)
        (class_names : list string) (clip_model : ClipModel.t T)
        (entities : list string) (text_prompt n_ctx : Z) :
  device_count = 1 ->
  raises (CLIP.init tokenizer device_count normal_ args class_names clip_model
                    entities text_prompt n_ctx) /\
  (Forall (fun p => ~ too_long tokenizer 77 p) entities ->
   CLIP.init tokenizer device_count normal_ args class_names clip_model
             entities text_prompt n_ctx
   = Raise (AttributeError "'TextEncoder' object has no attribute 'module'")).
Proof.
  intros ->. split; [apply init_bare_raises; lia|].
  intros Hfit. unfold CLIP.init. cbn [Nat.ltb Nat.leb].
  destruct (tokenize_each_single_device Hfit) as [tokens ->].
  reflexivity.
Qed.

Lemma init_single_device_fails_witness :
  raises (small_clip_R 1 12 12) /\
  (Forall (fun p => ~ too_long char_tokenizer 77 p) ["red"%string] ->
   small_clip_R 1 12 12
   = Raise (AttributeError "'TextEncoder' object has no attribute 'module'")).
Proof.
  apply (@init_single_device_fails R R_scalar char_tokenizer 1). reflexivity.
Defined.

(** C10 as stated fails when an entity phrase is too long: on a single
    device the constructor then stops in [tokenize], before [.module] is
    read, and the error is the tokenizer's. *)
Lemma init_single_device_long_phrase :
  exists msg,
    CLIP.init char_tokenizer 1 INR (mkArgs 1) (class_names_of 12)
              (small_model 1%R 0%R 1%R 3%R 4%R 3%R 4%R 0%R) [long_phrase] 1 12
    = Raise (RuntimeError msg).
Proof.
  eexists. unfold CLIP.init. cbn [Nat.ltb Nat.leb].
  unfold CLIP.tokenize_each. cbn [mapM].
  rewrite (@tokenize_raises_too_long char_tokenizer (OneText long_phrase) []
             [] long_phrase 77); [reflexivity | lia | reflexivity | constructor |].
  unfold too_long. vm_compute. reflexivity.
Qed.

(** ** The reshape of the text features *)

Lemma view_classes (A : Type) (t : tensor A) (b n : nat) :
  view t [Z.of_nat b; Z.of_nat n; (-1)%Z]
  = if b * n =? 0 then
      Raise (RuntimeError "cannot reshape tensor: the unspecified dimension size -1 is ambiguous")
    else if numel (shape t) mod (b * n) =? 0 then
      Ok (mkTensor [b; n; numel (shape t) / (b * n)] (data t))
    else Raise (RuntimeError "shape is invalid for input size").
Proof.
  unfold view. cbn [existsb filter map length negb].
  assert (Hlt : forall k, (Z.of_nat k <? -1)%Z = false) by (intros k; apply Z.ltb_ge; lia).
  assert (Heq : forall k, (Z.of_nat k =? -1)%Z = false) by (intros k; apply Z.eqb_neq; lia).
  rewrite !Hlt, !Heq. cbn [orb negb filter map length numel fold_right Z.eqb].
  rewrite !Nat2Z.id, Nat.mul_1_r. reflexivity.
Qed.

Section ForwardShapeFacts.

Context {T : Type} {S : Scalar T}.
Variable topk_row : list T -> nat -> list nat.

(** [forward] in terms of its stages. *)
Lemma forward_stages (self : CLIP.t T) (image image_features text_features : tensor T)
      (indexs : tensor nat) :
  CLIP.forward_image_features self image = Ok image_features ->
  CLIP.forward_select topk_row self image_features = Ok indexs ->
  CLIP.forward_text_features self indexs = Ok text_features ->
  CLIP.forward topk_row self image
  = (chosen_keys <- list_getitem (CLIP.entity_keys self) indexs ;;
     out <- CLIP.forward_logits self image_features text_features ;;
     Ok (fst out, snd out, chosen_keys)).
Proof.
  intros H1 H2 H3. unfold CLIP.forward. rewrite H1. cbn [bind]. rewrite H2. cbn [bind].
  destruct (list_getitem (CLIP.entity_keys self) indexs); cbn [bind]; [|reflexivity].
  now rewrite H3.
Qed.

(** Indexing the list of keys with a tensor of several (or no) entries. *)
Lemma forward_type_error (self : CLIP.t T) (image image_features : tensor T)
      (indexs : tensor nat) :
  CLIP.forward_image_features self image = Ok image_features ->
  CLIP.forward_select topk_row self image_features = Ok indexs ->
  length (data indexs) <> 1 ->
  CLIP.forward topk_row self image
  = Raise (TypeError "only integer tensors of a single element can be converted to an index").
Proof.
  intros H1 H2 Hn. unfold CLIP.forward. rewrite H1. cbn [bind]. rewrite H2. cbn [bind].
  unfold list_getitem. destruct (data indexs) as [|i [|j l]]; cbn in *; congruence.
Qed.

End ForwardShapeFacts.

(** C1 (as amended).  [CLIP.forward] makes no class-count check of its own.
    When the batch size times the class count is zero or does not divide the
    number of entries of the text features, the reshape
    [text_features.view(batch, n_class, -1)] raises a RuntimeError, so
    [forward] raises and returns no logits. *)
Theorem forward_reshape_raises (T : Type) (S : Scalar T)
        (topk_row : list T -> nat -> list nat) (self : CLIP.t T)
        (image image_features text_features : tensor T) (indexs : tensor nat)
        (batch : nat) :
  CLIP.forward_image_features self image = Ok image_features ->
  CLIP.forward_select topk_row self image_features = Ok indexs ->
  CLIP.forward_text_features self indexs = Ok text_features ->
  shape_at image_features 0 = Ok batch ->
  batch * CLIP.n_class self = 0 \/
  numel (shape text_features) mod (batch * CLIP.n_class self) <> 0 ->
  (exists msg, CLIP.forward_logits self image_features text_features
               = Raise (RuntimeError msg)) /\
  raises (CLIP.forward topk_row self image).
Proof.
  intros H1 H2 H3 Hb Hdiv.
  assert (Hlogits : exists msg, CLIP.forward_logits self image_features text_features
                                = Raise (RuntimeError msg)).
  { unfold CLIP.forward_logits. rewrite Hb. cbn [bind]. rewrite view_classes.
    destruct (Nat.eqb_spec (batch * CLIP.n_class self) 0) as [E|E];
      [eexists; reflexivity|].
    destruct (Nat.eqb_spec (numel (shape text_features) mod (batch * CLIP.n_class self)) 0);
      [|eexists; reflexivity].
    destruct Hdiv; contradiction. }
  split; [exact Hlogits|].
  destruct Hlogits as [msg Hmsg].
  rewrite forward_stages with (image_features := image_features) (text_features := text_features) (indexs := indexs) by assumption.
  destruct (list_getitem (CLIP.entity_keys self) indexs) as [k|e]; cbn [bind].
  - rewrite Hmsg. eexists. reflexivity.
  - eexists. reflexivity.
Qed.

(** ** Runs of the small classifier *)

Section SmallRuns.

Context {T : Type} {S : Scalar T}.
Variables e p c w1 w2 a b s : T.
Variable normal_ : nat -> T.

(** Five classes: the 24 text-feature entries are no multiple of 5. *)
Lemma small_run_5_classes :
  exists m image_features indexs text_features,
    small_clip e p c w1 w2 a b s normal_ 2 5 12 = Ok m /\
    CLIP.n_class m = 5 /\
    CLIP.forward_image_features m (small_images 1 a) = Ok image_features /\
    CLIP.forward_select topk_low m image_features = Ok indexs /\
    CLIP.forward_text_features m indexs = Ok text_features /\
    shape_at image_features 0 = Ok 1 /\
    shape text_features = [1; 12; 2].
Proof.
  do 4 eexists.
  split; [vm_compute; reflexivity|].
  split; [reflexivity|].
  split; [vm_compute; reflexivity|].
  split; [vm_compute; reflexivity|].
  split; [vm_compute; reflexivity|].
  split; reflexivity.
Qed.

(** Twenty-four classes: twelve embeddings per image, reshaped without error. *)
Lemma small_run_24_classes :
  exists m image_features indexs text_features out,
    small_clip e p c w1 w2 a b s normal_ 2 24 12 = Ok m /\
    CLIP.n_class m = 24 /\
    CLIP.forward_image_features m (small_images 1 a) = Ok image_features /\
    CLIP.forward_select topk_low m image_features = Ok indexs /\
    CLIP.forward_text_features m indexs = Ok text_features /\
    shape text_features = [1; 12; 2] /\
    embeddings_per_image text_features = 12 /\
    CLIP.forward topk_low m (small_images 1 a) = Ok out /\
    shape (fst (fst out)) = [1; 24].
Proof.
  do 5 eexists.
  split; [vm_compute; reflexivity|].
  split; [reflexivity|].
  split; [vm_compute; reflexivity|].
  split; [vm_compute; reflexivity|].
  split; [vm_compute; reflexivity|].
  split; [reflexivity|].
  split; [reflexivity|].
  split; [vm_compute; reflexivity|].
  reflexivity.
Qed.

(** A batch of two images: the selection succeeds and the list of keys is
    then indexed with a tensor of two entries. *)
Lemma small_run_2_images :
  exists m image_features indexs,
    small_clip e p c w1 w2 a b s normal_ 2 12 12 = Ok m /\
    CLIP.forward_image_features m (small_images 2 a) = Ok image_features /\
    CLIP.forward_select topk_low m image_features = Ok indexs /\
    shape indexs = [2; 1] /\
    CLIP.forward topk_low m (small_images 2 a)
    = Raise (TypeError "only integer tensors of a single element can be converted to an index").
Proof.
  do 3 eexists.
  split; [vm_compute; reflexivity|].
  split; [vm_compute; reflexivity|].
  split; [vm_compute; reflexivity|].
  split; [reflexivity|].
  vm_compute. reflexivity.
Qed.

(** [n_ctx = 4]: the prompt tensor still has twelve rows per entity, and the
    assembler cannot view the twelve gathered rows as four. *)
Lemma small_run_n_ctx_4 :
  exists m,
    small_clip e p c w1 w2 a b s normal_ 2 12 4 = Ok m /\
    PromptLearner.n_ctx (CLIP.prompt_learner m) = 4%Z /\
    shape (CLIP.entity_prompts m) = [1; 12; 1] /\
    PromptLearner.forward (CLIP.prompt_learner m) (mkTensor [1; 1] [0])
    = Raise (RuntimeError "shape is invalid for input size") /\
    CLIP.forward topk_low m (small_images 1 a)
    = Raise (RuntimeError "shape is invalid for input size").
Proof.
  eexists.
  split; [vm_compute; reflexivity|].
  split; [reflexivity|].
  split; [reflexivity|].
  split; vm_compute; reflexivity.
Qed.

End SmallRuns.

Lemma forward_reshape_raises_witness :
  exists m image_features indexs text_features,
    small_clip_R 2 5 12 = Ok m /\
    CLIP.n_class m = 5 /\
    CLIP.forward_text_features m indexs = Ok text_features /\
    shape text_features = [1; 12; 2] /\
    (exists msg, CLIP.forward_logits m image_features text_features
                 = Raise (RuntimeError msg)) /\
    raises (CLIP.forward topk_low m (small_images 1 3%R)).
Proof.
  destruct (@small_run_5_classes R R_scalar 1%R 0%R 1%R 3%R 4%R 3%R 4%R 0%R INR)
    as (m & image_features & indexs & text_features & Hm & Hn & H1 & H2 & H3 & Hb & Hs).
  exists m, image_features, indexs, text_features.
  repeat (split; [assumption|]).
  apply (@forward_reshape_raises R R_scalar topk_low m (small_images 1 3%R)
           image_features text_features indexs 1 H1 H2 H3 Hb).
  right. rewrite Hs, Hn. cbn. discriminate.
Defined.

(** C1 as stated fails: with twelve text embeddings per image and
    twenty-four classes, no error is raised and [forward] returns logits of
    shape [[1; 24]]. *)
Lemma forward_accepts_class_mismatch :
  exists m indexs text_features out,
    small_clip_R 2 24 12 = Ok m /\
    CLIP.n_class m = 24 /\
    CLIP.forward_text_features m indexs = Ok text_features /\
    embeddings_per_image text_features = 12 /\
    CLIP.forward topk_low m (small_images 1 3%R) = Ok out /\
    shape (fst (fst out)) = [1; 24].
Proof.
  destruct (@small_run_24_classes R R_scalar 1%R 0%R 1%R 3%R 4%R 3%R 4%R 0%R INR)
    as (m & image_features & indexs & text_features & out
        & Hm & Hn & H1 & H2 & H3 & Hs & He & Hf & Hl).
  exists m, indexs, text_features, out. repeat split; assumption.
Qed.

(** C3, at [n_ctx = 4].  The constructor ignores [n_ctx] when it creates the
    soft-prompt tensor, whose shape is [[1; 12; 1]] for the one entity of the
    small classifier, while the assembler keeps [n_ctx = 4] and fails to view
    the twelve gathered rows as a sequence of [4 * 1]. *)
Theorem prompt_tensor_ignores_n_ctx :
  exists m,
    small_clip_R 2 12 4 = Ok m /\
    PromptLearner.n_ctx (CLIP.prompt_learner m) = 4%Z /\
    shape (CLIP.entity_prompts m) = [1; 12; 1] /\
    PromptLearner.forward (CLIP.prompt_learner m) (mkTensor [1; 1] [0])
    = Raise (RuntimeError "shape is invalid for input size") /\
    CLIP.forward topk_low m (small_images 1 3%R)
    = Raise (RuntimeError "shape is invalid for input size").
Proof.
  exact (@small_run_n_ctx_4 R R_scalar 1%R 0%R 1%R 3%R 4%R 3%R 4%R 0%R INR).
Qed.

(** C4, at a batch of two images.  The selection returns one index per
    image, and [forward] raises a type error when it indexes the list of
    entity keys with that tensor; no keys are returned. *)
Theorem forward_two_images_type_error :
  exists m image_features indexs,
    small_clip_R 2 12 12 = Ok m /\
    CLIP.forward_image_features m (small_images 2 3%R) = Ok image_features /\
    CLIP.forward_select topk_low m image_features = Ok indexs /\
    shape indexs = [2; 1] /\
    CLIP.forward topk_low m (small_images 2 3%R)
    = Raise (TypeError "only integer tensors of a single element can be converted to an index").
Proof.
  exact (@small_run_2_images R R_scalar 1%R 0%R 1%R 3%R 4%R 3%R 4%R 0%R INR).
Qed.

(** ** Prefixes of lists *)

Lemma nth_firstn_lt (A : Type) (l : list A) (d : A) k p :
  p < k -> nth p (firstn k l) d = nth p l d.
Proof.
  revert k p. induction l as [|a l IH]; intros [|k] [|p] H; cbn; auto; try lia.
  apply IH. lia.
Qed.

(** ** The selector of CLIP.forward *)

Lemma flat_map_row (A : Type) (f : nat -> list A) (m n r : nat) :
  (forall i, i < n -> length (f i) = m) ->
  r < n ->
  firstn m (skipn (r * m) (flat_map f (seq 0 n))) = f r.
Proof.
  intros Hlen Hr. rewrite flat_map_concat_map, concat_row.
  - rewrite (nth_indep _ [] (f 0)) by (rewrite length_map, length_seq; lia).
    rewrite map_nth, seq_nth by lia. reflexivity.
  - apply Forall_forall. intros l Hl. apply in_map_iff in Hl as [i [<- Hi]].
    apply in_seq in Hi. apply Hlen. lia.
  - rewrite length_map, length_seq. lia.
Qed.

Lemma row_at_length (A : Type) (d : A) (t : tensor A) (idx : list nat) :
  length (row_at d t idx) = last_dim (shape t).
Proof. unfold row_at. now rewrite length_map, length_seq. Qed.

Section SelectFacts.

Context {T : Type} {S : Scalar T}.

Lemma cat0_keys (keys : list (tensor T)) (D : nat) :
  keys <> [] ->
  Forall (fun key => shape key = [1; D]) keys ->
  cat0 keys = Ok (mkTensor [length keys; D] (concat (map (@data T) keys))).
Proof.
  intros Hne Hshape. unfold cat0.
  assert (Hsum : list_sum (map (fun t => hd 0 (shape t)) keys) = length keys).
  { clear Hne. induction Hshape as [|t l Ht _ IH]; [reflexivity|].
    unfold list_sum in *. cbn [map fold_right length]. rewrite Ht, IH. reflexivity. }
  destruct keys as [|t0 rest]; [contradiction|].
  pose proof (Forall_inv Hshape) as H0. cbn beta in H0. rewrite H0.
  assert (Hall : forallb (fun t => match shape t with
                                   | [] => false
                                   | _ :: r => if list_eq_dec Nat.eq_dec r [D] then true else false
                                   end) (t0 :: rest) = true).
  { apply forallb_forall. intros t Ht. rewrite Forall_forall in Hshape.
    rewrite (Hshape t Ht). destruct (list_eq_dec Nat.eq_dec [D] [D]); congruence. }
  rewrite Hall.
  now rewrite Hsum.
Qed.

Lemma forward_probability_shape (self : CLIP.t T) (image_features : tensor T) (B D : nat) :
  shape image_features = [B; D] ->
  CLIP.entity_keys self <> [] ->
  Forall (fun key => shape key = [1; D]) (CLIP.entity_keys self) ->
  exists probability,
    CLIP.forward_probability self image_features = Ok probability /\
    shape probability = [B; length (CLIP.entity_keys self)].
Proof.
  intros Himg Hne Hkeys. unfold CLIP.forward_probability.
  rewrite (cat0_keys Hne Hkeys). cbn [bind].
  unfold transpose. cbn [shape bind].
  unfold matmul. cbn [shape]. rewrite Himg. cbn [rev app].
  rewrite Nat.eqb_refl. eexists. split; reflexivity.
Qed.

End SelectFacts.

Section SelectRuns.

Context {T : Type} {S : Scalar T}.
Variables e p c w1 w2 a b s : T.
Variable normal_ : nat -> T.


End SelectRuns.

(** ** Row-major indexing *)

Lemma numel_snoc (s : list nat) (d : nat) : numel (s ++ [d]) = numel s * d.
Proof.
  unfold numel. induction s as [|x s IH]; cbn [app fold_right]; [lia|].
  rewrite IH. lia.
Qed.

Lemma indices_length (s : list nat) : length (indices s) = numel s.
Proof.
  induction s as [|d s IH]; [reflexivity|].
  cbn [indices numel fold_right]. fold (numel s).
  rewrite flat_map_concat_map.
  assert (Hl : forall l : list nat,
             length (concat (map (fun i => map (cons i) (indices s)) l))
             = length l * numel s).
  { induction l as [|i l IHl]; [reflexivity|].
    cbn [map concat length]. rewrite length_app, length_map, IH, IHl. lia. }
  now rewrite Hl, length_seq.
Qed.

Lemma offset_lt (s idx : list nat) :
  valid_index s idx -> offset s idx < numel s.
Proof.
  unfold valid_index. intros H. induction H as [|i d idx s Hi _ IH].
  - cbn. lia.
  - cbn [offset numel fold_right]. fold (numel s). nia.
Qed.

Lemma offset_snoc (s idx : list nat) (d j : nat) :
  valid_index s idx ->
  offset (s ++ [d]) (idx ++ [j]) = offset s idx * d + j.
Proof.
  unfold valid_index. intros H. induction H as [|i x idx s Hi _ IH].
  - cbn. lia.
  - cbn [app offset]. rewrite IH, numel_snoc. lia.
Qed.

Lemma valid_index_snoc (s idx : list nat) (d j : nat) :
  valid_index s idx -> j < d -> valid_index (s ++ [d]) (idx ++ [j]).
Proof.
  unfold valid_index. intros H Hj. apply Forall2_app; [assumption|].
  now repeat constructor.
Qed.

Lemma nth_flat_map_block (A : Type) (f : nat -> list A) (m n i j : nat) (d : A) :
  (forall k, k < n -> length (f k) = m) ->
  i < n -> j < m ->
  nth (i * m + j) (flat_map f (seq 0 n)) d = nth j (f i) d.
Proof.
  intros Hlen Hi Hj.
  rewrite <- (flat_map_row f Hlen Hi) at 1.
  rewrite nth_firstn_lt by assumption.
  rewrite nth_skipn. f_equal.
Qed.

Lemma nth_indices (s idx : list nat) (d : list nat) :
  valid_index s idx -> nth (offset s idx) (indices s) d = idx.
Proof.
  unfold valid_index. intros H. revert d. induction H as [|i n idx s Hi Hv IH]; intros d.
  - reflexivity.
  - cbn [offset indices].
    rewrite nth_flat_map_block with (m := numel s).
    + rewrite (nth_indep _ d (i :: d))
        by (rewrite length_map, indices_length; now apply offset_lt).
      rewrite (map_nth (cons i)). now rewrite IH.
    + intros k _. now rewrite length_map, indices_length.
    + assumption.
    + now apply offset_lt.
Qed.

(** The entry at a valid index of a tensor given entry by entry. *)
Lemma get_tabulate (A : Type) (d : A) (s : list nat) (g : list nat -> A) (idx : list nat) :
  valid_index s idx ->
  get d (mkTensor s (map g (indices s))) idx = g idx.
Proof.
  intros H. unfold get. cbn [shape data].
  rewrite (nth_indep _ d (g []))
    by (rewrite length_map, indices_length; now apply offset_lt).
  rewrite map_nth. now rewrite nth_indices.
Qed.

Lemma broadcast_rev_same (s : list nat) : broadcast_rev s s = Some s.
Proof.
  induction s as [|x s IH]; [reflexivity|].
  cbn [broadcast_rev]. now rewrite IH, Nat.eqb_refl.
Qed.

Lemma bproj_same (s idx : list nat) :
  valid_index s idx -> bproj s idx = idx.
Proof.
  unfold valid_index, bproj. intros H.
  rewrite (Forall2_length H), Nat.sub_diag. cbn [skipn].
  induction H as [|i d idx s Hi _ IH]; [reflexivity|].
  cbn [combine map fst snd]. rewrite IH.
  destruct (Nat.eqb_spec d 1); [f_equal; lia | reflexivity].
Qed.

Lemma bproj_keepdim (s idx : list nat) (j : nat) :
  valid_index s idx -> bproj (s ++ [1]) (idx ++ [j]) = idx ++ [0].
Proof.
  intros H. pose proof (Forall2_length H) as Hl. unfold bproj.
  rewrite !length_app, Hl, Nat.sub_diag. cbn [skipn].
  unfold valid_index in H. induction H as [|i d idx s Hi _ IH]; [reflexivity|].
  cbn [app combine map fst snd]. cbn [length] in Hl. rewrite IH by lia.
  destruct (Nat.eqb_spec d 1); [f_equal; lia | reflexivity].
Qed.

(** ** Normalization *)

Lemma mapM_inv (A B : Type) (f : A -> result B) (l : list A) (l' : list B) :
  mapM f l = Ok l' -> Forall2 (fun x y => f x = Ok y) l l'.
Proof.
  revert l'. induction l as [|x l IH]; intros l' H; cbn [mapM] in H.
  - injection H as <-. constructor.
  - destruct (f x) as [y|] eqn:Ex; cbn [bind] in H; [|discriminate].
    destruct (mapM f l) as [ys|] eqn:El; cbn [bind] in H; [|discriminate].
    injection H as <-. constructor; [assumption | now apply IH].
Qed.

Section NormalizeFacts.

Context {T : Type} {S : Scalar T}.

Lemma last_dim_snoc (sh : list nat) (D : nat) : last_dim (sh ++ [D]) = D.
Proof. unfold last_dim. apply last_last. Qed.

Lemma broadcast_keepdim (sh : list nat) (D : nat) :
  broadcast_shapes (sh ++ [D]) (sh ++ [1]) = Some (sh ++ [D]).
Proof.
  unfold broadcast_shapes. rewrite !rev_app_distr. cbn [rev app broadcast_rev].
  rewrite broadcast_rev_same.
  destruct (D =? 1); cbn [Nat.eqb option_map rev]; now rewrite rev_involutive.
Qed.

(** Each row of [t / t.norm(dim=-1, keepdim=True)] is the row of [t] divided
    by its own norm. *)
Lemma normalize_rows (t : tensor T) (sh : list nat) (D : nat) :
  shape t = sh ++ [D] ->
  exists t',
    normalize t = Ok t' /\
    shape t' = sh ++ [D] /\
    forall idx, valid_index sh idx ->
      row_at szero t' idx
      = map (fun x => sdiv x (norm2 (row_at szero t idx))) (row_at szero t idx).
Proof.
  intros Hs. unfold normalize, broadcast2, norm_keepdim. rewrite Hs.
  rewrite removelast_last.
  replace (match sh ++ [D] with [] => [] | _ :: _ => sh ++ [1] end) with (sh ++ [1])
    by (destruct sh; reflexivity).
  cbn [shape]. rewrite broadcast_keepdim.
  eexists. split; [reflexivity|]. split; [reflexivity|].
  intros idx Hidx. unfold row_at at 1. cbn [shape]. rewrite last_dim_snoc.
  unfold row_at at 3. rewrite Hs, last_dim_snoc, map_map.
  apply map_ext_in. intros j Hj. apply in_seq in Hj.
  rewrite get_tabulate by (apply valid_index_snoc; [assumption | lia]).
  rewrite bproj_same by (apply valid_index_snoc; [assumption | lia]).
  rewrite bproj_keepdim by assumption.
  f_equal. unfold get at 1. cbn [shape data].
  rewrite offset_snoc by assumption. rewrite Nat.mul_1_r, Nat.add_0_r.
  change (nth (offset sh idx)
              (map (fun idx0 => norm2 (row_at szero t idx0)) (indices sh)) szero)
    with (get szero (mkTensor sh (map (fun idx0 => norm2 (row_at szero t idx0)) (indices sh)))
              idx).
  now rewrite get_tabulate.
Qed.

End NormalizeFacts.

(** Over the reals a row divided by its non-zero norm has norm one. *)
Lemma sum_squares_nonneg (l : list R) (acc : R) :
  (0 <= acc)%R -> (0 <= fold_left Rplus (map (fun x : R => (x * x)%R) l) acc)%R.
Proof.
  revert acc. induction l as [|x l IH]; intros acc Hacc; cbn [map fold_left]; [assumption|].
  apply IH. nra.
Qed.

Lemma sum_squares_scaled (l : list R) (n acc : R) :
  n <> 0%R ->
  fold_left Rplus (map (fun x : R => (x * x)%R) (map (fun x : R => (x / n)%R) l))
            (acc / (n * n))%R
  = (fold_left Rplus (map (fun x : R => (x * x)%R) l) acc / (n * n))%R.
Proof.
  intros Hn. revert acc. induction l as [|x l IH]; intros acc; cbn [map fold_left];
    [reflexivity|].
  replace (acc / (n * n) + x / n * (x / n))%R with ((acc + x * x) / (n * n))%R
    by (field; assumption).
  apply IH.
Qed.

Lemma norm2_of_normalized (row : list R) :
  norm2 row <> 0%R ->
  norm2 (map (fun x => sdiv x (norm2 row)) row) = 1%R.
Proof.
  intros Hn. set (n := norm2 row) in *.
  unfold norm2 at 1, sum_list. cbn [sdiv smul sadd szero ssqrt R_scalar].
  replace 0%R with (0 / (n * n))%R at 1 by (field; assumption).
  rewrite sum_squares_scaled by assumption.
  assert (Hsq : (n * n = fold_left Rplus (map (fun x : R => (x * x)%R) row) 0)%R).
  { subst n. unfold norm2, sum_list. cbn [smul sadd szero ssqrt R_scalar].
    apply sqrt_sqrt, sum_squares_nonneg. lra. }
  rewrite <- Hsq.
  replace (n * n / (n * n))%R with 1%R by (field; assumption).
  apply sqrt_1.
Qed.

Lemma normalize_normalized_from (raw t : tensor R) :
  normalize raw = Ok t -> normalized_from raw t.
Proof.
  intros Hn. split; [assumption|].
  intros sh D idx Hs Hidx Hnz.
  destruct (@normalize_rows R R_scalar raw sh D Hs) as (t1 & Hn1 & _ & Hrows).
  rewrite Hn in Hn1. injection Hn1 as <-.
  rewrite Hrows by assumption. now apply norm2_of_normalized.
Qed.

Lemma mapM_normalize_from (raws ts : list (tensor R)) :
  mapM normalize raws = Ok ts -> Forall2 normalized_from raws ts.
Proof.
  intros H. apply mapM_inv in H.
  eapply Forall2_impl; [|exact H]. intros raw t. apply normalize_normalized_from.
Qed.

(** C9 (as amended).  Every entity key and class-name embedding that the
    constructor stores, the image embedding and the text embeddings of
    [CLIP.forward] are the encoder output divided by its own L2 norm along
    the last dimension, and each such embedding whose norm before the
    division is not zero has L2 norm 1 (exactly, in real arithmetic). *)
Theorem embeddings_normalized (tokenizer : Tokenizer) (device_count : nat)
        (normal_ : nat -> R) (args : Args) (class_names : list string)
        (clip_model : ClipModel.t R) (entities : list string) (text_prompt n_ctx : Z)
        (m self : CLIP.t R) (image image_features text_features : tensor R)
        (indexs : tensor nat) :
  (CLIP.init tokenizer device_count normal_ args class_names clip_model
             entities text_prompt n_ctx = Ok m ->
   exists module key_tokens name_tokens keys_raw names_raw,
     module_of (CLIP.text_encoder m) = Ok module /\
     CLIP.tokenize_each tokenizer device_count entities = Ok key_tokens /\
     CLIP.tokenize_each tokenizer device_count class_names = Ok name_tokens /\
     TextEncoder.encode_text module key_tokens = Ok keys_raw /\
     TextEncoder.encode_text module name_tokens = Ok names_raw /\
     Forall2 normalized_from keys_raw (CLIP.entity_keys m) /\
     Forall2 normalized_from names_raw (CLIP.name_embeddings m)) /\
  (CLIP.forward_image_features self image = Ok image_features ->
   exists raw,
     CLIP.image_encoder self image = Ok raw /\
     normalized_from raw image_features) /\
  (CLIP.forward_text_features self indexs = Ok text_features ->
   exists prompts raw,
     PromptLearner.forward (CLIP.prompt_learner self) indexs = Ok prompts /\
     call_encoder (CLIP.text_encoder self) prompts = Ok raw /\
     normalized_from raw text_features).
Proof.
  split; [|split].
  - unfold CLIP.init. intros H. cbv zeta in H.
    repeat bind_inv H.
    injection H as <-. cbn [CLIP.text_encoder CLIP.entity_keys CLIP.name_embeddings].
    do 5 eexists. repeat (split; [first [eassumption | reflexivity]|]).
    split; apply mapM_normalize_from; eassumption.
  - unfold CLIP.forward_image_features. intros H. bind_inv H.
    eexists. split; [reflexivity | now apply normalize_normalized_from].
  - unfold CLIP.forward_text_features. intros H. bind_inv H. bind_inv H.
    do 2 eexists. split; [reflexivity|]. split; [eassumption|].
    now apply normalize_normalized_from.
Qed.

Section NormalizeRuns.

Context {T : Type} {S : Scalar T}.
Variables e p c w1 w2 a b s : T.
Variable normal_ : nat -> T.

(** The image embedding of the small classifier before and after the
    division by its norm. *)
Lemma small_run_image_features :
  exists m n,
    small_clip e p c w1 w2 a b s normal_ 2 12 12 = Ok m /\
    CLIP.image_encoder m (small_images 1 a) = Ok (mkTensor [1; 2] [a; b]) /\
    CLIP.forward_image_features m (small_images 1 a)
    = Ok (mkTensor [1; 2] [sdiv a n; sdiv b n]).
Proof.
  do 2 eexists.
  split; [vm_compute; reflexivity|].
  split; [reflexivity|].
  vm_compute. reflexivity.
Qed.

Lemma row_at_pair (x y : T) : row_at szero (mkTensor [1; 2] [x; y]) [0] = [x; y].
Proof. reflexivity. Qed.

End NormalizeRuns.

Lemma norm2_3_4 : norm2 [3%R; 4%R] <> 0%R.
Proof.
  unfold norm2, sum_list. cbn [map fold_left smul sadd szero ssqrt R_scalar].
  assert (H : (0 < sqrt (0 + 3 * 3 + 4 * 4))%R) by (apply sqrt_lt_R0; lra).
  lra.
Qed.

Lemma embeddings_normalized_witness :
  exists m raw image_features,
    small_clip_R 2 12 12 = Ok m /\
    CLIP.image_encoder m (small_images 1 3%R) = Ok raw /\
    norm2 (row_at 0%R raw [0]) <> 0%R /\
    normalized_from raw image_features /\
    norm2 (row_at 0%R image_features [0]) = 1%R.
Proof.
  destruct (@small_run_image_features R R_scalar 1%R 0%R 1%R 3%R 4%R 3%R 4%R 0%R INR)
    as (m & n & Hm & Hraw & Hf).
  exists m, (mkTensor [1; 2] [3%R; 4%R]), (mkTensor [1; 2] [sdiv 3%R n; sdiv 4%R n]).
  split; [exact Hm|]. split; [exact Hraw|].
  assert (Hnz : norm2 (row_at 0%R (mkTensor [1; 2] [3%R; 4%R]) [0]) <> 0%R).
  { change (row_at 0%R (mkTensor [1; 2] [3%R; 4%R]) [0])
      with (row_at (szero (T := R)) (mkTensor [1; 2] [3%R; 4%R]) [0]).
    rewrite row_at_pair. exact norm2_3_4. }
  split; [exact Hnz|].
  destruct (proj1 (proj2 (@embeddings_normalized char_tokenizer 2 INR (mkArgs 1)
                            (class_names_of 12)
                            (small_model 1%R 0%R 1%R 3%R 4%R 3%R 4%R 0%R)
                            ["red"%string] 1 12 m m (small_images 1 3%R)
                            (mkTensor [1; 2] [sdiv 3%R n; sdiv 4%R n])
                            (mkTensor [1; 2] [sdiv 3%R n; sdiv 4%R n])
                            (mkTensor [1; 1] [0]))) Hf)
    as (raw & Hraw' & Hnorm).
  rewrite Hraw in Hraw'. injection Hraw' as <-.
  split; [exact Hnorm|].
  exact (proj2 Hnorm [1] 2 [0] eq_refl ltac:(repeat constructor) Hnz).
Defined.

(** C9 as stated fails for an embedding of norm zero: an image encoded as
    the zero vector stays the zero vector (0/0 in floating point is not a
    number), and its norm is not 1. *)
Lemma zero_embedding_not_unit :
  exists m image_features,
    small_clip 1%R 0%R 1%R 3%R 4%R 0%R 0%R 0%R INR 2 12 12 = Ok m /\
    CLIP.image_encoder m (small_images 1 0%R) = Ok (mkTensor [1; 2] [0%R; 0%R]) /\
    CLIP.forward_image_features m (small_images 1 0%R) = Ok image_features /\
    norm2 (row_at 0%R image_features [0]) <> 1%R.
Proof.
  destruct (@small_run_image_features R R_scalar 1%R 0%R 1%R 3%R 4%R 0%R 0%R 0%R INR)
    as (m & n & Hm & Hraw & Hf).
  exists m, (mkTensor [1; 2] [sdiv 0%R n; sdiv 0%R n]).
  split; [exact Hm|]. split; [exact Hraw|]. split; [exact Hf|].
  change (row_at 0%R (mkTensor [1; 2] [sdiv 0%R n; sdiv 0%R n]) [0])
    with (row_at (szero (T := R)) (mkTensor [1; 2] [sdiv 0%R n; sdiv 0%R n]) [0]).
  rewrite row_at_pair.
  unfold norm2, sum_list. cbn [map fold_left smul sadd sdiv szero ssqrt R_scalar].
  replace (0 + 0 / n * (0 / n) + 0 / n * (0 / n))%R with 0%R by (unfold Rdiv; ring).
  rewrite sqrt_0. lra.
Qed.

(** ** The logits *)

Section LogitsFacts.

Context {T : Type} {S : Scalar T}.

Lemma broadcast_unsqueezed (B C D : nat) :
  broadcast_shapes [B; 1; D] [B; C; D] = Some [B; C; D].
Proof.
  unfold broadcast_shapes. cbn [rev app broadcast_rev].
  rewrite !Nat.eqb_refl. destruct (1 =? C) eqn:E; [|reflexivity].
  apply Nat.eqb_eq in E. now subst C.
Qed.

Lemma bproj_unsqueezed (B D b c d : nat) :
  b < B -> d < D ->
  offset [B; 1; D] (bproj [B; 1; D] [b; c; d]) = b * D + d.
Proof.
  intros Hb Hd. unfold bproj. cbn [length Nat.sub skipn combine map fst snd Nat.eqb].
  destruct (Nat.eqb_spec B 1), (Nat.eqb_spec D 1); cbn [offset numel fold_right]; nia.
Qed.

(** With [n_class] text embeddings of dimension [D] per image, the logit of
    image [b] and class [c] is the exponentiated scale times the dot product
    of the two embeddings. *)
Lemma forward_logits_entries (self : CLIP.t T) (image_features text_features : tensor T)
      (B D : nat) :
  shape image_features = [B; D] ->
  numel (shape text_features) = B * CLIP.n_class self * D ->
  B * CLIP.n_class self <> 0 ->
  exists logits,
    CLIP.forward_logits self image_features text_features
    = Ok (logits, mkTensor [B; 1; D] (data image_features)) /\
    shape logits = [B; CLIP.n_class self] /\
    forall b c, b < B -> c < CLIP.n_class self ->
      get szero logits [b; c]
      = smul (sexp (CLIP.logit_scale self))
             (sum_list
                (map (fun d => smul (nth (b * D + d) (data image_features) szero)
                                    (nth ((b * CLIP.n_class self + c) * D + d)
                                         (data text_features) szero))
                     (seq 0 D))).
Proof.
  intros Hi Ht Hne. set (C := CLIP.n_class self) in *.
  unfold CLIP.forward_logits, shape_at. rewrite Hi. cbn [nth_error bind].
  fold C. rewrite view_classes.
  destruct (Nat.eqb_spec (B * C) 0) as [|_]; [contradiction|].
  assert (Hmod : numel (shape text_features) mod (B * C) = 0)
    by (rewrite Ht, (Nat.mul_comm (B * C) D); apply Nat.Div0.mod_mul).
  assert (Hdiv : numel (shape text_features) / (B * C) = D)
    by (rewrite Ht, (Nat.mul_comm (B * C) D); now apply Nat.div_mul).
  rewrite Hmod, Hdiv. cbn [Nat.eqb bind].
  unfold unsqueeze1. rewrite Hi. cbn [bind].
  unfold broadcast2. cbn [shape]. rewrite broadcast_unsqueezed. cbn [bind fst snd].
  eexists. split; [reflexivity|]. split; [reflexivity|].
  intros b c Hb Hc.
  unfold scale, sum_last. cbn [shape data removelast]. rewrite map_map.
  rewrite get_tabulate by (repeat constructor; assumption).
  f_equal. f_equal. unfold row_at. cbn [shape]. unfold last_dim. cbn [last].
  apply map_ext_in. intros d Hd. apply in_seq in Hd. cbn [app].
  rewrite get_tabulate by (repeat constructor; [assumption | assumption | lia]).
  rewrite (@bproj_same [B; C; D] [b; c; d])
    by (repeat constructor; [assumption | assumption | lia]).
  f_equal.
  - unfold get. cbn [shape data]. rewrite bproj_unsqueezed by lia. reflexivity.
  - unfold get. cbn [shape data offset numel fold_right]. f_equal. lia.
Qed.

End LogitsFacts.

Section LogitsRuns.

Context {T : Type} {S : Scalar T}.
Variables e p c w1 w2 a b s : T.
Variable normal_ : nat -> T.

(** Twelve classes and one image: [forward] returns. *)
Lemma small_run_12_classes :
  exists m image_features text_features out,
    small_clip e p c w1 w2 a b s normal_ 2 12 12 = Ok m /\
    CLIP.n_class m = 12 /\
    CLIP.logit_scale m = s /\
    CLIP.forward_image_features m (small_images 1 a) = Ok image_features /\
    shape image_features = [1; 2] /\
    CLIP.forward_select topk_low m image_features = Ok (mkTensor [1; 1] [0]) /\
    CLIP.forward_text_features m (mkTensor [1; 1] [0]) = Ok text_features /\
    shape text_features = [1; 12; 2] /\
    CLIP.forward topk_low m (small_images 1 a) = Ok out.
Proof.
  do 4 eexists.
  split; [vm_compute; reflexivity|].
  split; [reflexivity|].
  split; [reflexivity|].
  split; [vm_compute; reflexivity|].
  split; [reflexivity|].
  split; [vm_compute; reflexivity|].
  split; [vm_compute; reflexivity|].
  split; [reflexivity|].
  vm_compute. reflexivity.
Qed.

End LogitsRuns.

(** ** The logits as scaled cosine similarities *)

Lemma index_of_offset (s : list nat) (k : nat) :
  k < numel s -> exists idx, valid_index s idx /\ offset s idx = k.
Proof.
  revert k. induction s as [|d s IH]; intros k Hk.
  - exists []. split; [constructor|]. cbn in *. lia.
  - cbn [numel fold_right] in Hk. fold (numel s) in Hk.
    assert (Hm : numel s <> 0) by (intros Hz; rewrite Hz in Hk; lia).
    destruct (IH (k mod numel s)) as [idx [Hv Ho]];
      [now apply Nat.mod_upper_bound|].
    exists (k / numel s :: idx). split.
    + constructor; [|exact Hv].
      apply Nat.Div0.div_lt_upper_bound. lia.
    + cbn [offset]. rewrite Ho.
      pose proof (Nat.div_mod_eq k (numel s)). lia.
Qed.

Section CosineFacts.

Context {T : Type} {S : Scalar T}.

Lemma nth_embedding (t : tensor T) (D k d : nat) :
  d < D -> nth d (embedding t D k) szero = nth (k * D + d) (data t) szero.
Proof.
  intros Hd. unfold embedding.
  rewrite (nth_indep _ szero (nth (k * D + 0) (data t) szero))
    by (rewrite length_map, length_seq; assumption).
  rewrite (map_nth (fun d0 => nth (k * D + d0) (data t) szero)).
  now rewrite seq_nth.
Qed.

Lemma embedding_length (t : tensor T) (D k : nat) : length (embedding t D k) = D.
Proof. unfold embedding. now rewrite length_map, length_seq. Qed.

Lemma row_at_embedding (t : tensor T) (sh idx : list nat) (D : nat) :
  shape t = sh ++ [D] ->
  valid_index sh idx ->
  row_at szero t idx = embedding t D (offset sh idx).
Proof.
  intros Hs Hv. unfold row_at, embedding. rewrite Hs, last_dim_snoc.
  apply map_ext. intros d. unfold get. rewrite Hs.
  now rewrite offset_snoc.
Qed.

Lemma l2_normalized_length (v : list T) : length (l2_normalized v) = length v.
Proof. unfold l2_normalized. now rewrite length_map. Qed.

Lemma nth_l2_normalized (v : list T) (d : nat) :
  d < length v ->
  nth d (l2_normalized v) szero = sdiv (nth d v szero) (norm2 v).
Proof.
  intros Hd. unfold l2_normalized.
  rewrite (nth_indep _ szero (sdiv szero (norm2 v))) by (now rewrite length_map).
  apply (map_nth (fun x => sdiv x (norm2 v))).
Qed.

(** The entries of [t / t.norm(dim=-1, keepdim=True)], embedding by
    embedding. *)
Lemma normalize_entries (t t' : tensor T) (sh : list nat) (D k d : nat) :
  shape t = sh ++ [D] ->
  normalize t = Ok t' ->
  k < numel sh -> d < D ->
  shape t' = sh ++ [D] /\
  nth (k * D + d) (data t') szero = nth d (l2_normalized (embedding t D k)) szero.
Proof.
  intros Hs Hn Hk Hd.
  destruct (@normalize_rows T S t sh D Hs) as [t'' [Hn' [Hs' Hrows]]].
  rewrite Hn in Hn'. injection Hn' as <-.
  split; [exact Hs'|].
  destruct (@index_of_offset sh k Hk) as [idx [Hv Ho]].
  specialize (Hrows idx Hv).
  rewrite (@row_at_embedding t' sh idx D Hs' Hv) in Hrows.
  rewrite (@row_at_embedding t sh idx D Hs Hv) in Hrows.
  rewrite Ho in Hrows.
  rewrite <- nth_embedding by assumption.
  rewrite Hrows. reflexivity.
Qed.

End CosineFacts.

(** C5 (as amended).  When [CLIP.forward] returns, the image encoder gave
    embeddings of shape [[B; D]] and the text encoder gave, for each image,
    [n_class] embeddings of that dimension [D], the logit of image [b] and
    class [c] is the exponentiated scale factor times the sum over the
    embedding dimension of the products of the entries of the image
    embedding divided by its L2 norm and of the class's text embedding
    divided by its L2 norm, that is, the scaled cosine similarity of the
    two; the second result is the image embedding divided by its norm,
    unsqueezed. *)
Theorem forward_logits_scaled_cosine (T : Type) (S : Scalar T)
        (topk_row : list T -> nat -> list nat) (self : CLIP.t T)
        (image : tensor T) (out : tensor T * tensor T * tensor T)
        (B D : nat) (sh : list nat) :
  CLIP.forward topk_row self image = Ok out ->
  exists raw_image image_features indexs prompts raw_text,
    CLIP.image_encoder self image = Ok raw_image /\
    normalize raw_image = Ok image_features /\
    CLIP.forward_select topk_row self image_features = Ok indexs /\
    PromptLearner.forward (CLIP.prompt_learner self) indexs = Ok prompts /\
    call_encoder (CLIP.text_encoder self) prompts = Ok raw_text /\
    (shape raw_image = [B; D] ->
     shape raw_text = sh ++ [D] ->
     numel sh = B * CLIP.n_class self ->
     shape (fst (fst out)) = [B; CLIP.n_class self] /\
     shape (snd (fst out)) = [B; 1; D] /\
     (forall b d, b < B -> d < D ->
        get szero (snd (fst out)) [b; 0; d]
        = nth d (l2_normalized (embedding raw_image D b)) szero) /\
     forall b c, b < B -> c < CLIP.n_class self ->
       get szero (fst (fst out)) [b; c]
       = smul (sexp (CLIP.logit_scale self))
              (dot (l2_normalized (embedding raw_image D b))
                   (l2_normalized (embedding raw_text D (b * CLIP.n_class self + c))))).
Proof.
  unfold CLIP.forward, CLIP.forward_image_features, CLIP.forward_text_features.
  intros H. bind_inv_all. injection H as <-. cbn [fst snd].
  match goal with
  | E1 : CLIP.image_encoder self image = Ok ?ri,
    E2 : normalize ?ri = Ok ?fi,
    E3 : call_encoder _ _ = Ok ?rt,
    E4 : normalize ?rt = Ok ?ft,
    E5 : CLIP.forward_logits self ?fi ?ft = Ok ?o |- _ =>
      rename ri into raw_image; rename fi into image_features;
      rename rt into raw_text; rename ft into text_features;
      rename E2 into Hni; rename E4 into Hnt; rename E5 into Hlog
  end.
  exists raw_image, image_features.
  do 3 eexists. do 5 (split; [first [eassumption | reflexivity]|]).
  intros Hri Hrt Hsh. set (C := CLIP.n_class self) in *.
  assert (Hi : shape image_features = [B; D]).
  { destruct (@normalize_rows T S raw_image [B] D Hri) as [t [Ht [Hs _]]].
    rewrite Hni in Ht. now injection Ht as <-. }
  assert (Ht : shape text_features = sh ++ [D]).
  { destruct (@normalize_rows T S raw_text sh D Hrt) as [t [Ht [Hs _]]].
    rewrite Hnt in Ht. now injection Ht as <-. }
  assert (Hnum : numel (shape text_features) = B * C * D)
    by (rewrite Ht, numel_snoc, Hsh; reflexivity).
  assert (Hne : B * C <> 0).
  { intros Hz. revert Hlog. unfold CLIP.forward_logits, shape_at.
    rewrite Hi. cbn [nth_error bind]. fold C. rewrite view_classes, Hz. discriminate. }
  destruct (@forward_logits_entries T S self image_features text_features B D Hi Hnum Hne)
    as (logits & Hl & Hs & He).
  rewrite Hlog in Hl. injection Hl as ->. cbn [fst snd].
  split; [exact Hs|]. split; [reflexivity|]. split.
  - intros b d Hb Hd. unfold get. cbn [shape data offset numel fold_right].
    replace (b * (1 * (D * 1)) + (0 * (D * 1) + (d * 1 + 0))) with (b * D + d) by lia.
    apply (@normalize_entries T S raw_image image_features [B] D b d Hri Hni); [cbn; lia | assumption].
  - intros b c Hb Hc. rewrite (He b c Hb Hc). f_equal.
    unfold dot. rewrite l2_normalized_length, embedding_length.
    f_equal. apply map_ext_in. intros d Hd. apply in_seq in Hd. f_equal.
    + apply (@normalize_entries T S raw_image image_features [B] D b d Hri Hni); [cbn; lia | lia].
    + apply (@normalize_entries T S raw_text text_features sh D (b * C + c) d Hrt Hnt); [|lia].
      rewrite Hsh. nia.
Qed.

Section CosineRuns.

Context {T : Type} {S : Scalar T}.
Variables e p c w1 w2 a b s : T.
Variable normal_ : nat -> T.

(** Twelve classes and one image: what the two encoders return, and that
    [forward] returns. *)
Lemma small_run_12_raw :
  exists m out image_features prompts,
    small_clip e p c w1 w2 a b s normal_ 2 12 12 = Ok m /\
    CLIP.n_class m = 12 /\
    CLIP.logit_scale m = s /\
    CLIP.image_encoder m (small_images 1 a) = Ok (mkTensor [1; 2] [a; b]) /\
    normalize (mkTensor [1; 2] [a; b]) = Ok image_features /\
    CLIP.forward_select topk_low m image_features = Ok (mkTensor [1; 1] [0]) /\
    PromptLearner.forward (CLIP.prompt_learner m) (mkTensor [1; 1] [0]) = Ok prompts /\
    call_encoder (CLIP.text_encoder m) prompts
    = Ok (mkTensor [1; 12; 2]
            (concat (repeat [sadd szero (smul c w1); sadd szero (smul c w2)] 12))) /\
    CLIP.forward topk_low m (small_images 1 a) = Ok out.
Proof.
  do 4 eexists.
  split; [vm_compute; reflexivity|].
  split; [reflexivity|].
  split; [reflexivity|].
  split; [reflexivity|].
  split; [vm_compute; reflexivity|].
  split; [vm_compute; reflexivity|].
  split; [vm_compute; reflexivity|].
  split; [vm_compute; reflexivity|].
  vm_compute. reflexivity.
Qed.

(** Twenty-four classes: the same twelve text embeddings, viewed as
    twenty-four of dimension one; the logit of class 1. *)
Lemma small_run_24_raw :
  exists m out image_features prompts,
    small_clip e p c w1 w2 a b s normal_ 2 24 12 = Ok m /\
    CLIP.n_class m = 24 /\
    CLIP.logit_scale m = s /\
    CLIP.image_encoder m (small_images 1 a) = Ok (mkTensor [1; 2] [a; b]) /\
    normalize (mkTensor [1; 2] [a; b]) = Ok image_features /\
    CLIP.forward_select topk_low m image_features = Ok (mkTensor [1; 1] [0]) /\
    PromptLearner.forward (CLIP.prompt_learner m) (mkTensor [1; 1] [0]) = Ok prompts /\
    call_encoder (CLIP.text_encoder m) prompts
    = Ok (mkTensor [1; 12; 2]
            (concat (repeat [sadd szero (smul c w1); sadd szero (smul c w2)] 12))) /\
    CLIP.forward topk_low m (small_images 1 a) = Ok out /\
    get szero (fst (fst out)) [0; 1]
    = let n_image := ssqrt (sadd (sadd szero (smul a a)) (smul b b)) in
      let t1 := sadd szero (smul c w1) in
      let t2 := sadd szero (smul c w2) in
      let n_text := ssqrt (sadd (sadd szero (smul t1 t1)) (smul t2 t2)) in
      smul (sexp s)
           (sadd (sadd szero (smul (sdiv a n_image) (sdiv t2 n_text)))
                 (smul (sdiv b n_image) (sdiv t2 n_text))).
Proof.
  do 4 eexists.
  split; [vm_compute; reflexivity|].
  split; [reflexivity|].
  split; [reflexivity|].
  split; [reflexivity|].
  split; [vm_compute; reflexivity|].
  split; [vm_compute; reflexivity|].
  split; [vm_compute; reflexivity|].
  split; [vm_compute; reflexivity|].
  split; [vm_compute; reflexivity|].
  vm_compute. reflexivity.
Qed.

Lemma embedding_of_repeat (x y : T) (k : nat) :
  k < 12 ->
  embedding (mkTensor [1; 12; 2] (concat (repeat [x; y] 12))) 2 k = [x; y].
Proof.
  intros Hk.
  do 12 (destruct k as [|k]; [reflexivity|]). lia.
Qed.

End CosineRuns.

Lemma sqrt_3_4 : sqrt (0 + 3 * 3 + 4 * 4) = 5%R.
Proof.
  replace (0 + 3 * 3 + 4 * 4)%R with (5 * 5)%R by lra.
  apply sqrt_square. lra.
Qed.

Lemma sqrt_3_4_text :
  sqrt (0 + (0 + 1 * 3) * (0 + 1 * 3) + (0 + 1 * 4) * (0 + 1 * 4)) = 5%R.
Proof.
  replace (0 + (0 + 1 * 3) * (0 + 1 * 3) + (0 + 1 * 4) * (0 + 1 * 4))%R
    with (5 * 5)%R by lra.
  apply sqrt_square. lra.
Qed.

(** The scaled cosine similarity of the image embedding [[3; 4]] and the
    text embedding [[3; 4]] of the small classifier. *)
Lemma small_cosine :
  (exp 0 * dot (l2_normalized [3; 4]) (l2_normalized [0 + 1 * 3; 0 + 1 * 4]) = exp 0 * 1)%R.
Proof.
  unfold dot, l2_normalized, norm2, sum_list.
  cbn [map length seq nth fold_left smul sadd sdiv szero ssqrt R_scalar].
  rewrite sqrt_3_4, sqrt_3_4_text. f_equal. field.
Qed.

Lemma forward_logits_scaled_cosine_witness :
  exists m out,
    small_clip_R 2 12 12 = Ok m /\
    CLIP.forward topk_low m (small_images 1 3%R) = Ok out /\
    CLIP.image_encoder m (small_images 1 3%R) = Ok (mkTensor [1; 2] [3%R; 4%R]) /\
    shape (fst (fst out)) = [1; 12] /\
    shape (snd (fst out)) = [1; 1; 2] /\
    forall c, c < 12 ->
      get 0%R (fst (fst out)) [0; c]
      = Rmult (exp 0%R)
              (dot (l2_normalized (embedding (mkTensor [1; 2] [3%R; 4%R]) 2 0))
                   (l2_normalized
                      (embedding
                         (mkTensor [1; 12; 2]
                            (concat (repeat [(0 + 1 * 3)%R; (0 + 1 * 4)%R] 12)))
                         2 (0 * 12 + c)))).
Proof.
  destruct (@small_run_12_raw R R_scalar 1%R 0%R 1%R 3%R 4%R 3%R 4%R 0%R INR)
    as (m & out & image_features & prompts
        & Hm & Hn & Hscale & Hraw & Hnorm & Hsel & Hp & Htext & Hout).
  exists m, out.
  split; [exact Hm|]. split; [exact Hout|]. split; [exact Hraw|].
  destruct (@forward_logits_scaled_cosine R R_scalar topk_low m (small_images 1 3%R)
              out 1 2 [1; 12] Hout)
    as (raw_image & image_features' & indexs & prompts' & raw_text
        & H1 & H2 & H3 & H4 & H5 & Hlogits).
  rewrite Hraw in H1. injection H1 as <-.
  assert (image_features' = image_features) by congruence. subst image_features'.
  assert (indexs = mkTensor [1; 1] [0]) by congruence. subst indexs.
  assert (prompts' = prompts) by congruence. subst prompts'.
  rewrite Htext in H5. injection H5 as <-.
  destruct (Hlogits eq_refl eq_refl) as (Hs1 & Hs2 & _ & Hentries).
  { rewrite Hn. reflexivity. }
  rewrite Hn in *.
  split; [exact Hs1|]. split; [exact Hs2|].
  rewrite Hscale in Hentries.
  intros c Hc. exact (Hentries 0 c Nat.lt_0_1 Hc).
Defined.

(** C5 as stated fails when the text features do not hold [n_class]
    embeddings of the image's dimension: with twelve text embeddings of
    dimension two and twenty-four classes the reshape succeeds, and the
    logit of class 1 is 28/25 times the exponentiated scale, while the
    scaled cosine similarity of the image embedding with each of the twelve
    text embeddings is the exponentiated scale itself. *)
Lemma forward_logit_not_cosine :
  exists m out,
    small_clip_R 2 24 12 = Ok m /\
    CLIP.n_class m = 24 /\
    CLIP.logit_scale m = 0%R /\
    CLIP.forward topk_low m (small_images 1 3%R) = Ok out /\
    exists image_features prompts,
      CLIP.image_encoder m (small_images 1 3%R) = Ok (mkTensor [1; 2] [3%R; 4%R]) /\
      normalize (mkTensor [1; 2] [3%R; 4%R]) = Ok image_features /\
      CLIP.forward_select topk_low m image_features = Ok (mkTensor [1; 1] [0]) /\
      PromptLearner.forward (CLIP.prompt_learner m) (mkTensor [1; 1] [0]) = Ok prompts /\
      call_encoder (CLIP.text_encoder m) prompts
      = Ok (mkTensor [1; 12; 2] (concat (repeat [(0 + 1 * 3)%R; (0 + 1 * 4)%R] 12))) /\
      get 0%R (fst (fst out)) [0; 1] = (exp 0 * (28 / 25))%R /\
      forall k, k < 12 ->
        get 0%R (fst (fst out)) [0; 1]
        <> Rmult (exp 0%R)
                 (dot (l2_normalized (embedding (mkTensor [1; 2] [3%R; 4%R]) 2 0))
                      (l2_normalized
                         (embedding
                            (mkTensor [1; 12; 2]
                               (concat (repeat [(0 + 1 * 3)%R; (0 + 1 * 4)%R] 12)))
                            2 k))).
Proof.
  destruct (@small_run_24_raw R R_scalar 1%R 0%R 1%R 3%R 4%R 3%R 4%R 0%R INR)
    as (m & out & image_features & prompts
        & Hm & Hn & Hscale & Hraw & Hnorm & Hsel & Hp & Htext & Hout & Hlogit).
  exists m, out.
  do 4 (split; [assumption|]).
  exists image_features, prompts.
  do 5 (split; [assumption|]).
  assert (Hvalue : get 0%R (fst (fst out)) [0; 1] = (exp 0 * (28 / 25))%R).
  { etransitivity; [exact Hlogit|].
    cbv zeta. cbn [smul sadd sdiv szero ssqrt sexp R_scalar].
    rewrite sqrt_3_4, sqrt_3_4_text. f_equal. field. }
  split; [exact Hvalue|].
  intros k Hk. rewrite Hvalue.
  rewrite (@embedding_of_repeat R R_scalar (0 + 1 * 3)%R (0 + 1 * 4)%R k Hk).
  change (embedding (mkTensor [1; 2] [3%R; 4%R]) 2 0) with [3%R; 4%R].
  rewrite small_cosine.
  rewrite exp_0. lra.
Qed.

(** * Further properties *)

(** ** tokenize: when it returns, and what *)

Lemma map_nth_seq_id (A : Type) (l : list A) (d : A) :
  map (fun j => nth j l d) (seq 0 (length l)) = l.
Proof.
  induction l as [|x l IH]; [reflexivity|].
  cbn [length seq map nth]. f_equal.
  rewrite <- seq_shift, map_map. exact IH.
Qed.

Lemma first_rejected (A : Type) (ok : A -> bool) (l : list A) :
  forallb ok l = false ->
  exists pre x post, l = pre ++ x :: post /\ forallb ok pre = true /\ ok x = false.
Proof.
  induction l as [|a l IH]; cbn [forallb]; [discriminate|].
  destruct (ok a) eqn:Ea; cbn [andb]; intros H.
  - destruct (IH H) as (pre & x & post & -> & Hpre & Hx).
    exists (a :: pre), x, post. cbn [app forallb]. rewrite Ea. auto.
  - exists [], a, l. auto.
Qed.

Lemma concat_uniform_length (A : Type) (rows : list (list A)) (m : nat) :
  Forall (fun r => length r = m) rows -> length (concat rows) = length rows * m.
Proof.
  induction 1 as [|r rows Hr _ IH]; [reflexivity|].
  cbn [concat length]. rewrite length_app, Hr, IH. lia.
Qed.

Section TokenizeMore.

Variable tokenizer : Tokenizer.

Lemma accepted_spec cl truncate text :
  accepted tokenizer cl truncate text = true <->
  (too_long tokenizer cl text -> truncate = true /\ (0 < cl)%Z).
Proof.
  unfold accepted, too_long.
  destruct (Z.gtb_spec (Z.of_nat (length (wrapped tokenizer text))) cl) as [Hl|Hs];
    cbn [negb orb].
  - rewrite andb_true_iff, Z.ltb_lt. split; [auto | intros H; apply H; lia].
  - split; [intros _ H; lia | reflexivity].
Qed.

Lemma loop_body_accepted cl truncate text :
  (0 <= cl)%Z ->
  accepted tokenizer cl truncate text = true ->
  (tokens' <- fit_tokens tokenizer text (wrapped tokenizer text) cl truncate ;;
   assign_prefix (repeat 0%Z (Z.to_nat cl)) tokens')
  = Ok (padded_row tokenizer cl text).
Proof.
  intros Hcl Hacc0. pose proof (proj1 (accepted_spec cl truncate text) Hacc0) as Hacc.
  pose proof (wrapped_length tokenizer text) as Hw.
  destruct (Z.gtb_spec (Z.of_nat (length (wrapped tokenizer text))) cl) as [Hl|Hs].
  - assert (Hlong : too_long tokenizer cl text) by (unfold too_long; lia).
    destruct (Hacc Hlong) as [-> Hpos].
    apply loop_body_ok; [lia | auto | discriminate].
  - apply loop_body_ok; [lia | intros _; lia | intros _; unfold too_long; lia].
Qed.

Lemma tokenize_loop_accepted texts cl truncate :
  (0 <= cl)%Z ->
  forall (suffix prefix tail : list string) (done rest : list (list Z)),
    texts = prefix ++ suffix ++ tail ->
    length done = length prefix ->
    forallb (accepted tokenizer cl truncate) suffix = true ->
    tokenize_loop tokenizer texts (map (wrapped tokenizer) suffix) (length done) cl truncate
                  (done ++ repeat (repeat 0%Z (Z.to_nat cl)) (length suffix) ++ rest)
    = Ok (done ++ map (padded_row tokenizer cl) suffix ++ rest).
Proof.
  intros Hcl. induction suffix as [|text suffix IH];
    intros prefix tail done rest Ht Hlen Hacc.
  - reflexivity.
  - cbn [map tokenize_loop length repeat app forallb] in *.
    apply andb_true_iff in Hacc as [Hacc Hrest].
    rewrite Ht, Hlen, nth_middle_app, <- Hlen, nth_middle_app.
    pose proof (@loop_body_accepted cl truncate text Hcl Hacc) as Hbody.
    destruct (fit_tokens tokenizer text (wrapped tokenizer text) cl truncate) as [tokens'|e];
      cbn [bind] in *; [|discriminate].
    rewrite Hbody. cbn [bind]. rewrite set_nth_middle.
    specialize (IH (prefix ++ [text]) tail (done ++ [padded_row tokenizer cl text]) rest).
    rewrite !length_app in IH. cbn [length] in IH.
    rewrite Nat.add_1_r in IH. rewrite <- !app_assoc in IH. cbn [app] in IH.
    rewrite <- Ht. apply IH; [assumption | lia | assumption].
Qed.

Lemma tokenize_accepted texts cl truncate :
  (0 <= cl)%Z ->
  forallb (accepted tokenizer cl truncate) (texts_list texts) = true ->
  tokenize tokenizer texts cl truncate
  = Ok (mkTensor [length (texts_list texts); Z.to_nat cl]
                 (concat (map (padded_row tokenizer cl) (texts_list texts)))).
Proof.
  intros Hcl Hacc. unfold tokenize.
  destruct (Z.ltb_spec cl 0); [lia|].
  rewrite length_map.
  pose proof (@tokenize_loop_accepted (texts_list texts) cl truncate Hcl
                (texts_list texts) [] [] [] []) as H0.
  cbn [length app] in H0. rewrite !app_nil_r in H0. rewrite H0; auto.
Qed.

(** The first text that is not accepted stops the call. *)
Lemma tokenize_rejected texts pre post text cl truncate :
  (0 <= cl)%Z ->
  texts_list texts = pre ++ text :: post ->
  forallb (accepted tokenizer cl truncate) pre = true ->
  accepted tokenizer cl truncate text = false ->
  tokenize tokenizer texts cl truncate
  = Raise (if truncate
           then IndexError "list assignment index out of range"
           else RuntimeError ("Input " ++ text ++ " is too long for context length "
                                       ++ string_of_Z cl)%string).
Proof.
  intros Hcl Ht Hpre Hrej. unfold tokenize.
  destruct (Z.ltb_spec cl 0); [lia|].
  rewrite Ht, map_app, length_app, length_map. cbn [map length].
  rewrite tokenize_loop_app, repeat_app.
  pose proof (@tokenize_loop_accepted (pre ++ text :: post) cl truncate Hcl
                pre [] (text :: post) []
                (repeat (repeat 0%Z (Z.to_nat cl)) (length (map (wrapped tokenizer) post) + 1)))
    as H0.
  cbn [length app] in H0.
  rewrite length_map in *. replace (S (length post)) with (length post + 1) by lia.
  rewrite H0; auto. cbn [bind tokenize_loop]. rewrite length_map. cbn [Nat.add].
  rewrite nth_middle_app.
  unfold accepted in Hrej. apply orb_false_iff in Hrej as [Hlong Hno].
  apply negb_false_iff in Hlong.
  unfold fit_tokens. rewrite Hlong.
  destruct truncate; [|reflexivity].
  cbn [andb] in Hno. apply Z.ltb_ge in Hno.
  assert (cl = 0%Z) as -> by lia. reflexivity.
Qed.

End TokenizeMore.

(** X1.  [tokenize] returns a tensor exactly when [context_length] is not
    negative and every text whose wrapped tokens exceed it is truncated
    ([truncate=True]) to a positive [context_length]; in every other case it
    raises. *)
Theorem tokenize_returns_iff (tokenizer : Tokenizer) (texts : texts_arg)
        (context_length : Z) (truncate : bool) :
  (exists t, tokenize tokenizer texts context_length truncate = Ok t) <->
  (0 <= context_length)%Z /\
  Forall (fun text => too_long tokenizer context_length text ->
                      truncate = true /\ (0 < context_length)%Z)
         (texts_list texts).
Proof.
  split.
  - intros [t Ht].
    assert (Hcl : (0 <= context_length)%Z).
    { unfold tokenize in Ht. destruct (Z.ltb_spec context_length 0); [discriminate | lia]. }
    split; [exact Hcl|].
    destruct (forallb (accepted tokenizer context_length truncate) (texts_list texts)) eqn:E.
    + apply Forall_forall. intros text Hin. apply accepted_spec.
      rewrite forallb_forall in E. now apply E.
    + apply first_rejected in E as (pre & x & post & Hsplit & Hpre & Hx).
      rewrite (@tokenize_rejected tokenizer texts pre post x context_length truncate
                 Hcl Hsplit Hpre Hx) in Ht. discriminate.
  - intros [Hcl Hall]. eexists. apply tokenize_accepted; [assumption|].
    apply forallb_forall. intros text Hin. apply accepted_spec.
    rewrite Forall_forall in Hall. now apply Hall.
Qed.

(** X2.  Whenever [tokenize] returns, the result has one row per text and
    [context_length] entries per row, and row [i] depends on text [i] alone:
    the wrapped tokens followed by zeros when they fit, and otherwise the
    first [context_length - 1] wrapped tokens followed by the end token. *)
Theorem tokenize_rows (tokenizer : Tokenizer) (texts : texts_arg)
        (context_length : Z) (truncate : bool) (t : tensor Z) :
  tokenize tokenizer texts context_length truncate = Ok t ->
  shape t = [length (texts_list texts); Z.to_nat context_length] /\
  length (data t) = length (texts_list texts) * Z.to_nat context_length /\
  forall i text,
    nth_error (texts_list texts) i = Some text ->
    slice0 t i
    = if (Z.of_nat (length (wrapped tokenizer text)) >? context_length)%Z
      then firstn (Z.to_nat context_length - 1) (wrapped tokenizer text)
                  ++ [eot_token tokenizer]
      else wrapped tokenizer text
                   ++ repeat 0%Z (Z.to_nat context_length - length (wrapped tokenizer text)).
Proof.
  intros Ht.
  destruct (proj1 (tokenize_returns_iff tokenizer texts context_length truncate))
    as [Hcl Hall]; [now exists t|].
  assert (Hacc : forallb (accepted tokenizer context_length truncate) (texts_list texts) = true).
  { apply forallb_forall. intros text Hin. apply accepted_spec.
    rewrite Forall_forall in Hall. now apply Hall. }
  rewrite (@tokenize_accepted tokenizer texts context_length truncate Hcl Hacc) in Ht.
  injection Ht as <-.
  assert (Hrows : Forall (fun r => length r = Z.to_nat context_length)
                         (map (padded_row tokenizer context_length) (texts_list texts))).
  { apply Forall_forall. intros r Hr. apply in_map_iff in Hr as [text [<- Hin]].
    rewrite Forall_forall in Hall. specialize (Hall text Hin).
    unfold padded_row, too_long in *. pose proof (wrapped_length tokenizer text) as Hw.
    destruct (Z.gtb_spec (Z.of_nat (length (wrapped tokenizer text))) context_length).
    - assert (Hpos : (0 < context_length)%Z) by (apply Hall; lia).
      rewrite length_app, removelast_length, length_firstn. cbn [length]. lia.
    - rewrite length_app, repeat_length. lia. }
  split; [reflexivity|]. split.
  { cbn [data]. rewrite (concat_uniform_length Hrows), length_map. reflexivity. }
  intros i text Hi.
  assert (Hlt : i < length (texts_list texts)) by (apply nth_error_Some; congruence).
  unfold slice0. cbn [shape data tl numel fold_right]. rewrite Nat.mul_1_r.
  rewrite concat_row; [| exact Hrows | now rewrite length_map].
  rewrite (nth_indep _ [] (padded_row tokenizer context_length EmptyString))
    by (rewrite length_map; lia).
  rewrite map_nth, (nth_error_nth _ _ _ Hi).
  unfold padded_row.
  destruct (Z.gtb_spec (Z.of_nat (length (wrapped tokenizer text))) context_length) as [Hl|];
    [|reflexivity].
  f_equal.
  rewrite Forall_forall in Hall.
  assert (Hpos : (0 < context_length)%Z)
    by (apply (Hall text (nth_error_In _ _ Hi)); unfold too_long; lia).
  replace (Z.to_nat context_length) with (S (Z.to_nat context_length - 1)) at 1 by lia.
  apply removelast_firstn. lia.
Qed.

Lemma tokenize_rows_witness :
  exists t,
    tokenize char_tokenizer (TextList ["a photo"%string; "a photo of a dog"%string]) 10 true
    = Ok t /\
    (shape t = [length (texts_list (TextList ["a photo"%string; "a photo of a dog"%string]));
                Z.to_nat 10] /\
     length (data t)
     = length (texts_list (TextList ["a photo"%string; "a photo of a dog"%string]))
       * Z.to_nat 10 /\
     forall i text,
       nth_error (texts_list (TextList ["a photo"%string; "a photo of a dog"%string])) i
       = Some text ->
       slice0 t i
       = if (Z.of_nat (length (wrapped char_tokenizer text)) >? 10)%Z
         then firstn (Z.to_nat 10 - 1) (wrapped char_tokenizer text)
                     ++ [eot_token char_tokenizer]
         else wrapped char_tokenizer text
                      ++ repeat 0%Z (Z.to_nat 10 - length (wrapped char_tokenizer text))).
Proof.
  eexists. split; [vm_compute; reflexivity|].
  apply (@tokenize_rows char_tokenizer
           (TextList ["a photo"%string; "a photo of a dog"%string]) 10 true).
  vm_compute. reflexivity.
Defined.

(** X3.  With [truncate=True] and [context_length=0] every call on at least
    one text raises an index error: the wrapped tokens are cut to the empty
    list, whose last element is then assigned. *)
Theorem tokenize_truncate_to_zero (tokenizer : Tokenizer) (texts : texts_arg) :
  texts_list texts <> [] ->
  tokenize tokenizer texts 0 true
  = Raise (IndexError "list assignment index out of range").
Proof.
  intros Hne. destruct (texts_list texts) as [|text rest] eqn:E; [contradiction|].
  apply (@tokenize_rejected tokenizer texts [] rest text 0 true);
    [lia | exact E | reflexivity |].
  unfold accepted. pose proof (wrapped_length tokenizer text) as Hw.
  destruct (Z.gtb_spec (Z.of_nat (length (wrapped tokenizer text))) 0); [reflexivity | lia].
Qed.

Lemma tokenize_truncate_to_zero_witness :
  tokenize char_tokenizer (OneText "hello") 0 true
  = Raise (IndexError "list assignment index out of range").
Proof.
  apply (@tokenize_truncate_to_zero char_tokenizer (OneText "hello")).
  discriminate.
Defined.

(** ** The pooling position of encode_text *)

Lemma argmax_from_no_greater (m : Z) (post : list Z) (bi i : nat) :
  Forall (fun x => (x <= m)%Z) post ->
  argmax_from Z.ltb bi m i post = bi.
Proof.
  intros H. revert i. induction H as [|x post Hx _ IH]; intros i; cbn [argmax_from];
    [reflexivity|].
  destruct (Z.ltb_spec m x); [lia | apply IH].
Qed.

Lemma argmax_from_first_max (pre post : list Z) (m best : Z) (bi i : nat) :
  (best < m)%Z ->
  Forall (fun x => (x < m)%Z) pre ->
  Forall (fun x => (x <= m)%Z) post ->
  argmax_from Z.ltb bi best i (pre ++ m :: post) = i + length pre.
Proof.
  intros Hb Hpre Hpost. revert bi best i Hb.
  induction Hpre as [|x pre Hx _ IH]; intros bi best i Hb; cbn [app argmax_from length].
  - destruct (Z.ltb_spec best m); [|lia].
    rewrite argmax_from_no_greater by assumption. lia.
  - destruct (Z.ltb_spec best x).
    + rewrite IH by assumption. lia.
    + rewrite IH by assumption. lia.
Qed.

Lemma argmax_list_first_max (pre post : list Z) (m : Z) :
  Forall (fun x => (x < m)%Z) pre ->
  Forall (fun x => (x <= m)%Z) post ->
  argmax_list Z.ltb (pre ++ m :: post) = Some (length pre).
Proof.
  intros Hpre Hpost. destruct pre as [|x pre]; cbn [app argmax_list length].
  - now rewrite argmax_from_no_greater.
  - rewrite argmax_from_first_max; [reflexivity | | |assumption].
    + now inversion Hpre.
    + now inversion Hpre.
Qed.

Lemma In_firstn (A : Type) (n : nat) (l : list A) (x : A) :
  In x (firstn n l) -> In x l.
Proof.
  intros H. rewrite <- (firstn_skipn n l). apply in_or_app. now left.
Qed.

Lemma row_at_single_row (A : Type) (d : A) (row : list A) :
  row_at d (mkTensor [1; length row] row) [0] = row.
Proof.
  unfold row_at, get, last_dim. cbn [shape data last app offset numel fold_right].
  erewrite map_ext; [apply map_nth_seq_id|].
  intros j. cbn beta. f_equal. lia.
Qed.

(** X4.  For a single tokenized text whose content tokens and start token
    are all smaller than the end token, the position that [encode_text]
    pools at ([text.argmax(dim=-1)]) is the position of the end token: just
    after the content, or the last position of the row when the text was
    truncated. *)
Theorem pooling_position_is_end_token (tokenizer : Tokenizer) (text : string)
        (context_length : Z) (truncate : bool) (t : tensor Z) :
  tokenize tokenizer (OneText text) context_length truncate = Ok t ->
  Forall (fun tok => (tok < eot_token tokenizer)%Z) (encode tokenizer text) ->
  (sot_token tokenizer < eot_token tokenizer)%Z ->
  (0 <= eot_token tokenizer)%Z ->
  argmax_last 0%Z Z.ltb t
  = Ok (mkTensor [1] [Nat.min (S (length (encode tokenizer text)))
                              (Z.to_nat context_length - 1)]).
Proof.
  intros Ht Hcontent Hsot Hzero.
  destruct (proj1 (tokenize_returns_iff tokenizer (OneText text) context_length truncate))
    as [Hcl Hall]; [now exists t|].
  assert (Hacc : forallb (accepted tokenizer context_length truncate)
                         (texts_list (OneText text)) = true).
  { apply forallb_forall. intros x Hin. apply accepted_spec.
    rewrite Forall_forall in Hall. now apply Hall. }
  rewrite (@tokenize_accepted tokenizer (OneText text) context_length truncate Hcl Hacc) in Ht.
  injection Ht as <-. cbn [texts_list map concat length]. rewrite app_nil_r.
  pose proof (wrapped_length tokenizer text) as Hw.
  apply Forall_inv in Hall.
  assert (Hlen : length (padded_row tokenizer context_length text) = Z.to_nat context_length).
  { unfold padded_row, too_long in *.
    destruct (Z.gtb_spec (Z.of_nat (length (wrapped tokenizer text))) context_length).
    - assert (Hpos : (0 < context_length)%Z) by (apply Hall; lia).
      rewrite length_app, removelast_length, length_firstn. cbn [length]. lia.
    - rewrite length_app, repeat_length. lia. }
  rewrite <- Hlen.
  unfold argmax_last. cbn [shape removelast indices flat_map seq map app mapM].
  rewrite row_at_single_row.
  assert (Harg : argmax_list Z.ltb (padded_row tokenizer context_length text)
                 = Some (Nat.min (S (length (encode tokenizer text)))
                                 (length (padded_row tokenizer context_length text) - 1))).
  { rewrite Hlen. unfold padded_row, too_long in *.
    destruct (Z.gtb_spec (Z.of_nat (length (wrapped tokenizer text))) context_length).
    - assert (Hpos : (0 < context_length)%Z) by (apply Hall; lia).
      replace (Z.to_nat context_length) with (S (Z.to_nat context_length - 1)) at 1 by lia.
      rewrite removelast_firstn by lia.
      rewrite argmax_list_first_max.
      + rewrite length_firstn. f_equal. lia.
      + unfold wrapped. cbn [app].
        replace (sot_token tokenizer :: encode tokenizer text ++ [eot_token tokenizer])
          with ((sot_token tokenizer :: encode tokenizer text) ++ [eot_token tokenizer])
          by reflexivity.
        rewrite firstn_app.
        replace (Z.to_nat context_length - 1 - length (sot_token tokenizer :: encode tokenizer text))
          with 0 by (cbn [length]; lia).
        cbn [firstn]. rewrite app_nil_r.
        apply Forall_forall. intros x Hx. apply In_firstn in Hx.
        destruct Hx as [<-|Hx]; [assumption|].
        rewrite Forall_forall in Hcontent. now apply Hcontent.
      + constructor.
    - set (k := Z.to_nat context_length - length (wrapped tokenizer text)).
      assert (Heq : wrapped tokenizer text ++ repeat 0%Z k
                    = (sot_token tokenizer :: encode tokenizer text)
                        ++ eot_token tokenizer :: repeat 0%Z k).
      { unfold wrapped. cbn [app]. now rewrite <- app_assoc. }
      rewrite Heq.
      rewrite argmax_list_first_max.
      + cbn [length]. f_equal. lia.
      + constructor; assumption.
      + apply Forall_forall. intros x Hx. apply repeat_spec in Hx. lia. }
  rewrite Harg. reflexivity.
Qed.

Lemma pooling_position_is_end_token_witness :
  exists t,
    tokenize char_tokenizer (OneText "hello") 77 false = Ok t /\
    argmax_last 0%Z Z.ltb t
    = Ok (mkTensor [1] [Nat.min (S (length (encode char_tokenizer "hello")))
                                (Z.to_nat 77 - 1)]).
Proof.
  eexists. split; [vm_compute; reflexivity|].
  apply (@pooling_position_is_end_token char_tokenizer "hello" 77 false).
  - vm_compute. reflexivity.
  - repeat constructor.
  - reflexivity.
  - discriminate.
Defined.

(** ** CLIP: what the constructor builds and when forward returns *)

Lemma mapM_length (A B : Type) (f : A -> result B) (l : list A) (l' : list B) :
  mapM f l = Ok l' -> length l' = length l.
Proof.
  intros H. apply mapM_inv in H. symmetry. exact (Forall2_length H).
Qed.

(** X5.  [CLIP.forward] returns only when the selection holds exactly one
    index (one image and one prompt); its third result is then the entity
    key stored at that index. *)
Theorem forward_returns_one_key (T : Type) (S : Scalar T)
        (topk_row : list T -> nat -> list nat) (self : CLIP.t T)
        (image : tensor T) (out : tensor T * tensor T * tensor T) :
  CLIP.forward topk_row self image = Ok out ->
  exists image_features indexs i,
    CLIP.forward_image_features self image = Ok image_features /\
    CLIP.forward_select topk_row self image_features = Ok indexs /\
    data indexs = [i] /\
    nth_error (CLIP.entity_keys self) i = Some (snd out).
Proof.
  unfold CLIP.forward. intros H. repeat bind_inv H. injection H as <-. cbn [snd].
  match goal with
  | E : list_getitem _ ?indexs = Ok _ |- _ =>
      unfold list_getitem in E;
      destruct (data indexs) as [|i [|j l]] eqn:Ed; try discriminate E;
      destruct (nth_error (CLIP.entity_keys self) i) eqn:En; [|discriminate E];
      injection E as <-
  end.
  do 3 eexists. repeat split; eassumption.
Qed.

(** X6.  With no entity key stored, [CLIP.forward] raises as soon as the
    image has been encoded: the keys cannot be concatenated. *)
Theorem forward_empty_bank (T : Type) (S : Scalar T)
        (topk_row : list T -> nat -> list nat) (self : CLIP.t T)
        (image image_features : tensor T) :
  CLIP.entity_keys self = [] ->
  CLIP.forward_image_features self image = Ok image_features ->
  CLIP.forward topk_row self image
  = Raise (RuntimeError "torch.cat(): expected a non-empty list of Tensors").
Proof.
  intros Hkeys Hf. unfold CLIP.forward. rewrite Hf. cbn [bind].
  unfold CLIP.forward_select, CLIP.forward_probability. rewrite Hkeys. reflexivity.
Qed.

(** X7.  A negative configured prompt count makes the selector raise: the
    count handed to [topk] is then negative. *)
Theorem forward_select_negative_count (T : Type) (S : Scalar T)
        (topk_row : list T -> nat -> list nat) (self : CLIP.t T)
        (image_features : tensor T) (B D : nat) :
  shape image_features = [B; D] ->
  CLIP.entity_keys self <> [] ->
  Forall (fun key => shape key = [1; D]) (CLIP.entity_keys self) ->
  (text_prompt (CLIP.args self) < 0)%Z ->
  CLIP.forward_select topk_row self image_features
  = Raise (RuntimeError "selected index k out of range").
Proof.
  intros Himg Hne Hkeys Hneg.
  destruct (@forward_probability_shape T S self image_features B D Himg Hne Hkeys)
    as [probability [Hp Hs]].
  unfold CLIP.forward_select. rewrite Hp. cbn [bind].
  unfold shape_at. rewrite Hs. cbn [nth_error bind].
  unfold CLIP.topk_dim1. rewrite Hs.
  destruct (Z.ltb_spec (Z.min (text_prompt (CLIP.args self))
                              (Z.of_nat (length (CLIP.entity_keys self)))) 0);
    [reflexivity | lia].
Qed.

(** X8.  Whenever the constructor returns, more than one device is present
    and the encoder is wrapped; the model holds one key per entity phrase,
    one embedding per class name, the class count, and a soft-prompt tensor
    of shape [[len(entities); 12; ctx_dim]] with all its entries, which the
    assembler holds as well, together with [n_ctx]. *)
Theorem init_result (T : Type) (S : Scalar T) (tokenizer : Tokenizer)
        (device_count : nat) (normal_ : nat -> T) (args : Args)
        (class_names : list string) (clip_model : ClipModel.t T)
        (entities : list string) (text_prompt n_ctx : Z) (m : CLIP.t T) :
  CLIP.init tokenizer device_count normal_ args class_names clip_model
            entities text_prompt n_ctx = Ok m ->
  1 < device_count /\
  CLIP.text_encoder m = DataParallel (TextEncoder.init clip_model) device_count /\
  CLIP.n_class m = length class_names /\
  CLIP.args m = args /\
  length (CLIP.entity_keys m) = length entities /\
  length (CLIP.name_embeddings m) = length class_names /\
  PromptLearner.entity_prompts (CLIP.prompt_learner m) = CLIP.entity_prompts m /\
  PromptLearner.n_ctx (CLIP.prompt_learner m) = n_ctx /\
  PromptLearner.args (CLIP.prompt_learner m) = args /\
  exists ctx_dim,
    nth_error (ClipModel.ln_final_weight_shape clip_model) 0 = Some ctx_dim /\
    PromptLearner.ctx_dim (CLIP.prompt_learner m) = ctx_dim /\
    shape (CLIP.entity_prompts m) = [length entities; 12; ctx_dim] /\
    length (data (CLIP.entity_prompts m)) = length entities * (12 * ctx_dim).
Proof.
  unfold CLIP.init, PromptLearner.init, CLIP.cuda. intros H. cbv zeta in H.
  destruct (ClipModel.ln_final_weight_shape clip_model) as [|d rest];
    [repeat bind_inv H; discriminate H|].
  repeat bind_inv H. injection H as <-.
  cbn [CLIP.text_encoder CLIP.n_class CLIP.args CLIP.entity_keys CLIP.name_embeddings
       CLIP.entity_prompts CLIP.prompt_learner PromptLearner.entity_prompts
       PromptLearner.n_ctx PromptLearner.args PromptLearner.ctx_dim].
  destruct (device_count =? 0); [discriminate|].
  match goal with E : Ok _ = Ok ?a |- context [shape ?a] => injection E as <- end.
  destruct (Nat.ltb_spec 1 device_count) as [Hdev|Hdev];
    [|match goal with E : module_of (Bare _) = Ok _ |- _ => discriminate E end].
  repeat match goal with
         | E : mapM _ _ = Ok _ |- _ => apply mapM_length in E
         | E : TextEncoder.encode_text _ _ = Ok _ |- _ =>
             unfold TextEncoder.encode_text in E
         | E : CLIP.tokenize_each _ _ _ = Ok _ |- _ => unfold CLIP.tokenize_each in E
         end.
  repeat split; try reflexivity; try congruence.
  exists d. cbn [shape data numel fold_right].
  repeat split. rewrite length_map, length_seq. lia.
Qed.

Section MoreRuns.

Context {T : Type} {S : Scalar T}.
Variables e p c w1 w2 a b s : T.
Variable normal_ : nat -> T.

(** No entity phrase at all. *)
Lemma small_run_no_entity :
  exists m image_features,
    small_clip_with e p c w1 w2 a b s normal_ 2 [] 1 12 12 = Ok m /\
    CLIP.entity_keys m = [] /\
    CLIP.forward_image_features m (small_images 1 a) = Ok image_features.
Proof.
  do 2 eexists.
  split; [vm_compute; reflexivity|].
  split; [reflexivity|].
  vm_compute. reflexivity.
Qed.

(** A prompt count of -1. *)
Lemma small_run_negative_count :
  exists m image_features,
    small_clip_with e p c w1 w2 a b s normal_ 2 ["red"%string] (-1) 12 12 = Ok m /\
    CLIP.forward_image_features m (small_images 1 a) = Ok image_features /\
    shape image_features = [1; 2] /\
    CLIP.entity_keys m <> [] /\
    Forall (fun key => shape key = [1; 2]) (CLIP.entity_keys m) /\
    text_prompt (CLIP.args m) = (-1)%Z.
Proof.
  do 2 eexists.
  split; [vm_compute; reflexivity|].
  split; [vm_compute; reflexivity|].
  split; [reflexivity|].
  split; [discriminate|].
  split; [repeat constructor | reflexivity].
Qed.

End MoreRuns.

Lemma forward_returns_one_key_witness :
  exists m out,
    small_clip_R 2 12 12 = Ok m /\
    CLIP.forward topk_low m (small_images 1 3%R) = Ok out /\
    exists image_features indexs i,
      CLIP.forward_image_features m (small_images 1 3%R) = Ok image_features /\
      CLIP.forward_select topk_low m image_features = Ok indexs /\
      data indexs = [i] /\
      nth_error (CLIP.entity_keys m) i = Some (snd out).
Proof.
  destruct (@small_run_12_classes R R_scalar 1%R 0%R 1%R 3%R 4%R 3%R 4%R 0%R INR)
    as (m & image_features & text_features & out
        & Hm & Hn & Hscale & Hf & Hfs & Hsel & Ht & Hts & Hout).
  exists m, out. split; [exact Hm|]. split; [exact Hout|].
  exact (@forward_returns_one_key R R_scalar topk_low m (small_images 1 3%R) out Hout).
Defined.

Lemma forward_empty_bank_witness :
  exists m,
    small_clip_with 1%R 0%R 1%R 3%R 4%R 3%R 4%R 0%R INR 2 [] 1 12 12 = Ok m /\
    CLIP.forward topk_low m (small_images 1 3%R)
    = Raise (RuntimeError "torch.cat(): expected a non-empty list of Tensors").
Proof.
  destruct (@small_run_no_entity R R_scalar 1%R 0%R 1%R 3%R 4%R 3%R 4%R 0%R INR)
    as (m & image_features & Hm & Hkeys & Hf).
  exists m. split; [exact Hm|].
  exact (@forward_empty_bank R R_scalar topk_low m (small_images 1 3%R) image_features
           Hkeys Hf).
Defined.

Lemma forward_select_negative_count_witness :
  exists m image_features,
    small_clip_with 1%R 0%R 1%R 3%R 4%R 3%R 4%R 0%R INR 2 ["red"%string] (-1) 12 12 = Ok m /\
    CLIP.forward_image_features m (small_images 1 3%R) = Ok image_features /\
    CLIP.forward_select topk_low m image_features
    = Raise (RuntimeError "selected index k out of range").
Proof.
  destruct (@small_run_negative_count R R_scalar 1%R 0%R 1%R 3%R 4%R 3%R 4%R 0%R INR)
    as (m & image_features & Hm & Hf & Hs & Hne & Hkeys & Hk).
  exists m, image_features. split; [exact Hm|]. split; [exact Hf|].
  apply (@forward_select_negative_count R R_scalar topk_low m image_features 1 2
           Hs Hne Hkeys).
  rewrite Hk. lia.
Defined.

Lemma init_result_witness :
  exists m,
    small_clip_R 2 12 12 = Ok m /\
    1 < 2 /\
    CLIP.n_class m = 12 /\
    length (CLIP.entity_keys m) = 1 /\
    length (CLIP.name_embeddings m) = 12 /\
    shape (CLIP.entity_prompts m) = [1; 12; 1].
Proof.
  destruct (@small_run_12_classes R R_scalar 1%R 0%R 1%R 3%R 4%R 3%R 4%R 0%R INR)
    as (m & image_features & text_features & out
        & Hm & Hn & Hscale & Hf & Hfs & Hsel & Ht & Hts & Hout).
  exists m. split; [exact Hm|].
  destruct (@init_result R R_scalar char_tokenizer 2 INR (mkArgs 1) (class_names_of 12)
              (small_model 1%R 0%R 1%R 3%R 4%R 3%R 4%R 0%R) ["red"%string] 1 12 m Hm)
    as (Hdev & _ & Hc & _ & Hk & Hnames & _ & _ & _ & ctx_dim & Hctx & _ & Hshape & _).
  cbn in Hctx. injection Hctx as <-.
  repeat split; assumption.
Defined.

(** ** The similarity scores *)

Lemma nth_concat_block (A : Type) (rows : list (list A)) (m i j : nat) (d : A) :
  Forall (fun r => length r = m) rows ->
  i < length rows -> j < m ->
  nth (i * m + j) (concat rows) d = nth j (nth i rows []) d.
Proof.
  intros Hrows Hi Hj.
  rewrite <- (concat_row Hrows Hi).
  rewrite nth_firstn_lt by assumption.
  rewrite nth_skipn. reflexivity.
Qed.

Lemma nth_map_seq (A : Type) (f : nat -> A) (n i : nat) (d : A) :
  i < n -> nth i (map f (seq 0 n)) d = f i.
Proof.
  intros Hi.
  rewrite (nth_indep _ d (f 0)) by (rewrite length_map, length_seq; assumption).
  rewrite map_nth, seq_nth by assumption. reflexivity.
Qed.

Lemma nth_map_data (A : Type) (ts : list (tensor A)) (i : nat) (t : tensor A) :
  nth_error ts i = Some t -> nth i (map (@data A) ts) [] = data t.
Proof.
  intros Hi.
  assert (i < length ts) by (apply nth_error_Some; congruence).
  rewrite (nth_indep _ [] (data t)) by (rewrite length_map; assumption).
  rewrite map_nth. f_equal. now apply nth_error_nth.
Qed.

(** X9.  Entry [[b; i]] of the similarity matrix that [CLIP.forward]
    ranks is the dot product of the embedding of image [b] and entity key
    [i]. *)
Theorem forward_probability_entries (T : Type) (S : Scalar T) (self : CLIP.t T)
        (image_features : tensor T) (B D : nat) :
  shape image_features = [B; D] ->
  CLIP.entity_keys self <> [] ->
  Forall (fun key => shape key = [1; D] /\ length (data key) = D) (CLIP.entity_keys self) ->
  exists probability,
    CLIP.forward_probability self image_features = Ok probability /\
    shape probability = [B; length (CLIP.entity_keys self)] /\
    forall b i key,
      b < B ->
      nth_error (CLIP.entity_keys self) i = Some key ->
      get szero probability [b; i]
      = sum_list (map (fun d => smul (get szero image_features [b; d])
                                     (get szero key [0; d]))
                      (seq 0 D)).
Proof.
  intros Himg Hne Hkeys.
  assert (Hshapes : Forall (fun key => shape key = [1; D]) (CLIP.entity_keys self))
    by (eapply Forall_impl; [|exact Hkeys]; now intros key [H _]).
  assert (Hdata : Forall (fun r => length r = D) (map (@data T) (CLIP.entity_keys self))).
  { apply Forall_forall. intros r Hr. apply in_map_iff in Hr as [key [<- Hin]].
    rewrite Forall_forall in Hkeys. now apply Hkeys. }
  set (N := length (CLIP.entity_keys self)) in *.
  unfold CLIP.forward_probability.
  rewrite (cat0_keys Hne Hshapes). cbn [bind]. fold N.
  unfold transpose. cbn [shape bind].
  unfold matmul. cbn [shape]. rewrite Himg. cbn [rev app removelast].
  rewrite Nat.eqb_refl.
  eexists. split; [reflexivity|]. split; [reflexivity|].
  intros b i key Hb Hi.
  assert (HiN : i < N) by (apply nth_error_Some; congruence).
  rewrite get_tabulate by (repeat constructor; assumption).
  cbn [removelast last app]. f_equal.
  apply map_ext_in. intros d Hd. apply in_seq in Hd. f_equal.
  unfold get at 1. cbn [shape data offset numel fold_right].
  replace (d * (N * 1) + (i * 1 + 0)) with (d * N + i) by lia.
  rewrite nth_flat_map_block with (m := N);
    [| intros k _; now rewrite length_map, length_seq | lia | assumption].
  rewrite nth_map_seq by assumption.
  unfold get. cbn [shape data offset numel fold_right].
  replace (i * (D * 1) + (d * 1 + 0)) with (i * D + d) by lia.
  rewrite nth_concat_block with (m := D);
    [| assumption | now rewrite length_map | lia].
  rewrite (@nth_map_data _ _ _ _ Hi).
  rewrite Forall_forall in Hkeys.
  destruct (Hkeys key (nth_error_In _ _ Hi)) as [Hs _]. rewrite Hs.
  cbn [offset numel fold_right]. f_equal. lia.
Qed.

Section ProbabilityRuns.

Context {T : Type} {S : Scalar T}.
Variables e p c w1 w2 a b s : T.
Variable normal_ : nat -> T.

Lemma small_run_probability :
  exists m image_features,
    small_clip_with e p c w1 w2 a b s normal_ 2
                    ["red"%string; "green"%string; "blue"%string] 2 12 12 = Ok m /\
    CLIP.forward_image_features m (small_images 2 a) = Ok image_features /\
    shape image_features = [2; 2] /\
    CLIP.entity_keys m <> [] /\
    Forall (fun key => shape key = [1; 2] /\ length (data key) = 2) (CLIP.entity_keys m).
Proof.
  do 2 eexists.
  split; [vm_compute; reflexivity|].
  split; [vm_compute; reflexivity|].
  split; [reflexivity|].
  split; [discriminate|].
  repeat constructor.
Qed.

End ProbabilityRuns.

Lemma forward_probability_entries_witness :
  exists m image_features,
    small_clip_with 1%R 0%R 1%R 3%R 4%R 3%R 4%R 0%R INR 2
                    ["red"%string; "green"%string; "blue"%string] 2 12 12 = Ok m /\
    CLIP.forward_image_features m (small_images 2 3%R) = Ok image_features /\
    exists probability,
      CLIP.forward_probability m image_features = Ok probability /\
      shape probability = [2; length (CLIP.entity_keys m)] /\
      forall b i key,
        b < 2 ->
        nth_error (CLIP.entity_keys m) i = Some key ->
        get szero probability [b; i]
        = sum_list (map (fun d => smul (get szero image_features [b; d])
                                       (get szero key [0; d]))
                        (seq 0 2)).
Proof.
  destruct (@small_run_probability R R_scalar 1%R 0%R 1%R 3%R 4%R 3%R 4%R 0%R INR)
    as (m & image_features & Hm & Hf & Hs & Hne & Hkeys).
  exists m, image_features. split; [exact Hm|]. split; [exact Hf|].
  exact (@forward_probability_entries R R_scalar m image_features 2 2 Hs Hne Hkeys).
Defined.

(** ** The text encoder on tokenized phrases *)

Lemma mapM_exists (A B : Type) (f : A -> result B) (P : A -> Prop) (Q : B -> Prop)
      (l : list A) :
  Forall P l ->
  (forall a, P a -> exists b, f a = Ok b /\ Q b) ->
  exists l', mapM f l = Ok l' /\ length l' = length l /\ Forall Q l'.
Proof.
  intros Hl Hf. induction Hl as [|a l Ha _ [l' [E [Hlen HQ]]]].
  - exists []. repeat split. constructor.
  - destruct (Hf a Ha) as [b [Eb Hb]].
    exists (b :: l'). cbn [mapM]. rewrite Eb, E. cbn [bind length].
    repeat split; [now rewrite Hlen | now constructor].
Qed.

Lemma flat_map_singleton (A B : Type) (f : A -> B) (l : list A) :
  flat_map (fun x => [f x]) l = map f l.
Proof. induction l as [|x l IH]; cbn; [reflexivity | now rewrite IH]. Qed.

Lemma indices_one (N : nat) : indices [N] = map (fun i => [i]) (seq 0 N).
Proof. cbn [indices map]. apply flat_map_singleton. Qed.

Lemma argmax_from_lt (A : Type) (ltb : A -> A -> bool) (l : list A)
      (best_i : nat) (best : A) (i : nat) :
  best_i < i -> argmax_from ltb best_i best i l < i + length l.
Proof.
  revert best_i best i. induction l as [|x l IH]; intros best_i best i Hlt; cbn.
  - lia.
  - destruct (ltb best x).
    + specialize (IH i x (S i)). lia.
    + specialize (IH best_i best (S i)). lia.
Qed.

Lemma argmax_list_lt (A : Type) (ltb : A -> A -> bool) (l : list A) :
  l <> [] -> exists k, argmax_list ltb l = Some k /\ k < length l.
Proof.
  destruct l as [|x l]; [congruence|]. intros _.
  eexists. split; [reflexivity|].
  pose proof (@argmax_from_lt A ltb l 0 x 1). cbn [length]. lia.
Qed.

Lemma argmax_last_ok (A : Type) (d : A) (ltb : A -> A -> bool) (t : tensor A)
      (lead : list nat) (L : nat) :
  shape t = lead ++ [L] -> 0 < L ->
  exists rows,
    argmax_last d ltb t = Ok (mkTensor lead rows) /\
    length rows = numel lead /\ Forall (fun k => k < L) rows.
Proof.
  intros Hs HL. unfold argmax_last. rewrite Hs, removelast_last.
  destruct (@mapM_exists (list nat) nat
              (fun idx => match argmax_list ltb (row_at d t idx) with
                          | Some i => Ok i
                          | None => Raise (IndexError "argmax(): Expected reduction dim to have non-zero size")
                          end)
              (fun _ => True) (fun k => k < L) (indices lead))
    as [rows [E [Hlen Hrows]]].
  - apply Forall_forall. auto.
  - intros idx _.
    destruct (@argmax_list_lt A ltb (row_at d t idx)) as [k [Ek Hk]].
    + intros Hnil. apply (f_equal (@length A)) in Hnil.
      rewrite row_at_length, Hs in Hnil. unfold last_dim in Hnil.
      rewrite last_last in Hnil. cbn in Hnil. lia.
    + rewrite Ek. exists k. split; [reflexivity|].
      rewrite row_at_length, Hs in Hk. unfold last_dim in Hk.
      now rewrite last_last in Hk.
  - exists rows. rewrite E. cbn [bind]. repeat split; [|assumption].
    now rewrite Hlen, indices_length.
Qed.

Lemma argmax_last_matrix (A : Type) (d : A) (ltb : A -> A -> bool) (t : tensor A)
      (N L : nat) :
  shape t = [N; L] -> 0 < L ->
  exists rows,
    argmax_last d ltb t = Ok (mkTensor [N] rows) /\
    length rows = N /\ Forall (fun k => k < L) rows.
Proof.
  intros Hs HL.
  destruct (@argmax_last_ok A d ltb t [N] L Hs HL) as [rows [E [Hlen Hrows]]].
  exists rows. repeat split; try assumption. rewrite Hlen. cbn. lia.
Qed.

Lemma get_arange (N i : nat) : i < N -> get 0 (arange N) (bproj [N] [i]) = i.
Proof.
  intros Hi. unfold arange, get, bproj. cbn [shape data length Nat.sub skipn combine map fst snd].
  destruct (Nat.eqb_spec N 1) as [->|_]; cbn [offset numel fold_right].
  - destruct i; [reflexivity | lia].
  - rewrite Nat.mul_1_r, Nat.add_0_r. now apply seq_nth.
Qed.

Lemma get_vector (rows : list nat) (N i : nat) :
  length rows = N -> i < N ->
  get 0 (mkTensor [N] rows) (bproj [N] [i]) = nth i rows 0.
Proof.
  intros Hlen Hi. unfold get, bproj.
  cbn [shape data length Nat.sub skipn combine map fst snd].
  destruct (Nat.eqb_spec N 1) as [->|_]; cbn [offset numel fold_right].
  - destruct i; [reflexivity | lia].
  - now rewrite Nat.mul_1_r, Nat.add_0_r.
Qed.

(** [x[arange(N), j]] for a batch [x] and one position per sequence. *)
Lemma index01_rows (A : Type) (x : tensor A) (rows : list nat) (N L D : nat) :
  shape x = [N; L; D] ->
  length rows = N -> Forall (fun k => k < L) rows ->
  exists pooled,
    index01 x (arange N) (mkTensor [N] rows) = Ok pooled /\
    shape pooled = [N; D].
Proof.
  intros Hs Hlen Hrows. unfold index01. rewrite Hs.
  unfold broadcast_shapes. cbn [arange shape rev app broadcast_rev option_map].
  rewrite Nat.eqb_refl. cbn [option_map rev app numel fold_right].
  rewrite indices_one.
  rewrite mapM_ok with
    (g := fun idx => firstn (D * 1)
            (skipn ((get 0 (arange N) (bproj [N] idx) * L
                     + get 0 (mkTensor [N] rows) (bproj [N] idx)) * (D * 1)) (data x))).
  - eexists. split; reflexivity.
  - apply Forall_forall. intros idx Hin.
    apply in_map_iff in Hin as [i [<- Hi]]. apply in_seq in Hi.
    rewrite get_arange by lia. rewrite get_vector by (assumption || lia).
    assert (Hk : nth i rows 0 < L).
    { rewrite Forall_forall in Hrows. apply Hrows, nth_In. lia. }
    destruct (Nat.ltb_spec i N); [|lia].
    destruct (Nat.ltb_spec (nth i rows 0) L); [|lia].
    reflexivity.
Qed.

Section EncodeFacts.

Context {T : Type} {S : Scalar T}.

Lemma matmul_rows (pooled proj : tensor T) (N D M : nat) :
  shape pooled = [N; D] -> shape proj = [D; M] ->
  exists out,
    matmul pooled proj = Ok out /\
    shape out = [N; M] /\ length (data out) = N * M.
Proof.
  intros Hp Hw. unfold matmul. rewrite Hp, Hw. cbn [rev app removelast].
  rewrite Nat.eqb_refl. eexists. split; [reflexivity|]. split; [reflexivity|].
  cbn [data]. rewrite length_map, indices_length. cbn. lia.
Qed.

Lemma normalize_keeps_rows (t : tensor T) (N M : nat) :
  shape t = [N; M] -> length (data t) = N * M ->
  exists t', normalize t = Ok t' /\ shape t' = [N; M] /\ length (data t') = N * M.
Proof.
  intros Hs Hlen. unfold normalize, broadcast2, norm_keepdim. rewrite Hs.
  cbn [removelast app shape].
  change [N; M] with ([N] ++ [M]). change [N; 1] with ([N] ++ [1]).
  rewrite broadcast_keepdim.
  eexists. split; [reflexivity|]. split; [reflexivity|].
  cbn [data]. rewrite length_map, indices_length. cbn. lia.
Qed.

(** One pass of the loop of [encode_text], on a batch of [N] token rows. *)
Lemma encode_one_shape (self : TextEncoder.t T) (text : tensor Z) (N L D M : nat) :
  text_tower_shapes self L D M ->
  0 < L -> shape text = [N; L] ->
  exists out,
    TextEncoder.encode_text self [text] = Ok [out] /\
    shape out = [N; M] /\ length (data out) = N * M.
Proof.
  intros (Hemb & Hpos & Htr & Hln & Hproj) HL Hs.
  unfold TextEncoder.encode_text. cbn [mapM].
  destruct (Hemb N text Hs) as [x0 [E0 Hs0]]. rewrite E0. cbn [bind].
  unfold broadcast2 at 1. rewrite Hs0, Hpos. cbn [bind].
  unfold permute102 at 1. cbn [shape bind].
  match goal with
  | |- context [TextEncoder.transformer self ?a] =>
      destruct (Htr N a eq_refl) as [x1 [E1 Hs1]]; rewrite E1
  end.
  cbn [bind]. unfold permute102 at 1. rewrite Hs1. cbn [bind].
  match goal with
  | |- context [TextEncoder.ln_final self ?a] =>
      destruct (Hln N a eq_refl) as [x2 [E2 Hs2]]; rewrite E2
  end.
  cbn [bind]. unfold shape_at. rewrite Hs2. cbn [nth_error bind].
  destruct (@argmax_last_matrix Z 0%Z Z.ltb text N L Hs HL) as [rows [Ea [Hlen Hrows]]].
  rewrite Ea. cbn [bind].
  destruct (@index01_rows T x2 rows N L D Hs2 Hlen Hrows) as [pooled [Ei Hsp]].
  rewrite Ei. cbn [bind].
  destruct (@matmul_rows pooled (TextEncoder.text_projection self) N D M Hsp Hproj)
    as [out [Em [Hso Hdo]]].
  rewrite Em. cbn [bind]. exists out. auto.
Qed.

Lemma encode_text_shapes (self : TextEncoder.t T) (texts : list (tensor Z))
      (N L D M : nat) :
  text_tower_shapes self L D M ->
  0 < L -> Forall (fun text => shape text = [N; L]) texts ->
  exists outs,
    TextEncoder.encode_text self texts = Ok outs /\
    length outs = length texts /\
    Forall (fun out => shape out = [N; M] /\ length (data out) = N * M) outs.
Proof.
  intros Hshapes HL Htexts. unfold TextEncoder.encode_text.
  apply mapM_exists with (P := fun text => shape text = [N; L]); [assumption|].
  intros text Hs.
  destruct (@encode_one_shape self text N L D M Hshapes HL Hs) as [out [E H]].
  unfold TextEncoder.encode_text in E. cbn [mapM] in E.
  match type of E with
  | bind ?c _ = _ => destruct c as [o|] eqn:Ec; cbn [bind] in E; [|discriminate E]
  end.
  injection E as <-. exists o. auto.
Qed.

Variable tokenizer : Tokenizer.

Lemma tokenize_each_rows (device_count : nat) (phrases : list string) :
  1 < device_count ->
  Forall (fun p => ~ too_long tokenizer 77 p) phrases ->
  exists tokens,
    CLIP.tokenize_each tokenizer device_count phrases = Ok tokens /\
    length tokens = length phrases /\
    Forall (fun text => shape text = [1; 77]) tokens.
Proof.
  intros Hdev Hfit. unfold CLIP.tokenize_each.
  apply mapM_exists with (P := fun p => ~ too_long tokenizer 77 p); [assumption|].
  intros p Hp.
  rewrite tokenize_ok; [| lia | discriminate | intros _; repeat constructor; exact Hp].
  cbn [bind]. unfold CLIP.cuda.
  destruct (Nat.eqb_spec device_count 0); [lia|].
  eexists. split; reflexivity.
Qed.

End EncodeFacts.

(** X10.  On more than one device, with phrases and class names that fit
    the context length of 77 and a text tower of the usual shapes,
    [CLIP.__init__] succeeds, and every entity key and every name embedding
    it stores is one row of the embedding width. *)
Theorem init_succeeds (T : Type) (S : Scalar T) (tokenizer : Tokenizer)
        (device_count : nat) (normal_ : nat -> T) (args : Args)
        (class_names : list string) (clip_model : ClipModel.t T)
        (entities : list string) (text_prompt n_ctx : Z) (D M : nat) :
  1 < device_count ->
  Forall (fun p => ~ too_long tokenizer 77 p) entities ->
  Forall (fun p => ~ too_long tokenizer 77 p) class_names ->
  text_tower_shapes (TextEncoder.init clip_model) 77 D M ->
  ClipModel.ln_final_weight_shape clip_model <> [] ->
  exists m,
    CLIP.init tokenizer device_count normal_ args class_names clip_model
              entities text_prompt n_ctx = Ok m /\
    length (CLIP.entity_keys m) = length entities /\
    Forall (fun key => shape key = [1; M] /\ length (data key) = M) (CLIP.entity_keys m) /\
    length (CLIP.name_embeddings m) = length class_names /\
    Forall (fun e => shape e = [1; M] /\ length (data e) = M) (CLIP.name_embeddings m).
Proof.
  intros Hdev Hent Hcls Hshapes Hln.
  unfold CLIP.init. cbv zeta.
  destruct (Nat.ltb_spec 1 device_count) as [_|]; [|lia].
  destruct (@tokenize_each_rows tokenizer device_count entities Hdev Hent)
    as [keys_tok [E1 [L1 F1]]].
  destruct (@tokenize_each_rows tokenizer device_count class_names Hdev Hcls)
    as [names_tok [E2 [L2 F2]]].
  rewrite E1, E2. cbn [bind module_of].
  destruct (@encode_text_shapes T S (TextEncoder.init clip_model) keys_tok 1 77 D M
              Hshapes ltac:(lia) F1) as [keys_raw [E3 [L3 F3]]].
  destruct (@encode_text_shapes T S (TextEncoder.init clip_model) names_tok 1 77 D M
              Hshapes ltac:(lia) F2) as [names_raw [E4 [L4 F4]]].
  rewrite E3. cbn [bind].
  destruct (@mapM_exists _ _ normalize
              (fun out : tensor T => shape out = [1; M] /\ length (data out) = 1 * M)
              (fun key : tensor T => shape key = [1; M] /\ length (data key) = M)
              keys_raw F3) as [keys [E5 [L5 F5]]].
  { intros t [Hs Hd]. destruct (@normalize_keeps_rows T S t 1 M Hs Hd) as [t' [E [Hs' Hd']]].
    exists t'. rewrite Nat.mul_1_l in Hd'. auto. }
  rewrite E5. cbn [bind]. rewrite E4. cbn [bind].
  destruct (@mapM_exists _ _ normalize
              (fun out : tensor T => shape out = [1; M] /\ length (data out) = 1 * M)
              (fun key : tensor T => shape key = [1; M] /\ length (data key) = M)
              names_raw F4) as [names [E6 [L6 F6]]].
  { intros t [Hs Hd]. destruct (@normalize_keeps_rows T S t 1 M Hs Hd) as [t' [E [Hs' Hd']]].
    exists t'. rewrite Nat.mul_1_l in Hd'. auto. }
  rewrite E6. cbn [bind].
  destruct (ClipModel.ln_final_weight_shape clip_model) as [|d rest] eqn:Ew;
    [congruence|].
  cbn [bind]. unfold CLIP.cuda. destruct (Nat.eqb_spec device_count 0); [lia|].
  cbn [bind]. unfold PromptLearner.init. rewrite Ew. cbn [bind].
  eexists. split; [reflexivity|].
  cbn [CLIP.entity_keys CLIP.name_embeddings].
  repeat split; try assumption; congruence.
Qed.

Section EncodeRuns.

Context {T : Type} {S : Scalar T}.
Variables e p c w1 w2 a b s : T.

Lemma small_model_tower (L : nat) :
  text_tower_shapes (TextEncoder.init (small_model e p c w1 w2 a b s)) L 1 2.
Proof.
  unfold text_tower_shapes, TextEncoder.init, small_model.
  cbn [TextEncoder.token_embedding TextEncoder.positional_embedding
       TextEncoder.transformer TextEncoder.ln_final TextEncoder.text_projection
       ClipModel.token_embedding ClipModel.positional_embedding
       ClipModel.transformer ClipModel.ln_final ClipModel.text_projection shape].
  repeat split.
  - intros N text Hs. eexists. split; [reflexivity|]. cbn [shape]. now rewrite Hs.
  - intros N. unfold broadcast_shapes. cbn [rev app broadcast_rev Nat.eqb].
    destruct (L =? 1); reflexivity.
  - intros N x Hs. exists x. auto.
  - intros N x Hs. eexists. split; [reflexivity|]. exact Hs.
Qed.

End EncodeRuns.

Lemma short_phrases_fit (phrases : list string) :
  forallb (fun p => negb (Z.of_nat (length (wrapped char_tokenizer p)) >? 77)%Z) phrases
  = true ->
  Forall (fun p => ~ too_long char_tokenizer 77 p) phrases.
Proof.
  intros H. apply Forall_forall. intros p Hin.
  rewrite forallb_forall in H. specialize (H p Hin).
  unfold too_long. apply negb_true_iff in H. rewrite Z.gtb_ltb in H.
  apply Z.ltb_ge in H. lia.
Qed.

Lemma init_succeeds_witness :
  exists m,
    CLIP.init char_tokenizer 2 INR (mkArgs 1) ["cat"%string; "dog"%string]
              (small_model 1%R 0%R 1%R 3%R 4%R 3%R 4%R 0%R)
              ["red"%string; "green"%string] 1 12 = Ok m /\
    length (CLIP.entity_keys m) = 2 /\
    Forall (fun key => shape key = [1; 2] /\ length (data key) = 2) (CLIP.entity_keys m) /\
    length (CLIP.name_embeddings m) = 2 /\
    Forall (fun e => shape e = [1; 2] /\ length (data e) = 2) (CLIP.name_embeddings m).
Proof.
  apply (@init_succeeds R R_scalar char_tokenizer 2 INR (mkArgs 1)
           ["cat"%string; "dog"%string]
           (small_model 1%R 0%R 1%R 3%R 4%R 3%R 4%R 0%R)
           ["red"%string; "green"%string] 1 12 1 2).
  - lia.
  - apply short_phrases_fit. reflexivity.
  - apply short_phrases_fit. reflexivity.
  - apply small_model_tower.
  - discriminate.
Defined.

(** ** TextEncoder.forward and PromptLearner.forward *)

Lemma get_in_range (t : tensor nat) (bound : nat) (idx : list nat) :
  0 < bound -> Forall (fun k => k < bound) (data t) -> get 0 t idx < bound.
Proof.
  intros Hb Hall. unfold get.
  destruct (nth_in_or_default (offset (shape t) idx) (data t) 0) as [Hin | ->].
  - rewrite Forall_forall in Hall. now apply Hall.
  - exact Hb.
Qed.

(** [x[i, j]] returns when the index shapes broadcast and every index is in
    range. *)
Lemma index01_ok (A : Type) (x : tensor A) (i j : tensor nat)
      (d0 d1 : nat) (rest bs : list nat) :
  shape x = d0 :: d1 :: rest ->
  broadcast_shapes (shape i) (shape j) = Some bs ->
  (forall idx, get 0 i idx < d0) ->
  (forall idx, get 0 j idx < d1) ->
  exists pooled, index01 x i j = Ok pooled /\ shape pooled = bs ++ rest.
Proof.
  intros Hs Hb Hi Hj. unfold index01. rewrite Hs, Hb.
  match goal with
  | |- context [mapM ?f ?l] =>
      destruct (@mapM_exists _ _ f (fun _ => True) (fun _ => True) l)
        as [rows [E _]]
  end.
  - apply Forall_forall. auto.
  - intros idx _.
    destruct (Nat.ltb_spec (get 0 i (bproj (shape i) idx)) d0) as [_|H];
      [|specialize (Hi (bproj (shape i) idx)); lia].
    destruct (Nat.ltb_spec (get 0 j (bproj (shape j) idx)) d1) as [_|H];
      [|specialize (Hj (bproj (shape j) idx)); lia].
    eexists. split; [reflexivity | exact I].
  - rewrite E. cbn [bind]. eexists. split; reflexivity.
Qed.

Section TextForwardFacts.

Context {T : Type} {S : Scalar T}.

(** The stages of [TextEncoder.forward] up to the final layer norm keep the
    shape of a batch. *)
Lemma text_forward_stages (self : TextEncoder.t T) (x : tensor T) (B L D M : nat)
      (k : tensor T -> result (tensor T)) :
  text_tower_shapes self L D M ->
  shape x = [B; L; D] ->
  exists y,
    shape y = [B; L; D] /\
    (x <- broadcast2 sadd x (TextEncoder.positional_embedding self) ;;
     x <- permute102 szero x ;;
     x <- TextEncoder.transformer self x ;;
     x <- permute102 szero x ;;
     x <- TextEncoder.ln_final self x ;;
     k x) = k y.
Proof.
  intros (_ & Hpos & Htr & Hln & _) Hs.
  unfold broadcast2 at 1. rewrite Hs, Hpos. cbn [bind].
  unfold permute102 at 1. cbn [shape bind].
  match goal with
  | |- context [TextEncoder.transformer self ?a] =>
      destruct (Htr B a eq_refl) as [x1 [E1 Hs1]]; rewrite E1
  end.
  cbn [bind]. unfold permute102 at 1. rewrite Hs1. cbn [bind].
  match goal with
  | |- context [TextEncoder.ln_final self ?a] =>
      destruct (Hln B a eq_refl) as [x2 [E2 Hs2]]; rewrite E2
  end.
  cbn [bind]. exists x2. split; [assumption | reflexivity].
Qed.

End TextForwardFacts.

(** X11.  [TextEncoder.forward] pools with [x.argmax(dim=-1)] of the
    features, an index tensor of shape [[B; L]], next to [arange(B)]: on a
    batch of [B] sequences of length [L] with [B], [L] different and neither
    equal to one, the two do not broadcast and the call raises. *)
Theorem text_forward_batch_raises (T : Type) (S : Scalar T) (self : TextEncoder.t T)
        (x : tensor T) (B L D M : nat) :
  text_tower_shapes self L D M ->
  shape x = [B; L; D] ->
  0 < D -> B <> 1 -> L <> 1 -> B <> L ->
  TextEncoder.forward self x
  = Raise (IndexError "shape mismatch: indexing tensors could not be broadcast together").
Proof.
  intros Hshapes Hs HD HB HL HBL. unfold TextEncoder.forward.
  match goal with
  | |- bind _ (fun x0 => bind _ (fun x1 => bind _ (fun x2 => bind _ (fun x3 =>
         bind _ ?k)))) = _ =>
      destruct (@text_forward_stages T S self x B L D M k Hshapes Hs) as [y [Hy ->]]
  end.
  unfold shape_at. rewrite Hy. cbn [nth_error bind].
  destruct (@argmax_last_ok T szero sltb y [B; L] D Hy HD) as [rows [Ea _]].
  rewrite Ea. cbn [bind].
  unfold index01. rewrite Hy. unfold broadcast_shapes.
  cbn [arange shape rev app broadcast_rev].
  destruct (Nat.eqb_spec B L); [contradiction|].
  destruct (Nat.eqb_spec B 1); [contradiction|].
  destruct (Nat.eqb_spec L 1); [contradiction|].
  reflexivity.
Qed.

(** X12.  On one sequence of length [L] whose width [D] does not exceed
    [L], [TextEncoder.forward] returns [L] projected rows, one per position
    of the sequence, not one pooled row. *)
Theorem text_forward_single_shape (T : Type) (S : Scalar T) (self : TextEncoder.t T)
        (x : tensor T) (L D M : nat) :
  text_tower_shapes self L D M ->
  shape x = [1; L; D] ->
  0 < D -> D <= L ->
  exists out,
    TextEncoder.forward self x = Ok out /\
    shape out = [1; L; M] /\ length (data out) = L * M.
Proof.
  intros Hshapes Hs HD HDL. unfold TextEncoder.forward.
  match goal with
  | |- exists out, bind _ (fun x0 => bind _ (fun x1 => bind _ (fun x2 =>
         bind _ (fun x3 => bind _ ?k)))) = _ /\ _ =>
      destruct (@text_forward_stages T S self x 1 L D M k Hshapes Hs) as [y [Hy ->]]
  end.
  unfold shape_at. rewrite Hy. cbn [nth_error bind].
  destruct (@argmax_last_ok T szero sltb y [1; L] D Hy HD) as [rows [Ea [_ Hrows]]].
  rewrite Ea. cbn [bind].
  destruct (@index01_ok T y (arange 1) (mkTensor [1; L] rows) 1 L [D] [1; L] Hy)
    as [pooled [Ei Hp]].
  - unfold broadcast_shapes. cbn [arange shape rev app broadcast_rev].
    destruct (Nat.eqb_spec 1 L) as [<-|_]; reflexivity.
  - intros idx. apply get_in_range; [lia | repeat constructor].
  - intros idx. apply get_in_range; [lia|]. cbn [data].
    eapply Forall_impl; [|exact Hrows]. cbv beta. intros k Hk. lia.
  - rewrite Ei. cbn [bind].
    destruct self as [tr pos ln proj emb].
    destruct Hshapes as (_ & _ & _ & _ & Hproj). cbn in Hproj.
    cbn [TextEncoder.text_projection].
    unfold matmul. rewrite Hp, Hproj. cbn [app rev removelast].
    rewrite Nat.eqb_refl. eexists. split; [reflexivity|]. split; [reflexivity|].
    cbn [data]. rewrite length_map, indices_length. cbn. lia.
Qed.

Section PromptFacts.

Context {T : Type} {S : Scalar T}.

Lemma index0_gathers (t : tensor T) (index : tensor nat) (E : nat) (rest : list nat) :
  shape t = E :: rest ->
  Forall (fun i => i < E) (data index) ->
  index0 t index
  = Ok (mkTensor (shape index ++ rest) (concat (map (slice0 t) (data index)))).
Proof.
  intros Hs Hall. unfold index0. rewrite Hs.
  rewrite mapM_ok with (g := slice0 t); [reflexivity|].
  eapply Forall_impl; [|exact Hall]. cbv beta. intros i Hi.
  destruct (Nat.ltb_spec i E); [reflexivity | lia].
Qed.

End PromptFacts.

(** X13.  [PromptLearner.forward] gathers, in the order of the selected
    indices, the prompt blocks of the selected entities; it returns exactly
    when [n_ctx * args.text_prompt] equals the number of selected prompts
    per image times the prompt length, and raises at the reshape otherwise. *)
Theorem prompt_forward_gathers (T : Type) (S : Scalar T) (self : PromptLearner.t T)
        (indexs : tensor nat) (B K E P C : nat) :
  shape indexs = [B; K] ->
  shape (PromptLearner.entity_prompts self) = [E; P; C] ->
  PromptLearner.ctx_dim self = C ->
  Forall (fun i => i < E) (data indexs) ->
  (0 <= PromptLearner.n_ctx self * text_prompt (PromptLearner.args self))%Z ->
  ((PromptLearner.n_ctx self * text_prompt (PromptLearner.args self))%Z
   = Z.of_nat (K * P) ->
   PromptLearner.forward self indexs
   = Ok (mkTensor [B; K * P; C]
           (concat (map (slice0 (PromptLearner.entity_prompts self)) (data indexs))))) /\
  ((PromptLearner.n_ctx self * text_prompt (PromptLearner.args self))%Z
   <> Z.of_nat (K * P) ->
   B * C <> 0 ->
   PromptLearner.forward self indexs
   = Raise (RuntimeError "shape is invalid for input size")).
Proof.
  intros Hi Hp Hc Hall Hnn.
  unfold PromptLearner.forward, shape_at. rewrite Hi. cbn [nth_error bind].
  rewrite (@index0_gathers T _ indexs E [P; C] Hp Hall). cbn [bind]. rewrite Hi, Hc.
  set (n := (PromptLearner.n_ctx self * text_prompt (PromptLearner.args self))%Z) in *.
  unfold view. cbn [existsb filter shape app].
  assert (H1 : forall k : nat, (Z.of_nat k <? -1)%Z = false)
    by (intros k; apply Z.ltb_ge; lia).
  assert (H2 : forall k : nat, (Z.of_nat k =? -1)%Z = false)
    by (intros k; apply Z.eqb_neq; lia).
  assert (H3 : (n <? -1)%Z = false) by (apply Z.ltb_ge; lia).
  assert (H4 : (n =? -1)%Z = false) by (apply Z.eqb_neq; lia).
  rewrite !H1, !H2, H3, H4. cbn [orb negb length map filter data].
  rewrite !Nat2Z.id. cbn [numel fold_right].
  split.
  - intros Hn. rewrite Hn, Nat2Z.id.
    destruct (Nat.eqb_spec (B * (K * P * (C * 1))) (B * (K * (P * (C * 1)))));
      [reflexivity | lia].
  - intros Hn HBC.
    destruct (Nat.eqb_spec (B * (Z.to_nat n * (C * 1))) (B * (K * (P * (C * 1)))))
      as [Heq|]; [|reflexivity].
    exfalso. apply Hn.
    assert (Z.to_nat n = K * P) by nia. lia.
Qed.

Lemma text_forward_batch_raises_witness :
  TextEncoder.forward (TextEncoder.init (small_model 1%R 0%R 1%R 3%R 4%R 3%R 4%R 0%R))
                      (mkTensor [2; 3; 1] (repeat 1%R 6))
  = Raise (IndexError "shape mismatch: indexing tensors could not be broadcast together").
Proof.
  apply (@text_forward_batch_raises R R_scalar _ _ 2 3 1 2).
  - apply small_model_tower.
  - reflexivity.
  - lia.
  - discriminate.
  - discriminate.
  - discriminate.
Defined.

Lemma text_forward_single_shape_witness :
  exists out,
    TextEncoder.forward (TextEncoder.init (small_model 1%R 0%R 1%R 3%R 4%R 3%R 4%R 0%R))
                        (mkTensor [1; 3; 1] (repeat 1%R 3)) = Ok out /\
    shape out = [1; 3; 2] /\ length (data out) = 3 * 2.
Proof.
  apply (@text_forward_single_shape R R_scalar _ _ 3 1 2).
  - apply small_model_tower.
  - reflexivity.
  - lia.
  - lia.
Defined.

Lemma prompt_forward_gathers_witness :
  PromptLearner.forward
    (PromptLearner.mk (mkArgs 1) 2 (mkTensor [2; 12; 1] (map INR (seq 0 24))) 3 12 1)
    (mkTensor [1; 1] [1])
  = Ok (mkTensor [1; 1 * 12; 1]
          (concat (map (slice0 (mkTensor [2; 12; 1] (map INR (seq 0 24)))) [1]))).
Proof.
  apply (@prompt_forward_gathers R R_scalar
           (PromptLearner.mk (mkArgs 1) 2 (mkTensor [2; 12; 1] (map INR (seq 0 24))) 3 12 1)
           (mkTensor [1; 1] [1]) 1 1 2 12 1).
  - reflexivity.
  - reflexivity.
  - reflexivity.
  - repeat constructor.
  - cbn. lia.
  - reflexivity.
Defined.

(** ** The version check *)

Lemma split_nonempty (sep : ascii) (s : string) : split sep s <> [].
Proof.
  destruct s as [|c rest]; cbn [split]; [discriminate|].
  destruct (Ascii.eqb c sep); [discriminate|].
  destruct (split sep rest); discriminate.
Qed.

Lemma split_app (sep : ascii) (a b : string) :
  no_sep sep a = true ->
  split sep (a ++ String sep b)%string = a :: split sep b.
Proof.
  induction a as [|c a IH]; cbn [no_sep append split]; intros Ha.
  - now rewrite Ascii.eqb_refl.
  - apply andb_true_iff in Ha as [Hc Ha]. apply negb_true_iff in Hc.
    rewrite Hc, (IH Ha). reflexivity.
Qed.

Lemma version_warns_minor (minor patch : string) :
  no_sep "." minor = true ->
  version_warns ("1." ++ minor ++ String "." patch)%string
  = if String.eqb minor "7" then list_ltb (split "." patch) ["1"%string]
    else String.ltb minor "7".
Proof.
  intros Hm. unfold version_warns.
  change ("1." ++ minor ++ String "." patch)%string
    with ("1" ++ String "." (minor ++ String "." patch))%string.
  rewrite split_app by reflexivity. rewrite split_app by assumption.
  cbn [list_ltb]. change (String.eqb "1" "1") with true. cbv iota.
  destruct (String.eqb minor "7"); [|reflexivity].
  destruct (split "." patch) as [|x rest] eqn:E; [now apply split_nonempty in E|].
  cbn [list_ltb]. reflexivity.
Qed.

(** X14.  The import-time check compares the parts of the version as
    text.  For a version [1.n.patch] with [n] below 100 it warns exactly when
    [n] is below 7, or [n] is 7 and the patch part is textually below ["1"],
    or [n] lies between 10 and 69: the releases 1.10 to 1.69 are reported as
    older than 1.7.1. *)
Theorem version_check_compares_text (n : nat) (patch : string) :
  n < 100 ->
  version_warns ("1." ++ string_of_Z (Z.of_nat n) ++ String "." patch)%string = true
  <-> n < 7 \/ (n = 7 /\ list_ltb (split "." patch) ["1"%string] = true) \/ 10 <= n < 70.
Proof.
  intros Hn.
  do 100 (destruct n as [|n];
          [ rewrite version_warns_minor by reflexivity;
            match goal with
            | |- context [String.eqb ?s "7"] =>
                let b := eval vm_compute in (String.eqb s "7") in
                change (String.eqb s "7") with b;
                let c := eval vm_compute in (String.ltb s "7") in
                change (String.ltb s "7") with c
            end;
            cbv iota;
            split;
            [ intros H; first [discriminate H | lia | right; left; split; [reflexivity | exact H]]
            | intros [H|[[H1 H]|H]]; first [reflexivity | exact H | exfalso; lia] ]
          | ]).
  lia.
Qed.

Lemma version_check_compares_text_witness :
  version_warns ("1." ++ string_of_Z (Z.of_nat 13) ++ String "." "1")%string = true
  <-> 13 < 7 \/ (13 = 7 /\ list_ltb (split "." "1") ["1"%string] = true) \/ 10 <= 13 < 70.
Proof.
  apply (@version_check_compares_text 13 "1"). lia.
Defined.

(** ** TextEncoderZS *)

Section ZeroShotFacts.

Context {T : Type} {S : Scalar T}.

Lemma layers_loop_sequential (text : tensor Z)
      (layers : list (tensor T -> result (tensor T)))
      (x : tensor T) (feats : list (tensor T)) (r : tensor T * list (tensor T)) :
  TextEncoderZS.layers_loop text layers x feats = Ok r ->
  sequential layers x = Ok (fst r).
Proof.
  revert x feats. induction layers as [|layer rest IH]; intros x feats H;
    cbn [TextEncoderZS.layers_loop sequential] in *.
  - now injection H as <-.
  - repeat bind_inv H. cbn [bind]. eapply IH. exact H.
Qed.

Lemma layers_loop_shapes (text : tensor Z) (N L D : nat)
      (layers : list (tensor T -> result (tensor T))) :
  shape text = [N; L] -> 0 < L -> 0 < N ->
  Forall (fun layer : tensor T -> result (tensor T) =>
            forall (N : nat) (x : tensor T), shape x = [L; N; D] ->
              exists y, layer x = Ok y /\ shape y = [L; N; D]) layers ->
  forall (x : tensor T) (feats : list (tensor T)),
    shape x = [L; N; D] ->
    Forall (fun f => shape f = [N; D]) feats ->
    exists x' feats',
      TextEncoderZS.layers_loop text layers x feats = Ok (x', feats') /\
      shape x' = [L; N; D] /\
      Forall (fun f => shape f = [N; D]) feats' /\
      length feats' = length feats + length layers.
Proof.
  intros Htext HL HN Hlayers.
  induction Hlayers as [|layer rest Hl _ IH]; intros x feats Hx Hf;
    cbn [TextEncoderZS.layers_loop].
  - exists x, feats. repeat split; try assumption. cbn. lia.
  - destruct (Hl N x Hx) as [x1 [E1 Hx1]]. rewrite E1. cbn [bind].
    destruct (@argmax_last_matrix Z 0%Z Z.ltb text N L Htext HL)
      as [rows [Ea [Hlen Hrows]]].
    rewrite Ea. cbn [bind]. unfold shape_at. rewrite Hx1. cbn [nth_error bind].
    destruct (@index01_ok T x1 (mkTensor [N] rows) (arange N) L N [D] [N] Hx1)
      as [feat [Ei Hfeat]].
    + unfold broadcast_shapes. cbn [arange shape rev app broadcast_rev].
      now rewrite Nat.eqb_refl.
    + intros idx. apply get_in_range; assumption.
    + intros idx. apply get_in_range; [assumption|].
      cbn [arange data]. apply Forall_forall. intros k Hk. apply in_seq in Hk. lia.
    + rewrite Ei. cbn [bind].
      destruct (IH x1 (feats ++ [feat]) Hx1) as [x' [feats' [E [Hx' [Hf' Hlen']]]]].
      * apply Forall_app. split; [assumption | now constructor].
      * exists x', feats'. repeat split; try assumption.
        rewrite Hlen', length_app. cbn [length]. lia.
Qed.

Lemma stack_rows (feats : list (tensor T)) (sh : list nat) :
  feats <> [] ->
  Forall (fun f => shape f = sh) feats ->
  stack feats = Ok (mkTensor (length feats :: sh) (concat (map (@data T) feats))).
Proof.
  intros Hne Hall. destruct feats as [|f0 rest]; [congruence|].
  unfold stack.
  assert (H0 : shape f0 = sh) by now inversion Hall.
  rewrite (proj2 (forallb_forall _ _)); [now rewrite H0|].
  intros f Hin. rewrite Forall_forall in Hall.
  destruct (list_eq_dec Nat.eq_dec (shape f) (shape f0)) as [_|Hd]; [reflexivity|].
  exfalso. apply Hd. rewrite H0. now apply Hall.
Qed.

End ZeroShotFacts.

(** X15.  Whenever [TextEncoderZS.forward] returns, its first result is the
    embedding that [TextEncoder.encode_text] computes for the same token
    rows with a transformer that applies the same blocks in turn.  The
    casts to [self.dtype], which differ between the two, are not
    represented. *)
Theorem zero_shot_agrees_with_encode_text (T : Type) (S : Scalar T)
        (zs : TextEncoderZS.t T) (text : tensor Z) (out : tensor T * tensor T) :
  TextEncoderZS.forward zs text = Ok out ->
  TextEncoder.encode_text (encoder_of_zs zs) [text] = Ok [fst out].
Proof.
  unfold TextEncoderZS.forward, TextEncoder.encode_text, encoder_of_zs.
  intros H. cbn [mapM TextEncoder.token_embedding TextEncoder.positional_embedding
                 TextEncoder.transformer TextEncoder.ln_final TextEncoder.text_projection].
  destruct (TextEncoderZS.token_embedding zs text) as [x0|] eqn:E0;
    cbn [bind] in *; [|discriminate H].
  destruct (broadcast2 sadd x0 (TextEncoderZS.positional_embedding zs)) as [x1|] eqn:E1;
    cbn [bind] in *; [|discriminate H].
  destruct (permute102 szero x1) as [x2|] eqn:E2; cbn [bind] in *; [|discriminate H].
  destruct (TextEncoderZS.layers_loop text (TextEncoderZS.transformer zs) x2 [])
    as [r|] eqn:E3; cbn [bind] in H; [|discriminate H].
  apply layers_loop_sequential in E3. rewrite E3. cbn [bind]. cbv zeta in H.
  destruct (permute102 szero (fst r)) as [x3|] eqn:E4; cbn [bind] in *; [|discriminate H].
  destruct (TextEncoderZS.ln_final zs x3) as [x4|] eqn:E5; cbn [bind] in *; [|discriminate H].
  destruct (shape_at x4 0) as [n|] eqn:E6; cbn [bind] in *; [|discriminate H].
  destruct (argmax_last 0%Z Z.ltb text) as [eot|] eqn:E7; cbn [bind] in *; [|discriminate H].
  destruct (index01 x4 (arange n) eot) as [pooled|] eqn:E8; cbn [bind] in *; [|discriminate H].
  destruct (matmul pooled (TextEncoderZS.text_projection zs)) as [o|] eqn:E9;
    cbn [bind] in *; [|discriminate H].
  destruct (stack (snd r)) as [fs|] eqn:E10; cbn [bind] in H; [|discriminate H].
  injection H as <-. reflexivity.
Qed.

(** X16.  On [N] token rows of length [L], with blocks that keep the
    shape, [TextEncoderZS.forward] returns an embedding of shape [[N; M]]
    and one saved feature matrix per block, stacked to
    [[number of blocks; N; D]]. *)
Theorem zero_shot_shapes (T : Type) (S : Scalar T)
        (zs : TextEncoderZS.t T) (text : tensor Z) (N L D M : nat) :
  zs_tower_shapes zs L D M ->
  shape text = [N; L] -> 0 < L -> 0 < N ->
  TextEncoderZS.transformer zs <> [] ->
  exists out,
    TextEncoderZS.forward zs text = Ok out /\
    shape (fst out) = [N; M] /\
    shape (snd out) = [length (TextEncoderZS.transformer zs); N; D].
Proof.
  intros (Hemb & Hpos & Hlayers & Hln & Hproj) Htext HL HN Hne.
  unfold TextEncoderZS.forward.
  destruct (Hemb N text Htext) as [x0 [E0 Hx0]]. rewrite E0. cbn [bind].
  unfold broadcast2 at 1. rewrite Hx0, Hpos. cbn [bind].
  unfold permute102 at 1. cbn [shape bind].
  match goal with
  | |- context [TextEncoderZS.layers_loop text _ ?a []] =>
      destruct (@layers_loop_shapes T text N L D (TextEncoderZS.transformer zs)
                  Htext HL HN Hlayers a [] eq_refl (Forall_nil _))
        as [x1 [feats [E1 [Hx1 [Hf Hlen]]]]]; rewrite E1
  end.
  cbn [bind fst snd]. unfold permute102 at 1. rewrite Hx1. cbn [bind].
  match goal with
  | |- context [TextEncoderZS.ln_final zs ?a] =>
      destruct (Hln N a eq_refl) as [x2 [E2 Hx2]]; rewrite E2
  end.
  cbn [bind]. unfold shape_at. rewrite Hx2. cbn [nth_error bind].
  destruct (@argmax_last_matrix Z 0%Z Z.ltb text N L Htext HL)
    as [rows [Ea [Hlenr Hrows]]].
  rewrite Ea. cbn [bind].
  destruct (@index01_rows T x2 rows N L D Hx2 Hlenr Hrows) as [pooled [Ei Hp]].
  rewrite Ei. cbn [bind].
  destruct (@matmul_rows T S pooled (TextEncoderZS.text_projection zs) N D M Hp Hproj)
    as [o [Em [Hso _]]].
  rewrite Em. cbn [bind].
  rewrite (@stack_rows T feats [N; D]); [| | assumption].
  - cbn [bind]. eexists. split; [reflexivity|]. cbn [fst snd shape].
    split; [assumption|]. rewrite Hlen. reflexivity.
  - intros ->. cbn [length] in Hlen.
    destruct (TextEncoderZS.transformer zs); [congruence | discriminate].
Qed.

(** X17.  Without any block, [TextEncoderZS.forward] raises: the empty list
    of saved features cannot be stacked. *)
Theorem zero_shot_no_block_raises (T : Type) (S : Scalar T)
        (zs : TextEncoderZS.t T) (text : tensor Z) (N L D M : nat) :
  zs_tower_shapes zs L D M ->
  shape text = [N; L] -> 0 < L ->
  TextEncoderZS.transformer zs = [] ->
  TextEncoderZS.forward zs text
  = Raise (RuntimeError "stack expects a non-empty TensorList").
Proof.
  intros (Hemb & Hpos & _ & Hln & Hproj) Htext HL Hnil.
  unfold TextEncoderZS.forward.
  destruct (Hemb N text Htext) as [x0 [E0 Hx0]]. rewrite E0. cbn [bind].
  unfold broadcast2 at 1. rewrite Hx0, Hpos. cbn [bind].
  unfold permute102 at 1. cbn [shape bind].
  rewrite Hnil. cbn [TextEncoderZS.layers_loop bind fst snd].
  unfold permute102 at 1. cbn [shape bind].
  match goal with
  | |- context [TextEncoderZS.ln_final zs ?a] =>
      destruct (Hln N a eq_refl) as [x2 [E2 Hx2]]; rewrite E2
  end.
  cbn [bind]. unfold shape_at. rewrite Hx2. cbn [nth_error bind].
  destruct (@argmax_last_matrix Z 0%Z Z.ltb text N L Htext HL)
    as [rows [Ea [Hlenr Hrows]]].
  rewrite Ea. cbn [bind].
  destruct (@index01_rows T x2 rows N L D Hx2 Hlenr Hrows) as [pooled [Ei Hp]].
  rewrite Ei. cbn [bind].
  destruct (@matmul_rows T S pooled (TextEncoderZS.text_projection zs) N D M Hp Hproj)
    as [o [Em _]].
  rewrite Em. reflexivity.
Qed.

Section ZeroShotRuns.

Context {T : Type} {S : Scalar T}.
Variables e p c w1 w2 a b s : T.

Lemma small_zs_tower (n L : nat) :
  zs_tower_shapes (small_zs e p c w1 w2 a b s n) L 1 2.
Proof.
  unfold zs_tower_shapes, small_zs, TextEncoderZS.init, small_model.
  cbn [TextEncoderZS.token_embedding TextEncoderZS.positional_embedding
       TextEncoderZS.transformer TextEncoderZS.ln_final TextEncoderZS.text_projection
       ClipModel.token_embedding ClipModel.positional_embedding
       ClipModel.ln_final ClipModel.text_projection shape].
  repeat split.
  - intros N text Hs. eexists. split; [reflexivity|]. cbn [shape]. now rewrite Hs.
  - intros N. unfold broadcast_shapes. cbn [rev app broadcast_rev Nat.eqb].
    destruct (L =? 1); reflexivity.
  - apply Forall_forall. intros layer Hin. apply repeat_spec in Hin. subst layer.
    intros N x Hs. exists x. auto.
  - intros N x Hs. eexists. split; [reflexivity|]. exact Hs.
Qed.

Lemma small_zs_run :
  exists out,
    TextEncoderZS.forward (small_zs e p c w1 w2 a b s 2)
                          (mkTensor [1; 3] [sot; 5%Z; eot]) = Ok out.
Proof. eexists. vm_compute. reflexivity. Qed.

End ZeroShotRuns.

Lemma zero_shot_agrees_with_encode_text_witness :
  exists out,
    TextEncoderZS.forward (small_zs 1%R 0%R 1%R 3%R 4%R 3%R 4%R 0%R 2)
                          (mkTensor [1; 3] [sot; 5%Z; eot]) = Ok out /\
    TextEncoder.encode_text (encoder_of_zs (small_zs 1%R 0%R 1%R 3%R 4%R 3%R 4%R 0%R 2))
                            [mkTensor [1; 3] [sot; 5%Z; eot]] = Ok [fst out].
Proof.
  destruct (@small_zs_run R R_scalar 1%R 0%R 1%R 3%R 4%R 3%R 4%R 0%R) as [out E].
  exists out. split; [exact E|].
  exact (@zero_shot_agrees_with_encode_text R R_scalar _ _ out E).
Defined.

Lemma zero_shot_shapes_witness :
  exists out,
    TextEncoderZS.forward (small_zs 1%R 0%R 1%R 3%R 4%R 3%R 4%R 0%R 2)
                          (mkTensor [1; 3] [sot; 5%Z; eot]) = Ok out /\
    shape (fst out) = [1; 2] /\
    shape (snd out)
    = [length (TextEncoderZS.transformer (small_zs 1%R 0%R 1%R 3%R 4%R 3%R 4%R 0%R 2)); 1; 1].
Proof.
  apply (@zero_shot_shapes R R_scalar _ _ 1 3 1 2).
  - apply small_zs_tower.
  - reflexivity.
  - lia.
  - lia.
  - discriminate.
Defined.

Lemma zero_shot_no_block_raises_witness :
  TextEncoderZS.forward (small_zs 1%R 0%R 1%R 3%R 4%R 3%R 4%R 0%R 0)
                        (mkTensor [1; 3] [sot; 5%Z; eot])
  = Raise (RuntimeError "stack expects a non-empty TensorList").
Proof.
  apply (@zero_shot_no_block_raises R R_scalar _ _ 1 3 1 2).
  - apply small_zs_tower.
  - reflexivity.
  - lia.
  - reflexivity.
Defined.

(** ** The prompt length against the context length *)

Lemma chunk0_shapes (A : Type) (n : nat) (t : tensor A) (chunks : list (tensor A)) :
  chunk0 n t = Ok chunks ->
  Forall (fun c => exists rows, shape c = rows :: tl (shape t)) chunks.
Proof.
  unfold chunk0. destruct (shape t) as [|b rest] eqn:Hs; [discriminate|].
  cbv zeta. destruct ((b + n - 1) / n =? 0); intros H; injection H as <-.
  - constructor; [|constructor]. exists b. now rewrite Hs.
  - apply Forall_forall. intros c Hin. apply in_map_iff in Hin as [i [<- _]].
    eexists. reflexivity.
Qed.

Lemma broadcast_middle (r X C L D : nat) (s : list nat) :
  broadcast_shapes [r; X; C] [L; D] = Some s -> X = L \/ X = 1 \/ L = 1.
Proof.
  unfold broadcast_shapes. cbn [rev app broadcast_rev].
  destruct (Nat.eqb_spec X L); [auto|].
  destruct (Nat.eqb_spec X 1); [auto|].
  destruct (Nat.eqb_spec L 1); [auto|].
  discriminate.
Qed.

Lemma view_middle (A : Type) (t t' : tensor A) (B C n : nat) (X : Z) :
  view t [Z.of_nat B; X; Z.of_nat C] = Ok t' ->
  numel (shape t) = B * C * n -> 0 < B -> 0 < C ->
  shape t' = [B; n; C].
Proof.
  unfold view. cbn [existsb filter].
  assert (H1 : forall k : nat, (Z.of_nat k <? -1)%Z = false)
    by (intros k; apply Z.ltb_ge; lia).
  assert (H2 : forall k : nat, (Z.of_nat k =? -1)%Z = false)
    by (intros k; apply Z.eqb_neq; lia).
  rewrite !H1, !H2. cbn [orb negb].
  destruct (Z.ltb_spec X (-1)) as [|HX]; [discriminate|].
  intros H Hn HB HC.
  destruct (Z.eqb_spec X (-1)) as [->|HX1]; cbn [negb length map filter] in H.
  - rewrite !Nat2Z.id in H. cbn [numel fold_right] in H.
    destruct (B * (C * 1) =? 0); [discriminate|].
    destruct (numel (shape t) mod (B * (C * 1)) =? 0); [|discriminate].
    injection H as <-. cbn [shape]. rewrite !H2. cbn [Z.eqb]. do 2 f_equal.
    rewrite Hn. replace (B * (C * 1)) with (B * C) by lia.
    rewrite (Nat.mul_comm (B * C) n). apply Nat.div_mul. lia.
  - rewrite !Nat2Z.id in H. cbn [numel fold_right] in H.
    destruct (Nat.eqb_spec (B * (Z.to_nat X * (C * 1))) (numel (shape t)))
      as [Heq|]; [|discriminate].
    cbn [orb] in H. injection H as <-. cbn [shape]. do 2 f_equal.
    rewrite Hn in Heq. nia.
Qed.

Section ContextFacts.

Context {T : Type} {S : Scalar T}.

Lemma index0_shape (t gathered : tensor T) (index : tensor nat) (E : nat) (rest : list nat) :
  shape t = E :: rest ->
  index0 t index = Ok gathered ->
  shape gathered = shape index ++ rest.
Proof.
  intros Hs. unfold index0. rewrite Hs. intros H. bind_inv H. now injection H as <-.
Qed.

Lemma prompt_forward_shape (self : PromptLearner.t T) (indexs : tensor nat)
      (ctx : tensor T) (B K E P C : nat) :
  PromptLearner.forward self indexs = Ok ctx ->
  shape indexs = [B; K] ->
  shape (PromptLearner.entity_prompts self) = [E; P; C] ->
  PromptLearner.ctx_dim self = C ->
  0 < B -> 0 < C ->
  shape ctx = [B; K * P; C].
Proof.
  unfold PromptLearner.forward, shape_at. intros H Hi Hp Hc HB HC.
  rewrite Hi in H. cbn [nth_error bind] in H.
  destruct (index0 (PromptLearner.entity_prompts self) indexs) as [g|] eqn:Eg;
    cbn [bind] in H; [|discriminate H].
  eapply index0_shape in Eg; [|exact Hp]. rewrite Hi in Eg. cbn [app] in Eg.
  rewrite Hc in H. bind_inv H. injection H as <-.
  eapply view_middle; [eassumption | | assumption | assumption].
  rewrite Eg. cbn [numel fold_right]. lia.
Qed.

Lemma call_encoder_runs_module (e : encoder_ref T) (module : TextEncoder.t T)
      (x out : tensor T) :
  module_of e = Ok module \/ e = Bare module ->
  call_encoder e x = Ok out ->
  shape x <> [] ->
  exists c o rows,
    TextEncoder.forward module c = Ok o /\ shape c = rows :: tl (shape x).
Proof.
  intros He H Hx. destruct e as [m|m devices]; cbn [module_of call_encoder] in *.
  - assert (m = module) as ->
      by (destruct He as [He|He]; [discriminate | congruence]).
    destruct (shape x) as [|r rest] eqn:Hs; [congruence|].
    exists x, out, r. now rewrite Hs.
  - assert (m = module) as ->
      by (destruct He as [He|He]; [congruence | discriminate]).
    destruct (chunk0 devices x) as [chunks|] eqn:Ec; cbn [bind] in H; [|discriminate H].
    apply chunk0_shapes in Ec.
    destruct chunks as [|c [|c' rest]].
    + cbn [mapM bind cat0] in H. discriminate H.
    + inversion Ec as [|? ? [rows Hc] _]; subst. exists c, out, rows. auto.
    + inversion Ec as [|? ? [rows Hc] _]; subst.
      cbn [mapM] in H.
      destruct (TextEncoder.forward module c) as [o|] eqn:Eo; cbn [bind] in H;
        [|discriminate H].
      exists c, o, rows. auto.
Qed.

Lemma text_forward_broadcasts (module : TextEncoder.t T) (c o : tensor T) :
  TextEncoder.forward module c = Ok o ->
  exists s, broadcast_shapes (shape c) (shape (TextEncoder.positional_embedding module))
            = Some s.
Proof.
  unfold TextEncoder.forward. intros H. bind_inv H.
  unfold broadcast2 in E.
  destruct (broadcast_shapes (shape c) (shape (TextEncoder.positional_embedding module)))
    as [s|]; [|discriminate E].
  now exists s.
Qed.

Variable topk_row : list T -> nat -> list nat.

Lemma forward_select_shape (self : CLIP.t T) (image_features : tensor T)
      (indexs : tensor nat) :
  CLIP.forward_select topk_row self image_features = Ok indexs ->
  exists B K, shape indexs = [B; K] /\ (B = 0 -> data indexs = []).
Proof.
  unfold CLIP.forward_select, CLIP.topk_dim1. intros H. repeat bind_inv H.
  destruct (shape a) as [|b [|n [|]]]; try discriminate H.
  match type of H with
  | (if ?g then _ else _) = _ => destruct g; [discriminate H|]
  end.
  injection H as <-. do 2 eexists. split; [reflexivity|].
  intros ->. reflexivity.
Qed.

(** [forward] returns only if the prompt rows of one image, a multiple of
    the prompt length, match the rows of the positional embedding. *)
Lemma forward_needs_context (self : CLIP.t T) (module : TextEncoder.t T)
      (image : tensor T) (out : tensor T * tensor T * tensor T) (E P C L D : nat) :
  CLIP.forward topk_row self image = Ok out ->
  shape (PromptLearner.entity_prompts (CLIP.prompt_learner self)) = [E; P; C] ->
  PromptLearner.ctx_dim (CLIP.prompt_learner self) = C ->
  0 < C ->
  module_of (CLIP.text_encoder self) = Ok module ->
  shape (TextEncoder.positional_embedding module) = [L; D] ->
  L = 1 \/ exists K, K * P = L \/ K * P = 1.
Proof.
  unfold CLIP.forward. intros H Hp Hc HC Hm Hpos.
  destruct (CLIP.forward_image_features self image) as [image_features|] eqn:E1;
    cbn [bind] in H; [|discriminate H].
  destruct (CLIP.forward_select topk_row self image_features) as [indexs|] eqn:E2;
    cbn [bind] in H; [|discriminate H].
  destruct (list_getitem (CLIP.entity_keys self) indexs) as [chosen|] eqn:E3;
    cbn [bind] in H; [|discriminate H].
  destruct (CLIP.forward_text_features self indexs) as [text_features|] eqn:E4;
    cbn [bind] in H; [|discriminate H].
  clear H.
  pose proof E2 as Hsel. apply forward_select_shape in Hsel.
  destruct Hsel as [B [K [Hi Hempty]]].
  assert (HB : 0 < B).
  { destruct B; [|lia]. unfold list_getitem in E3. rewrite Hempty in E3 by reflexivity.
    discriminate E3. }
  unfold CLIP.forward_text_features in E4.
  destruct (PromptLearner.forward (CLIP.prompt_learner self) indexs) as [ctx|] eqn:E5;
    cbn [bind] in E4; [|discriminate E4].
  destruct (call_encoder (CLIP.text_encoder self) ctx) as [tf|] eqn:E6;
    cbn [bind] in E4; [|discriminate E4].
  pose proof E5 as Hctx.
  eapply prompt_forward_shape in Hctx; [| exact Hi | exact Hp | exact Hc | exact HB | exact HC].
  eapply call_encoder_runs_module in E6;
    [| left; exact Hm | rewrite Hctx; discriminate].
  destruct E6 as [c [o [rows [Ef Hsc]]]].
  rewrite Hctx in Hsc. cbn [tl] in Hsc.
  apply text_forward_broadcasts in Ef. destruct Ef as [s Hb].
  rewrite Hsc, Hpos in Hb. apply broadcast_middle in Hb.
  destruct Hb as [Hb|[Hb|Hb]]; [right; exists K; auto | right; exists K; auto | auto].
Qed.

Variable tokenizer : Tokenizer.
Variable normal_ : nat -> T.

Lemma init_parts (device_count : nat) (args : Args) (class_names : list string)
      (clip_model : ClipModel.t T) (entities : list string) (text_prompt n_ctx : Z)
      (m : CLIP.t T) :
  CLIP.init tokenizer device_count normal_ args class_names clip_model
            entities text_prompt n_ctx = Ok m ->
  module_of (CLIP.text_encoder m) = Ok (TextEncoder.init clip_model) /\
  exists C,
    nth_error (ClipModel.ln_final_weight_shape clip_model) 0 = Some C /\
    shape (PromptLearner.entity_prompts (CLIP.prompt_learner m))
    = [length entities; 12; C] /\
    PromptLearner.ctx_dim (CLIP.prompt_learner m) = C.
Proof.
  unfold CLIP.init, PromptLearner.init, CLIP.cuda. intros H. cbv zeta in H.
  destruct (ClipModel.ln_final_weight_shape clip_model) as [|d rest];
    [repeat bind_inv H; discriminate H|].
  repeat bind_inv H. injection H as <-.
  cbn [CLIP.text_encoder CLIP.prompt_learner PromptLearner.entity_prompts
       PromptLearner.ctx_dim].
  destruct (device_count =? 0); [discriminate|].
  match goal with E : Ok _ = Ok ?a |- context [shape ?a] => injection E as <- end.
  destruct (Nat.ltb_spec 1 device_count) as [Hdev|Hdev];
    [|match goal with E : module_of (Bare _) = Ok _ |- _ => discriminate E end].
  split; [reflexivity|]. exists d. repeat split.
Qed.

End ContextFacts.

(** X18.  A classifier built by [CLIP.__init__] over a pretrained model
    whose positional embedding has [L] rows, with [L] neither one nor a
    multiple of the prompt length 12 (the context length 77 of the CLIP
    models is such), never returns from [forward]: the assembled prompts do
    not broadcast against the positional embedding. *)
Theorem forward_never_returns_on_context (T : Type) (S : Scalar T)
        (tokenizer : Tokenizer) (device_count : nat) (normal_ : nat -> T)
        (topk_row : list T -> nat -> list nat) (args : Args)
        (class_names : list string) (clip_model : ClipModel.t T)
        (entities : list string) (text_prompt n_ctx : Z) (m : CLIP.t T)
        (L D : nat) (image : tensor T) :
  CLIP.init tokenizer device_count normal_ args class_names clip_model
            entities text_prompt n_ctx = Ok m ->
  shape (ClipModel.positional_embedding clip_model) = [L; D] ->
  L <> 1 -> L mod 12 <> 0 ->
  hd 0 (ClipModel.ln_final_weight_shape clip_model) <> 0 ->
  raises (CLIP.forward topk_row m image).
Proof.
  intros Hinit Hpos HL1 HL12 Hw.
  pose proof Hinit as Hparts. apply init_parts in Hparts.
  destruct Hparts as [Hm [C [HC [Hp Hc]]]].
  destruct (CLIP.forward topk_row m image) as [out|e] eqn:E; [|now exists e].
  exfalso.
  assert (0 < C).
  { destruct (ClipModel.ln_final_weight_shape clip_model); [discriminate|].
    cbn in HC, Hw. injection HC as ->. lia. }
  eapply forward_needs_context in E;
    [| exact Hp | exact Hc | assumption | exact Hm | exact Hpos].
  destruct E as [H1|[K [HK|HK]]].
  - contradiction.
  - apply HL12. rewrite <- HK. apply Nat.Div0.mod_mul.
  - lia.
Qed.

Section ContextRuns.

Context {T : Type} {S : Scalar T}.
Variables e p c w1 w2 a b s : T.
Variable normal_ : nat -> T.

Lemma small_run_context_77 :
  exists m,
    CLIP.init char_tokenizer 2 normal_ (mkArgs 1) ["cat"%string; "dog"%string]
              (small_model_context 77 e p c w1 w2 a b s)
              ["red"%string; "green"%string] 1 12 = Ok m.
Proof. eexists. vm_compute. reflexivity. Qed.

End ContextRuns.

Lemma forward_never_returns_on_context_witness :
  exists m,
    CLIP.init char_tokenizer 2 INR (mkArgs 1) ["cat"%string; "dog"%string]
              (small_model_context 77 1%R 0%R 1%R 3%R 4%R 3%R 4%R 0%R)
              ["red"%string; "green"%string] 1 12 = Ok m /\
    raises (CLIP.forward (fun _ k => seq 0 k) m (small_images 1 3%R)).
Proof.
  destruct (@small_run_context_77 R R_scalar 1%R 0%R 1%R 3%R 4%R 3%R 4%R 0%R INR)
    as [m Hm].
  exists m. split; [exact Hm|].
  apply (@forward_never_returns_on_context R R_scalar char_tokenizer 2 INR
           (fun _ k => seq 0 k) (mkArgs 1) ["cat"%string; "dog"%string]
           (small_model_context 77 1%R 0%R 1%R 3%R 4%R 3%R 4%R 0%R)
           ["red"%string; "green"%string] 1 12 m 77 1 (small_images 1 3%R) Hm).
  - reflexivity.
  - discriminate.
  - cbn. discriminate.
  - cbn. discriminate.
Defined.

(** ** _download *)

Section DownloadFacts.

Import Download.

Context {W : Type}.
Variable os : Os W.

Lemma fetch_verified (url download_target expected_sha256 path : string) (w w' : W) :
  fetch os url download_target expected_sha256 w = (Return path, w') ->
  path = download_target /\
  exists content,
    read_binary os download_target w' = Return content /\
    sha256_hexdigest os content = expected_sha256.
Proof.
  unfold fetch, bind_io at 1.
  match goal with
  | |- (match ?c w with _ => _ end) = _ -> _ => destruct (c w) as [[u|e] w1]
  end; [|discriminate].
  unfold bind_io, file_digest, bind_io, observe, ret, throw.
  destruct (read_binary os download_target w1) as [content|e] eqn:Er; [|discriminate].
  destruct (String.eqb_spec (sha256_hexdigest os content) expected_sha256) as [Hd|Hd];
    cbn [negb]; intros H; [|discriminate].
  injection H as <- <-. split; [reflexivity|]. now exists content.
Qed.

Lemma split_no_sep (sep : ascii) (s : string) :
  no_sep sep s = true -> split sep s = [s].
Proof.
  induction s as [|c s IH]; cbn [no_sep split]; intros H; [reflexivity|].
  apply andb_true_iff in H as [Hc Hs]. apply negb_true_iff in Hc.
  now rewrite Hc, (IH Hs).
Qed.

End DownloadFacts.

Lemma download_returns (W : Type) (os : Download.Os W) (url root path : string)
      (w w' : W) :
  Download._download os url root w = (Download.Return path, w') ->
  path = Download.join os root (Download.basename os url) /\
  exists expected_sha256 content,
    Download.getitem_neg2 (split "/" url) = Ok expected_sha256 /\
    Download.read_binary os path w' = Download.Return content /\
    Download.sha256_hexdigest os content = expected_sha256.
Proof.
  unfold Download._download, Download.bind_io at 1.
  destruct (Download.makedirs os root w) as [[u|e] w1]; [|discriminate].
  unfold Download.bind_io at 1, Download.lift.
  destruct (Download.getitem_neg2 (split "/" url)) as [expected|e];
    [|discriminate].
  unfold Download.ret at 1. cbv zeta.
  set (target := Download.join os root (Download.basename os url)).
  unfold Download.bind_io at 1, Download.observe at 1.
  destruct (Download.path_exists os target w1 && negb (Download.isfile os target w1));
    [discriminate|].
  unfold Download.bind_io at 1, Download.observe at 1.
  destruct (Download.isfile os target w1).
  - unfold Download.bind_io at 1, Download.file_digest, Download.bind_io at 1,
      Download.observe, Download.ret at 1.
    destruct (Download.read_binary os target w1) as [content|e] eqn:Er; [|discriminate].
    destruct (String.eqb_spec (Download.sha256_hexdigest os content) expected) as [Hd|Hd].
    + unfold Download.ret. intros H. injection H as <- <-.
      split; [reflexivity|]. exists expected, content. auto.
    + unfold Download.bind_io at 1.
      destruct (Download.warn os _ w1) as [[u'|e] w2]; [|discriminate].
      intros H. apply fetch_verified in H as [-> [content' [Hr Hd']]].
      split; [reflexivity|]. exists expected, content'. auto.
  - intros H. apply fetch_verified in H as [-> [content' [Hr Hd']]].
    split; [reflexivity|]. exists expected, content'. auto.
Qed.


(** X19.  A path returned by [_download] is the download target, and the
    file read there in the state the call leaves has the SHA256 digest given
    by the second-to-last component of the URL. *)
Theorem download_verified (W : Type) (os : Download.Os W) (url root path : string)
        (w w' : W) :
  Download._download os url root w = (Download.Return path, w') ->
  path = Download.join os root (Download.basename os url) /\
  exists expected_sha256 content,
    Download.getitem_neg2 (split "/" url) = Ok expected_sha256 /\
    Download.read_binary os path w' = Download.Return content /\
    Download.sha256_hexdigest os content = expected_sha256.
Proof. apply download_returns. Qed.

(** X20.  When the target is already a regular file with the expected
    digest, [_download] returns it and leaves the state as [os.makedirs] left
    it: nothing is fetched and nothing is written. *)
Theorem download_cache_hit (W : Type) (os : Download.Os W) (url root : string)
        (expected_sha256 : string) (content : Download.bytes) (w w1 : W) :
  Download.makedirs os root w = (Download.Return tt, w1) ->
  Download.getitem_neg2 (split "/" url) = Ok expected_sha256 ->
  Download.isfile os (Download.join os root (Download.basename os url)) w1 = true ->
  Download.read_binary os (Download.join os root (Download.basename os url)) w1
  = Download.Return content ->
  Download.sha256_hexdigest os content = expected_sha256 ->
  Download._download os url root w
  = (Download.Return (Download.join os root (Download.basename os url)), w1).
Proof.
  intros Hm He Hf Hr Hd.
  unfold Download._download, Download.bind_io at 1. rewrite Hm.
  unfold Download.bind_io at 1, Download.lift. rewrite He.
  unfold Download.ret at 1. cbv zeta.
  unfold Download.bind_io at 1, Download.observe at 1. rewrite Hf.
  rewrite andb_false_r.
  unfold Download.bind_io at 1, Download.observe at 1. rewrite Hf.
  unfold Download.bind_io at 1, Download.file_digest, Download.bind_io at 1,
    Download.observe, Download.ret at 1.
  rewrite Hr, Hd, String.eqb_refl. reflexivity.
Qed.

(** X21.  When the target exists and is not a regular file, [_download]
    raises and leaves the state as [os.makedirs] left it. *)
Theorem download_target_not_a_file (W : Type) (os : Download.Os W) (url root : string)
        (expected_sha256 : string) (w w1 : W) :
  Download.makedirs os root w = (Download.Return tt, w1) ->
  Download.getitem_neg2 (split "/" url) = Ok expected_sha256 ->
  Download.path_exists os (Download.join os root (Download.basename os url)) w1 = true ->
  Download.isfile os (Download.join os root (Download.basename os url)) w1 = false ->
  Download._download os url root w
  = (Download.Throw
       (Download.Builtin
          (RuntimeError (Download.join os root (Download.basename os url)
                         ++ " exists and is not a regular file"))),
     w1).
Proof.
  intros Hm He Hx Hf.
  unfold Download._download, Download.bind_io at 1. rewrite Hm.
  unfold Download.bind_io at 1, Download.lift. rewrite He.
  unfold Download.ret at 1. cbv zeta.
  unfold Download.bind_io at 1, Download.observe at 1. rewrite Hx, Hf.
  reflexivity.
Qed.

(** X22.  For a URL without any slash, [_download] raises an index error
    once the root directory has been made: the URL has no second-to-last
    component. *)
Theorem download_url_without_slash (W : Type) (os : Download.Os W) (url root : string)
        (w w1 : W) :
  no_sep "/" url = true ->
  Download.makedirs os root w = (Download.Return tt, w1) ->
  Download._download os url root w
  = (Download.Throw (Download.Builtin (IndexError "list index out of range")), w1).
Proof.
  intros Hu Hm.
  unfold Download._download, Download.bind_io at 1. rewrite Hm.
  unfold Download.bind_io at 1, Download.lift, Download.getitem_neg2.
  rewrite (split_no_sep _ _ Hu). reflexivity.
Qed.

Lemma lookup_in (name url : string) (table : list (string * string)) :
  Load.lookup name table = Some url -> In (name, url) table.
Proof.
  unfold Load.lookup. destruct (find _ table) as [[k v]|] eqn:E; [|discriminate].
  cbn [option_map snd]. intros H. injection H as <-.
  apply find_some in E as [Hin Hk]. cbn [fst] in Hk.
  apply String.eqb_eq in Hk. now subst k.
Qed.

Lemma lookup_none (name : string) (table : list (string * string)) :
  Load.lookup name table = None -> ~ In name (map fst table).
Proof.
  unfold Load.lookup. destruct (find _ table) as [e|] eqn:E; [discriminate|].
  intros _ Hin. apply in_map_iff in Hin as [e [He Hin]].
  pose proof (find_none _ _ E e Hin) as Hk. cbn beta in Hk.
  rewrite He, String.eqb_refl in Hk. discriminate.
Qed.

(** X23.  The model file [load_and_build_clip] settles on is either the
    download of the URL listed for the name, read back with the digest the
    URL carries, or, for a name that is not listed, the name itself, which
    is then a regular file; in the second case the state is untouched. *)
Theorem model_path_sound (W : Type) (os : Download.Os W) (name : string)
        (download_root : option string) (path : string) (w w' : W) :
  Load.model_path os name download_root w = (Download.Return path, w') ->
  (exists url expected_sha256 content,
     In (name, url) Load._MODELS /\
     Download.getitem_neg2 (split "/" url) = Ok expected_sha256 /\
     Download.read_binary os path w' = Download.Return content /\
     Download.sha256_hexdigest os content = expected_sha256) \/
  (~ In name Load.available_models /\ path = name /\ w' = w /\
   Download.isfile os name w = true).
Proof.
  unfold Load.model_path.
  destruct (Load.lookup name Load._MODELS) as [url|] eqn:El.
  - cbv zeta. intros H. apply download_returns in H.
    destruct H as [_ [expected [content [He [Hr Hd]]]]].
    left. exists url, expected, content. split; [|auto].
    now apply lookup_in.
  - unfold Download.bind_io, Download.observe.
    destruct (Download.isfile os name w) eqn:Ef; [|discriminate].
    unfold Download.ret. intros H. injection H as <- <-.
    right. split; [|auto]. now apply lookup_none.
Qed.

Lemma download_verified_witness :
  "root/file.pt"%string
  = Download.join (Download.mem_os served_abc) "root"
                  (Download.basename (Download.mem_os served_abc) url_abc) /\
  exists expected_sha256 content,
    Download.getitem_neg2 (split "/" url_abc) = Ok expected_sha256 /\
    Download.read_binary (Download.mem_os served_abc) "root/file.pt"
      [("root/file.pt"%string, Some [Byte.x61; Byte.x62; Byte.x63]);
       ("root"%string, None)]
    = Download.Return content /\
    Download.sha256_hexdigest (Download.mem_os served_abc) content = expected_sha256.
Proof.
  apply (@download_verified _ (Download.mem_os served_abc) url_abc "root"
           "root/file.pt" []).
  vm_compute. reflexivity.
Defined.

Lemma download_cache_hit_witness :
  Download._download (Download.mem_os served_abc) url_abc "root"
    [("root/file.pt"%string, Some [Byte.x61; Byte.x62; Byte.x63]); ("root"%string, None)]
  = (Download.Return
       (Download.join (Download.mem_os served_abc) "root"
                      (Download.basename (Download.mem_os served_abc) url_abc)),
     [("root/file.pt"%string, Some [Byte.x61; Byte.x62; Byte.x63]); ("root"%string, None)]).
Proof.
  apply (@download_cache_hit _ (Download.mem_os served_abc) url_abc "root" "3"
           [Byte.x61; Byte.x62; Byte.x63]).
  - reflexivity.
  - reflexivity.
  - reflexivity.
  - reflexivity.
  - reflexivity.
Defined.

Lemma download_target_not_a_file_witness :
  Download._download (Download.mem_os served_abc) url_abc "root"
    [("root/file.pt"%string, None); ("root"%string, None)]
  = (Download.Throw
       (Download.Builtin
          (RuntimeError
             (Download.join (Download.mem_os served_abc) "root"
                            (Download.basename (Download.mem_os served_abc) url_abc)
              ++ " exists and is not a regular file"))),
     [("root/file.pt"%string, None); ("root"%string, None)]).
Proof.
  apply (@download_target_not_a_file _ (Download.mem_os served_abc) url_abc "root" "3").
  - reflexivity.
  - reflexivity.
  - reflexivity.
  - reflexivity.
Defined.

Lemma download_url_without_slash_witness :
  Download._download (Download.mem_os served_abc) "file.pt" "root" []
  = (Download.Throw (Download.Builtin (IndexError "list index out of range")),
     [("root"%string, None)]).
Proof.
  apply (@download_url_without_slash _ (Download.mem_os served_abc) "file.pt" "root").
  - reflexivity.
  - reflexivity.
Defined.

Lemma model_path_sound_witness :
  (exists url expected_sha256 content,
     In ("weights.pt"%string, url) Load._MODELS /\
     Download.getitem_neg2 (split "/" url) = Ok expected_sha256 /\
     Download.read_binary (Download.mem_os served_abc) "weights.pt"
       [("weights.pt"%string, Some [Byte.x61])] = Download.Return content /\
     Download.sha256_hexdigest (Download.mem_os served_abc) content = expected_sha256) \/
  (~ In "weights.pt"%string Load.available_models /\
   "weights.pt"%string = "weights.pt"%string /\
   [("weights.pt"%string, Some [Byte.x61])] = [("weights.pt"%string, Some [Byte.x61])] /\
   Download.isfile (Download.mem_os served_abc) "weights.pt"
     [("weights.pt"%string, Some [Byte.x61])] = true).
Proof.
  apply (@model_path_sound _ (Download.mem_os served_abc) "weights.pt" None "weights.pt"
           [("weights.pt"%string, Some [Byte.x61])]).
  reflexivity.
Defined.

(** ** The number of prompts the selector asks for *)


